(** * Performa: the data-acquisition stub and its HTTP routes

    A shallow embedding of the server side of the Performa repository:

    - [server/controllers/nbaScraper.js]: [scrapeNBAData] and
      [generateHistoricalData];
    - [server/routes/scrapers.js]: [POST /nba] and [GET /status];
    - [server/routes/players.js]: [GET /] and [GET /:id].

    The JavaScript is effectful: it reads the wall clock ([new Date()]),
    draws pseudo-random numbers ([Math.random()]), and reads and writes one
    file ([data/players.json]).  All of that is threaded through an
    explicit [world]; exceptions are the [Throw] branch of [result].

    JavaScript numbers are IEEE 754 binary64 values; they are modelled by
    the standard library's executable specification [spec_float] at
    precision 53 and maximal exponent 1024. *)

From Stdlib Require Import ZArith List String Ascii Bool Lia.
From Stdlib Require Import SpecFloat.
Import ListNotations.

Local Open Scope string_scope.
Local Open Scope Z_scope.

(** ** Numbers *)

Module Num.

Definition prec : Z := 53.
Definition emax : Z := 1024.

Definition number : Type := spec_float.

Definition NaN : number := S754_nan.

(** The Number value of a mathematical integer (round to nearest, ties to
    even). *)
Definition of_Z (z : Z) : number := binary_normalize prec emax z 0 false.

Definition add : number -> number -> number := SFadd prec emax.
Definition sub : number -> number -> number := SFsub prec emax.
Definition mul : number -> number -> number := SFmul prec emax.
Definition div : number -> number -> number := SFdiv prec emax.

(** [x === y] on two Numbers: NaN differs from everything, the two zeros
    are equal. *)
Definition strict_eq : number -> number -> bool := SFeqb.

Definition leb : number -> number -> bool := SFleb.
Definition ltb : number -> number -> bool := SFltb.

(** A well-formed binary64 value. *)
Definition valid (x : number) : bool := valid_binary prec emax x.

(** What [Math.random()] may return: a Number with positive sign, at least
    [+0] and strictly below [1]. *)
Definition unit_interval (x : number) : bool :=
  match x with
  | S754_zero false => true
  | S754_finite false _ _ => valid x && ltb x (of_Z 1)
  | _ => false
  end.

(** A reading of the host's random source, as [Math.random()] hands it
    on: ECMAScript requires of every implementation a Number in [[0, 1)],
    so a reading outside the interval counts as [+0]. *)
Definition fraction (x : number) : number :=
  if unit_interval x then x else S754_zero false.

(** [Number.prototype.toFixed(1)] picks the integer [n] for which
    [n / 10 - x] is closest to zero, the larger one on a tie; for
    [x = m * 2^e >= 0] that is [floor (10 * x + 1/2)]. *)
Definition tenths (m : positive) (e : Z) : Z :=
  if 0 <=? e
  then 10 * Z.pos m * 2 ^ e
  else (20 * Z.pos m + 2 ^ (- e)) / (2 * 2 ^ (- e)).

(** [parseFloat(x.toFixed(1))].  [toFixed] renders NaN and the infinities
    by name and [parseFloat] reads them back; a zero of either sign is
    rendered ["0.0"]; magnitudes from [1e21] on are rendered by [ToString]
    and read back unchanged; otherwise the decimal [n / 10] is read back as
    the nearest Number, which is the correctly rounded quotient. *)
Definition toFixed1 (x : number) : number :=
  match x with
  | S754_nan => S754_nan
  | S754_infinity s => S754_infinity s
  | S754_zero _ => S754_zero false
  | S754_finite s m e =>
      let n := tenths m e in
      if 10 ^ 22 <=? n then x
      else if n =? 0 then S754_zero s
      else div (of_Z (if s then - n else n)) (of_Z 10)
  end.

End Num.

(** ** JSON values

    The values [JSON.parse] produces and [JSON.stringify] consumes.  An
    object keeps its properties in order, as the serialisation does. *)

#[warnings="-register-all"]
Inductive json : Type :=
| JNull
| JBool (b : bool)
| JNum (n : Num.number)
| JStr (s : string)
| JArr (items : list json)
| JObj (props : list (string * json)).

Fixpoint lookup (k : string) (props : list (string * json)) : option json :=
  match props with
  | [] => None
  | (k', v) :: rest => if String.eqb k k' then Some v else lookup k rest
  end.

(** [obj.k = v]: an existing property keeps its place, a new one goes
    last. *)
Fixpoint assign (k : string) (v : json) (props : list (string * json))
  : list (string * json) :=
  match props with
  | [] => [(k, v)]
  | (k', v') :: rest =>
      if String.eqb k k' then (k, v) :: rest else (k', v') :: assign k v rest
  end.

(** ** Exceptions and results *)

Inductive js_error : Type :=
| SyntaxError   (* JSON.parse on text that is not JSON *)
| TypeError     (* property read on null or undefined, call of a non-function *)
| RangeError    (* toISOString on an invalid Date *)
| SystemError.  (* a failing fs call *)

Inductive result (A : Type) : Type :=
| Ok (a : A)
| Throw (e : js_error).

Arguments Ok {A} a.
Arguments Throw {A} e.

Definition succeeded {A} (r : result A) : bool :=
  match r with Ok _ => true | Throw _ => false end.

(** ** The host: file, clock, random source, time zone *)

(** The text of the data file is identified with what [JSON.parse] makes of
    it: either it is rejected, or it denotes a value.  Spelling (white
    space, the way a number is written) is below this model; the value
    that the text written by [JSON.stringify] denotes is [written],
    below. *)
Inductive text : Type :=
| Malformed (raw : string)
| Wellformed (v : json).

Inductive file_state : Type :=
| Missing                (* existsSync is false *)
| Unreadable             (* the path exists, readFileSync throws *)
| Stored (t : text).

(** [LocalTZA(t, isUTC)] of ECMAScript, in milliseconds: the offset of
    local time from UTC at the UTC instant [t] ([isUTC = true]) or at the
    local time value [t] ([isUTC = false]). *)
Definition timezone : Type := Z -> bool -> Z.

(** How a [writeFileSync] that does not succeed fails.  The call opens the
    file with flag ['w'], which truncates it, writes, and closes. *)
Inductive write_failure : Type :=
| Refused              (* at the open: the file is as it was *)
| Torn (raw : string)  (* while writing: the bytes written so far are left *)
| Unclosed.            (* when closing: all of the text is written *)

Record world : Type := mkWorld {
  disk : file_state;          (* data/players.json *)
  writable : bool;            (* does writeFileSync on it succeed *)
  failure : write_failure;    (* how it fails if it does not *)
  clock : nat -> Z;           (* successive readings of the wall clock, ms *)
  ticks : nat;                (* readings consumed so far *)
  entropy : nat -> Num.number;  (* successive results of Math.random() *)
  draws : nat;                (* results consumed so far *)
  zone : timezone;
  console : list js_error;    (* what console.error has printed *)
  wire : list string          (* outgoing HTTP requests, by URL *)
}.

Definition M (A : Type) : Type := world -> result A * world.

Definition ret {A} (a : A) : M A := fun w => (Ok a, w).

Definition throw {A} (e : js_error) : M A := fun w => (Throw e, w).

Definition bind {A B} (c : M A) (k : A -> M B) : M B :=
  fun w =>
    match c w with
    | (Ok a, w') => k a w'
    | (Throw e, w') => (Throw e, w')
    end.

(** [try { c } catch (error) { h error }] *)
Definition try_catch {A} (c : M A) (h : js_error -> M A) : M A :=
  fun w =>
    match c w with
    | (Ok a, w') => (Ok a, w')
    | (Throw e, w') => h e w'
    end.

Definition lift {A} (r : result A) : M A := fun w => (r, w).

Declare Scope js_scope.
Delimit Scope js_scope with js.
Notation "x <- c ;; k" := (bind c (fun x => k))
  (at level 61, c at next level, right associativity) : js_scope.
Notation "c ;;; k" := (bind c (fun _ => k))
  (at level 61, right associativity) : js_scope.
Local Open Scope js_scope.

Definition with_disk (d : file_state) (w : world) : world :=
  mkWorld d (writable w) (failure w) (clock w) (ticks w) (entropy w) (draws w)
          (zone w) (console w) (wire w).

(** The time zone the process runs in. *)
Definition host_zone : M timezone := fun w => (Ok (zone w), w).

(** [Math.random()] *)
Definition Math_random : M Num.number :=
  fun w =>
    (Ok (Num.fraction (entropy w (draws w))),
     mkWorld (disk w) (writable w) (failure w) (clock w) (ticks w) (entropy w)
             (S (draws w)) (zone w) (console w) (wire w)).

(** [console.error(..., error)] *)
Definition console_error (e : js_error) : M unit :=
  fun w =>
    (Ok tt,
     mkWorld (disk w) (writable w) (failure w) (clock w) (ticks w) (entropy w)
             (draws w) (zone w) (console w ++ [e]) (wire w)).

(** [fs.existsSync(dataFile)] *)
Definition fs_existsSync : M bool :=
  fun w => (Ok (match disk w with Missing => false | _ => true end), w).

(** [fs.readFileSync(dataFile)] *)
Definition fs_readFileSync : M text :=
  fun w =>
    match disk w with
    | Stored t => (Ok t, w)
    | _ => (Throw SystemError, w)
    end.

(** [fs.writeFileSync(dataFile, t)] opens the file with flag ['w'], which
    truncates it, then writes, then closes.  A call that is refused at the
    open leaves the file as it was.  One that fails while it writes (no
    space left, quota, I/O error) leaves the bytes written until then: a
    proper prefix of the text, and no JSON, since the text written here is
    that of an object, which ends with its closing brace.  One that fails
    only when it closes the file has written all of the text. *)
Definition fs_writeFileSync (t : text) : M unit :=
  fun w =>
    if writable w then (Ok tt, with_disk (Stored t) w)
    else (Throw SystemError,
          match failure w with
          | Refused => w
          | Torn raw => with_disk (Stored (Malformed raw)) w
          | Unclosed => with_disk (Stored t) w
          end).

Definition JSON_parse (t : text) : result json :=
  match t with
  | Malformed _ => Throw SyntaxError
  | Wellformed v => Ok v
  end.

(** What [JSON.parse] reads from the text [JSON.stringify] writes for a
    Number: the Number itself if it is finite and not [-0]; [-0] is written
    [0]; NaN and the infinities are written [null]. *)
Definition number_written (n : Num.number) : json :=
  match n with
  | S754_zero _ => JNum (S754_zero false)
  | S754_finite _ _ _ => JNum n
  | _ => JNull
  end.

(** The same for a value: strings, booleans and [null] are read back as
    they are, arrays and objects element by element, in order. *)
Fixpoint written (v : json) : json :=
  match v with
  | JNum n => number_written n
  | JArr items => JArr (map written items)
  | JObj props => JObj (map (fun kv => (fst kv, written (snd kv))) props)
  | _ => v
  end.

(** [JSON.stringify(v)] and [JSON.stringify(v, null, 2)] differ in white
    space only. *)
Definition JSON_stringify (v : json) : text := Wellformed (written v).

(** ** Dates (ECMAScript, "Date Objects")

    A time value is a number of milliseconds since the epoch, or NaN for an
    invalid Date; the latter is [None]. *)

Module JSDate.

Definition msPerDay : Z := 86400000.

Definition Day (t : Z) : Z := t / msPerDay.
Definition TimeWithinDay (t : Z) : Z := t mod msPerDay.

Definition DayFromYear (y : Z) : Z :=
  365 * (y - 1970) + (y - 1969) / 4 - (y - 1901) / 100 + (y - 1601) / 400.

Definition InLeapYear (y : Z) : bool :=
  (y mod 4 =? 0) && (negb (y mod 100 =? 0) || (y mod 400 =? 0)).

(** The largest [y] with [DayFromYear y <= d]: an estimate from the mean
    length of a year, corrected by at most one. *)
Definition YearFromDay (d : Z) : Z :=
  let y := 1970 + (400 * d) / 146097 in
  if DayFromYear (y + 1) <=? d then y + 1
  else if DayFromYear y <=? d then y
  else y - 1.

Definition YearFromTime (t : Z) : Z := YearFromDay (Day t).

Definition DayWithinYear (t : Z) : Z := Day t - DayFromYear (YearFromTime t).

(** Day of the year on which month [m] (0 = January) starts. *)
Definition MonthStart (leap : bool) (m : Z) : Z :=
  let l := if leap then 1 else 0 in
  match m with
  | 0 => 0
  | 1 => 31
  | 2 => 59 + l
  | 3 => 90 + l
  | 4 => 120 + l
  | 5 => 151 + l
  | 6 => 181 + l
  | 7 => 212 + l
  | 8 => 243 + l
  | 9 => 273 + l
  | 10 => 304 + l
  | _ => 334 + l
  end.

Definition MonthFromTime (t : Z) : Z :=
  let d := DayWithinYear t in
  let leap := InLeapYear (YearFromTime t) in
  if d <? MonthStart leap 1 then 0
  else if d <? MonthStart leap 2 then 1
  else if d <? MonthStart leap 3 then 2
  else if d <? MonthStart leap 4 then 3
  else if d <? MonthStart leap 5 then 4
  else if d <? MonthStart leap 6 then 5
  else if d <? MonthStart leap 7 then 6
  else if d <? MonthStart leap 8 then 7
  else if d <? MonthStart leap 9 then 8
  else if d <? MonthStart leap 10 then 9
  else if d <? MonthStart leap 11 then 10
  else 11.

Definition DateFromTime (t : Z) : Z :=
  DayWithinYear t
  - MonthStart (InLeapYear (YearFromTime t)) (MonthFromTime t) + 1.

Definition HourFromTime (t : Z) : Z := (t / 3600000) mod 24.
Definition MinFromTime (t : Z) : Z := (t / 60000) mod 60.
Definition SecFromTime (t : Z) : Z := (t / 1000) mod 60.
Definition msFromTime (t : Z) : Z := t mod 1000.

(** [MakeDay(year, month, date)]: the day number of the first of the
    month, plus [date - 1]. *)
Definition MakeDay (year month date : Z) : Z :=
  let ym := year + month / 12 in
  let mn := month mod 12 in
  DayFromYear ym + MonthStart (InLeapYear ym) mn + date - 1.

Definition MakeDate (day time : Z) : Z := day * msPerDay + time.

Definition TimeClip (t : Z) : option Z :=
  if Z.abs t <=? 8640000000000000 then Some t else None.

Definition LocalTime (tz : timezone) (t : Z) : Z := t + tz t true.
Definition UTC (tz : timezone) (t : Z) : Z := t - tz t false.

(** A Date object, by its time value. *)
Definition Date : Type := option Z.

(** [new Date()] *)
Definition now : M Date :=
  fun w =>
    (Ok (TimeClip (clock w (ticks w))),
     mkWorld (disk w) (writable w) (failure w) (clock w) (S (ticks w))
             (entropy w) (draws w) (zone w) (console w) (wire w)).

(** [d.getDate()]: the day of the month in local time, NaN ([None]) for an
    invalid Date. *)
Definition getDate (tz : timezone) (d : Date) : option Z :=
  match d with
  | Some t => Some (DateFromTime (LocalTime tz t))
  | None => None
  end.

(** [d.setDate(dt)]: the time value [d] holds afterwards. *)
Definition setDate (tz : timezone) (d : Date) (dt : option Z) : Date :=
  match d, dt with
  | Some t0, Some dt =>
      let t := LocalTime tz t0 in
      let newDate :=
        MakeDate (MakeDay (YearFromTime t) (MonthFromTime t) dt)
                 (TimeWithinDay t) in
      TimeClip (UTC tz newDate)
  | _, _ => None
  end.

Definition digit (n : Z) : ascii := ascii_of_nat (48 + Z.to_nat (n mod 10)).

(** The last [w] decimal digits of [n], zero padded. *)
Fixpoint digits (w : nat) (n : Z) : string :=
  match w with
  | O => EmptyString
  | S w' => digits w' (n / 10) ++ String (digit n) EmptyString
  end.

(** The year of the ISO format: four digits from 0 to 9999, a sign and six
    digits otherwise. *)
Definition isoYear (y : Z) : string :=
  if (0 <=? y) && (y <=? 9999) then digits 4 y
  else if y <? 0 then "-" ++ digits 6 (- y)
  else "+" ++ digits 6 y.

(** The date part [YYYY-MM-DD] of the UTC instant [t]. *)
Definition isoDate (t : Z) : string :=
  isoYear (YearFromTime t) ++ "-" ++ digits 2 (MonthFromTime t + 1)
  ++ "-" ++ digits 2 (DateFromTime t).

Definition isoTime (t : Z) : string :=
  digits 2 (HourFromTime t) ++ ":" ++ digits 2 (MinFromTime t) ++ ":"
  ++ digits 2 (SecFromTime t) ++ "." ++ digits 3 (msFromTime t) ++ "Z".

(** [d.toISOString()] *)
Definition toISOString (d : Date) : result string :=
  match d with
  | Some t => Ok (isoDate t ++ "T" ++ isoTime t)
  | None => Throw RangeError
  end.

End JSDate.

(** [s.split('T')[0]]: what precedes the first ['T'], all of [s] if there
    is none. *)
Fixpoint before_T (s : string) : string :=
  match s with
  | EmptyString => EmptyString
  | String c rest =>
      if Ascii.eqb c "T"%char then EmptyString else String c (before_T rest)
  end.

(** ** Property reads, [filter], [find], [parseInt] *)

(** [v.k] for one of the keys this program reads ([players], [sport],
    [id]): a TypeError on [null], the property of an object, [undefined]
    ([None]) on anything else, since no array, string, number or boolean
    has such a property. *)
Definition get_prop (v : json) (k : string) : result (option json) :=
  match v with
  | JNull => Throw TypeError
  | JObj props => Ok (lookup k props)
  | _ => Ok None
  end.

(** [v.k = x]: a TypeError on [null]; a write on a primitive is dropped,
    one on an array adds a property that is not serialised. *)
Definition set_prop (v : json) (k : string) (x : json) : result json :=
  match v with
  | JNull => Throw TypeError
  | JObj props => Ok (JObj (assign k x props))
  | _ => Ok v
  end.

(** The receiver of [.filter(...)] or [.find(...)]: only an array has the
    method; [undefined] and [null] have no properties, and on any other
    JSON value the property is absent or is not a function. *)
Definition as_array (v : option json) : result (list json) :=
  match v with
  | Some (JArr items) => Ok items
  | _ => Throw TypeError
  end.

(** [items.filter(f)], where the callback may throw. *)
Fixpoint array_filter (f : json -> result bool) (items : list json)
  : result (list json) :=
  match items with
  | [] => Ok []
  | p :: rest =>
      match f p with
      | Throw e => Throw e
      | Ok b =>
          match array_filter f rest with
          | Throw e => Throw e
          | Ok kept => Ok (if b then p :: kept else kept)
          end
      end
  end.

(** [items.find(f)]: the first element the callback accepts, [undefined]
    ([None]) if there is none. *)
Fixpoint array_find (f : json -> result bool) (items : list json)
  : result (option json) :=
  match items with
  | [] => Ok None
  | p :: rest =>
      match f p with
      | Throw e => Throw e
      | Ok true => Ok (Some p)
      | Ok false => array_find f rest
      end
  end.

(** [x === "s"] for a property value [x]. *)
Definition is_string (x : option json) (s : string) : bool :=
  match x with
  | Some (JStr s') => String.eqb s' s
  | _ => false
  end.

(** [x === n] for a property value [x] and a Number [n]. *)
Definition is_number (x : option json) (n : Num.number) : bool :=
  match x with
  | Some (JNum n') => Num.strict_eq n' n
  | _ => false
  end.

(** [!!v] *)
Definition truthy (v : json) : bool :=
  match v with
  | JNull => false
  | JBool b => b
  | JNum (S754_zero _) => false
  | JNum S754_nan => false
  | JNum _ => true
  | JStr s => negb (String.eqb s "")
  | JArr _ => true
  | JObj _ => true
  end.

(** White space that [parseInt] skips, among the code units below 256. *)
Definition is_space (c : ascii) : bool :=
  let n := nat_of_ascii c in
  ((9 <=? n) && (n <=? 13) || (n =? 32) || (n =? 160))%nat.

Fixpoint trim_start (s : string) : string :=
  match s with
  | String c rest => if is_space c then trim_start rest else s
  | EmptyString => s
  end.

Definition digit_value (radix : Z) (c : ascii) : option Z :=
  let n := Z.of_nat (nat_of_ascii c) in
  let v :=
    if (48 <=? n) && (n <=? 57) then n - 48
    else if (97 <=? n) && (n <=? 122) then n - 87
    else if (65 <=? n) && (n <=? 90) then n - 55
    else radix in
  if v <? radix then Some v else None.

(** The value of the longest prefix of digits, [None] if it is empty. *)
Fixpoint read_digits (radix : Z) (s : string) (acc : option Z) : option Z :=
  match s with
  | EmptyString => acc
  | String c rest =>
      match digit_value radix c with
      | Some v =>
          read_digits radix rest
            (Some (radix * match acc with Some a => a | None => 0 end + v))
      | None => acc
      end
  end.

(** [parseInt(s)] *)
Definition parseInt (s : string) : Num.number :=
  let s := trim_start s in
  let '(negative, s) :=
    match s with
    | String "-" rest => (true, rest)
    | String "+" rest => (false, rest)
    | _ => (false, s)
    end in
  let '(radix, s) :=
    match s with
    | String "0" (String "x" rest) => (16, rest)
    | String "0" (String "X" rest) => (16, rest)
    | _ => (10, s)
    end in
  match read_digits radix s None with
  | None => Num.NaN
  | Some 0 => S754_zero negative
  | Some n => Num.of_Z (if negative then - n else n)
  end.

(** ** server/controllers/nbaScraper.js *)

Definition point (date : string) (value : Num.number) : json :=
  JObj [("date", JStr date); ("value", JNum value)].

(** [today.getDate() - i] *)
Definition day_minus (d : option Z) (i : Z) : option Z :=
  match d with
  | Some n => Some (n - i)
  | None => None
  end.

(** The loop of [generateHistoricalData], entered with [S i] iterations to
    go: the runs for [i], [i - 1], ..., [0]. *)
Fixpoint past_days (k : nat) (today : JSDate.Date) (min max : Num.number)
  (data : list json) : M (list json) :=
  match k with
  | O => ret data
  | S i =>
      date <- JSDate.now ;;
      tz <- host_zone ;;
      let date :=
        JSDate.setDate tz date
          (day_minus (JSDate.getDate tz today) (Z.of_nat i)) in
      iso <- lift (JSDate.toISOString date) ;;
      r <- Math_random ;;
      past_days i today min max
        (data ++ [point (before_T iso)
                    (Num.toFixed1
                       (Num.add (Num.mul r (Num.sub max min)) min))])
  end.

Definition generateHistoricalData (min max : Num.number) : M (list json) :=
  today <- JSDate.now ;;
  past_days 31 today min max [].

Definition player (id : Z) (name team position : string)
  (points rebounds assists : list json) : json :=
  JObj [("id", JNum (Num.of_Z id));
        ("name", JStr name);
        ("team", JStr team);
        ("sport", JStr "NBA");
        ("position", JStr position);
        ("stats", JObj [("points", JArr points);
                        ("rebounds", JArr rebounds);
                        ("assists", JArr assists)])].

Definition dummyPlayers : M (list json) :=
  p1 <- generateHistoricalData (Num.of_Z 25) (Num.of_Z 35) ;;
  r1 <- generateHistoricalData (Num.of_Z 7) (Num.of_Z 10) ;;
  a1 <- generateHistoricalData (Num.of_Z 7) (Num.of_Z 11) ;;
  p2 <- generateHistoricalData (Num.of_Z 20) (Num.of_Z 33) ;;
  r2 <- generateHistoricalData (Num.of_Z 4) (Num.of_Z 7) ;;
  a2 <- generateHistoricalData (Num.of_Z 5) (Num.of_Z 8) ;;
  ret [player 1 "LeBron James" "Los Angeles Lakers" "Forward" p1 r1 a1;
       player 2 "Stephen Curry" "Golden State Warriors" "Guard" p2 r2 a2].

(** [p => p.sport !== "NBA"] *)
Definition not_NBA (p : json) : result bool :=
  match get_prop p "sport" with
  | Ok sport => Ok (negb (is_string sport "NBA"))
  | Throw e => Throw e
  end.

(** [data.players.filter(p => p.sport !== "NBA")] *)
Definition other_sports (data : json) : result (list json) :=
  match get_prop data "players" with
  | Throw e => Throw e
  | Ok players =>
      match as_array players with
      | Throw e => Throw e
      | Ok items => array_filter not_NBA items
      end
  end.

(** "Load existing data" *)
Definition load_data : M json :=
  present <- fs_existsSync ;;
  if present : bool
  then t <- fs_readFileSync ;; lift (JSON_parse t)
  else ret (JObj [("players", JArr [])]).

(** The [try] block of [scrapeNBAData]. *)
Definition scrape_steps : M (list json) :=
  data <- load_data ;;
  dummy <- dummyPlayers ;;
  kept <- lift (other_sports data) ;;
  data' <- lift (set_prop data "players" (JArr (dummy ++ kept))) ;;
  fs_writeFileSync (JSON_stringify data') ;;;
  ret dummy.

Definition scrapeNBAData : M (list json) :=
  try_catch scrape_steps (fun error => console_error error ;;; throw error).

(** ** HTTP responses *)

Inductive body : Type :=
| Value (v : json)                              (* res.json(v) *)
| Nothing                                       (* res.json(undefined) *)
| Failure (message : string) (error : js_error).
                            (* res.json({ message, error: error.message }) *)

Record response : Type := respond { status : Z; payload : body }.

Definition handler : Type := world -> response * world.

(** [try { c } catch (error) { res.status(500).json({ message, error }) }] *)
Definition guarded (message : string) (c : M response) : handler :=
  fun w =>
    match c w with
    | (Ok r, w') => (r, w')
    | (Throw e, w') => (respond 500 (Failure message e), w')
    end.

(** ** server/routes/players.js *)

(** Module initialisation: create the file if it does not exist. *)
Definition players_init : M unit :=
  present <- fs_existsSync ;;
  if present : bool then ret tt
  else fs_writeFileSync (JSON_stringify (JObj [("players", JArr [])])).

(** [GET /] *)
Definition get_players : handler :=
  guarded "Error reading player data"
    (t <- fs_readFileSync ;;
     data <- lift (JSON_parse t) ;;
     players <- lift (get_prop data "players") ;;
     ret (respond 200 (match players with
                       | Some v => Value v
                       | None => Nothing
                       end))).

(** [p => p.id === parseInt(req.params.id)] *)
Definition id_matches (id : string) (p : json) : result bool :=
  match get_prop p "id" with
  | Ok x => Ok (is_number x (parseInt id))
  | Throw e => Throw e
  end.

Definition not_found : response :=
  respond 404 (Value (JObj [("message", JStr "Player not found")])).

(** [GET /:id] *)
Definition get_player (id : string) : handler :=
  guarded "Error reading player data"
    (t <- fs_readFileSync ;;
     data <- lift (JSON_parse t) ;;
     players <- lift (get_prop data "players") ;;
     items <- lift (as_array players) ;;
     player <- lift (array_find (id_matches id) items) ;;
     ret (match player with
          | Some p => if truthy p then respond 200 (Value p) else not_found
          | None => not_found
          end)).

(** ** server/routes/scrapers.js *)

Definition completed : response :=
  respond 200 (Value (JObj [("message", JStr "NBA data scraping completed")])).

(** [POST /nba] *)
Definition post_nba : handler :=
  guarded "Error running scraper" (scrapeNBAData ;;; ret completed).

Definition idle : response :=
  respond 200
    (Value (JObj [("nba", JObj [("status", JStr "idle");
                                ("lastRun", JNull)])])).

(** [GET /status] *)
Definition get_status : handler := fun w => (idle, w).

(** ** The server process

    Node runs one handler at a time, to completion: none of the handlers
    above has a suspension point before its last effect ([scrapeNBAData]
    is [async] but contains no [await]).  Requests that arrive meanwhile
    wait.  [Begin] and [End] bracket one activation of a handler; its
    effects are those of the handler run as a whole. *)

Inductive request : Type :=
| PostNba
| GetStatus
| GetPlayers
| GetPlayer (id : string).

Definition handle (r : request) : handler :=
  match r with
  | PostNba => post_nba
  | GetStatus => get_status
  | GetPlayers => get_players
  | GetPlayer id => get_player id
  end.

Record server : Type := mkServer {
  host : world;
  inbox : list request;                 (* arrived, not yet dispatched *)
  active : option request;              (* the handler being run *)
  outbox : list (request * response)    (* answers sent, oldest first *)
}.

Inductive event : Type :=
| Arrive (r : request)
| Begin
| End.

(** A server that is up on host [w], with nothing pending. *)
Definition serving (w : world) : server := mkServer w [] None [].

(** Start-up: the route modules are loaded, then the server listens. *)
Definition boot (w : world) : result server :=
  match players_init w with
  | (Ok _, w') => Ok (serving w')
  | (Throw e, _) => Throw e
  end.

Definition step (s : server) (e : event) : server :=
  match e with
  | Arrive r => mkServer (host s) (inbox s ++ [r]) (active s) (outbox s)
  | Begin =>
      match active s, inbox s with
      | None, r :: rest => mkServer (host s) rest (Some r) (outbox s)
      | _, _ => s
      end
  | End =>
      match active s with
      | Some r =>
          let '(resp, w') := handle r (host s) in
          mkServer w' (inbox s) None (outbox s ++ [(r, resp)])
      | None => s
      end
  end.

Definition run (evs : list event) (s : server) : server :=
  fold_left step evs s.

(** A scrape run is in progress. *)
Definition running (s : server) : bool :=
  match active s with
  | Some PostNba => true
  | _ => false
  end.

(** ** The rate limiter of the documented scraper *)

Module RateLimiter.

Definition origin : Type := string.
Definition caller : Type := nat.

(** Modelled from the spec: the per-origin state of the RateLimiter
    (section 4.2).  The scraper that implements it is not among the
    sources; the usage notes only describe it.  The state holds the time of
    the last permitted request, the two delays whose maximum is the
    effective delay, the back-off multiplier applied after a rate-limit
    signal, and the queue of suspended callers.  [released] logs who was
    let through, when, and under which effective delay.  Times are in
    milliseconds. *)
Record limiter : Type := mkLimiter {
  crawl_delay : Z;
  floor : Z;
  cap : Z;
  backoff : Z;
  last : option Z;
  queue : list caller;
  released : list (caller * Z * Z)
}.

(** Modelled from the spec: "the effective delay (max of RobotsPolicy's
    crawl-delay and a global floor)", "multiplied by a backoff factor" while
    a back-off is in force. *)
Definition effective_delay (l : limiter) : Z :=
  Z.max (crawl_delay l) (floor l) * backoff l.

(** Modelled from the spec: "a caller is released only after the elapsed
    time since the last release meets the effective delay". *)
Definition permitted (now : Z) (l : limiter) : bool :=
  match last l with
  | None => true
  | Some t => effective_delay l <=? now - t
  end.

(** Modelled from the spec: "concurrent callers for the same origin are
    serialized (queue, FIFO)": at most the oldest waiting caller is let
    through. *)
Definition release (now : Z) (l : limiter) : limiter :=
  match queue l with
  | c :: rest =>
      if permitted now l
      then mkLimiter (crawl_delay l) (floor l) (cap l) (backoff l) (Some now)
                     rest (released l ++ [(c, now, effective_delay l)])
      else l
  | [] => l
  end.

Inductive action : Type :=
| Acquire (c : caller)   (* acquire(origin) is called *)
| Timer                  (* a waiting caller is woken to try again *)
| Backpressure           (* HTTP 429, or 503 with Retry-After *)
| Calm.                  (* sustained success: the back-off decays *)

(** Modelled from the spec: [acquire] joins the queue and proceeds at once
    if permitted; a rate-limit signal doubles the multiplier up to the cap;
    success halves it down to one. *)
Definition act (now : Z) (a : action) (l : limiter) : limiter :=
  match a with
  | Acquire c =>
      release now
        (mkLimiter (crawl_delay l) (floor l) (cap l) (backoff l) (last l)
                   (queue l ++ [c]) (released l))
  | Timer => release now l
  | Backpressure =>
      mkLimiter (crawl_delay l) (floor l) (cap l)
                (Z.min (cap l) (2 * backoff l))
                (last l) (queue l) (released l)
  | Calm =>
      mkLimiter (crawl_delay l) (floor l) (cap l)
                (Z.max 1 (backoff l / 2))
                (last l) (queue l) (released l)
  end.

(** One limiter per origin. *)
Definition limiters : Type := origin -> limiter.

Definition timed : Type := (Z * origin * action)%type.

Definition dispatch (ls : limiters) (e : timed) : limiters :=
  let '(now, o, a) := e in
  fun o' => if String.eqb o' o then act now a (ls o') else ls o'.

Definition play (es : list timed) (ls : limiters) : limiters :=
  fold_left dispatch es ls.

(** A limiter that has not been used. *)
Definition fresh (crawl floor cap : Z) : limiter :=
  mkLimiter crawl floor cap 1 None [] [].

(** The callers that asked for origin [o], in the order they asked. *)
Fixpoint arrivals (o : origin) (es : list timed) : list caller :=
  match es with
  | [] => []
  | (_, o', Acquire c) :: rest =>
      if String.eqb o o' then c :: arrivals o rest else arrivals o rest
  | _ :: rest => arrivals o rest
  end.

(** Every release but the first comes no sooner after the one before it
    than the delay it was made under. *)
Fixpoint spaced (log : list (caller * Z * Z)) : Prop :=
  match log with
  | (_, t1, _) :: (((_, t2, d2) :: _) as rest) => d2 <= t2 - t1 /\ spaced rest
  | _ => True
  end.

(** The limiter has let through exactly the callers that left its queue,
    and remembers the time of the last of them. *)
Definition consistent (l : limiter) : Prop :=
  match last l with
  | None => released l = []
  | Some t => exists log c d, released l = (log ++ [(c, t, d)])%list
  end.

(** What every limiter reached from a fresh one satisfies. *)
Record sound (crawl fl cp : Z) (l : limiter) : Prop := {
  sound_crawl : crawl_delay l = crawl;
  sound_floor : floor l = fl;
  sound_cap : cap l = cp;
  sound_backoff : 1 <= backoff l;
  sound_last : consistent l;
  sound_spaced : spaced (released l);
  sound_delay : Forall (fun e => Z.max crawl fl <= snd e) (released l)
}.

(** Everyone who asked: those let through, then those waiting. *)
Definition callers (l : limiter) : list caller :=
  (map (fun e => fst (fst e)) (released l) ++ queue l)%list.

(** One origin, [robots.txt] asking for 2 s, a floor of 1 s: two callers
    ask at 0 and 0.5 s, timers fire at 1 s and 2 s. *)
Definition polite : list timed :=
  [(0, "https://www.covers.com", Acquire 1%nat);
   (500, "https://www.covers.com", Acquire 2%nat);
   (1000, "https://www.covers.com", Timer);
   (2000, "https://www.covers.com", Timer)].

End RateLimiter.

(** ** Observations on stored data *)

(** The player list a data file holds: none for a missing file is the
    empty list the scraper starts from. *)
Definition stored_players (d : file_state) : option (list json) :=
  match d with
  | Missing => Some []
  | Stored (Wellformed (JObj props)) =>
      match lookup "players" props with
      | Some (JArr items) => Some items
      | _ => None
      end
  | _ => None
  end.

Definition field (k : string) (p : json) : option json :=
  match p with
  | JObj props => lookup k props
  | _ => None
  end.

(** A player of another sport: its [sport] is not the string ["NBA"]. *)
Definition other_sport (p : json) : bool :=
  negb (is_string (field "sport" p) "NBA").

Definition has_id (n : Num.number) (p : json) : bool :=
  is_number (field "id" p) n.

(** The series of metric [m] of a player. *)
Definition series (m : string) (p : json) : list json :=
  match field "stats" p with
  | Some stats =>
      match field m stats with
      | Some (JArr points) => points
      | _ => []
      end
  | None => []
  end.

Definition metrics (p : json) : list string :=
  match field "stats" p with
  | Some (JObj props) => map fst props
  | _ => []
  end.

Definition date_of (pt : json) : string :=
  match field "date" pt with
  | Some (JStr s) => s
  | _ => ""
  end.

Definition value_of (pt : json) : Num.number :=
  match field "value" pt with
  | Some (JNum n) => n
  | _ => Num.NaN
  end.

(** A player record without its generated points: the identity fields and,
    per metric, the number of points. *)
Definition outline (p : json)
  : option json * option json * option json * option json * option json
    * list (string * nat) :=
  (field "id" p, field "name" p, field "team" p, field "sport" p,
   field "position" p,
   map (fun m => (m, List.length (series m p))) (metrics p)).

(** Everything of the host but the file and the two cursors stays as it
    is. *)
Definition same_host (w w' : world) : Prop :=
  writable w' = writable w /\ clock w' = clock w /\ entropy w' = entropy w
  /\ zone w' = zone w /\ wire w' = wire w /\ failure w' = failure w.

(** A computation that touches neither the file nor the console. *)
Definition quiet {A} (c : M A) : Prop :=
  forall w r w',
    c w = (r, w') ->
    disk w' = disk w /\ console w' = console w /\ same_host w w'.

(** ** Numbers as scaled integers

    A finite Number [m * 2 ^ e] has [e >= -1074]; multiplied by [2 ^ 1200]
    it is an integer, and so is every exact product and sum the generator
    forms before it rounds. *)

Module Scaled.

(** [2 ^ e], scaled. *)
Definition B (e : Z) : Z := 2 ^ (e + 1200).

(** The exponent a binary64 value of order [2 ^ e] is rounded to. *)
Definition fx (e : Z) : Z := fexp 53 1024 e.

(** The value of a non-negative finite number, times [2 ^ 1200]. *)
Definition val (x : spec_float) : Z :=
  match x with
  | S754_finite false m e => Z.pos m * B e
  | _ => 0
  end.

Definition nonneg (x : spec_float) : Prop :=
  match x with
  | S754_zero false => True
  | S754_finite false m e => -1200 <= e
  | _ => False
  end.

End Scaled.

(** [lo], [lo + 1], ..., [hi] *)
Definition between (lo hi : Z) : list Z :=
  map (fun k => lo + Z.of_nat k) (seq 0 (Z.to_nat (hi - lo + 1))).

(** [min <= v <= max] *)
Definition within (mn mx : Z) (v : Num.number) : bool :=
  Num.leb (Num.of_Z mn) v && Num.leb v (Num.of_Z mx).

(** What the proof of the bounds needs of a pair [(min, max)], checked by
    evaluation: the two are small positive integers, [max - min] and [min]
    are the Numbers one expects, and every decimal [n / 10] from [min] to
    [max] reads back as a Number within the bounds. *)
Definition bounds_checked (mn mx : Z) : bool :=
  match Num.sub (Num.of_Z mx) (Num.of_Z mn), Num.of_Z mn with
  | S754_finite false md ed, S754_finite false mmn en =>
      (1 <=? mn) && (mn <? mx) && (mx - mn <? 16) && (mx <? 64)
      && (-100 <=? ed) && (ed <=? 0) && (-100 <=? en) && (en <=? 0)
      && (Z.pos md =? (mx - mn) * 2 ^ (- ed))
      && (Z.pos mmn =? mn * 2 ^ (- en))
      && forallb (fun n => within mn mx (Num.div (Num.of_Z n) (Num.of_Z 10)))
           (between (10 * mn) (10 * mx))
  | _, _ => false
  end.

(** [k - 1], ..., [1], [0]: the values the loop variable takes. *)
Definition count_down (k : nat) : list nat := rev (seq 0 k).

(** The ISO date of day number [d]. *)
Definition isoDay (d : Z) : string := JSDate.isoDate (d * JSDate.msPerDay).

(** On host [w] the zone keeps offset [o] from UTC all year, and the next
    [n] readings of the clock fall on UTC day [D] and local day [L]. *)
Definition steady_days (w : world) (o D L : Z) (n : nat) : Prop :=
  (forall u b, zone w u b = o)
  /\ forall j, (j < n)%nat ->
       JSDate.Day (clock w (ticks w + j)) = D
       /\ JSDate.Day (clock w (ticks w + j) + o) = L.

(** Strings in strictly increasing order. *)
Fixpoint ascending (l : list string) : Prop :=
  match l with
  | a :: ((b :: _) as rest) => String.compare a b = Lt /\ ascending rest
  | _ => True
  end.

(** The data file can be read as a list of players: it parses to an object
    whose [players] is an array [items], none of which is [null]. *)
Definition readable (d : file_state) (items : list json) : Prop :=
  (exists props,
      d = Stored (Wellformed (JObj props))
      /\ lookup "players" props = Some (JArr items))
  /\ Forall (fun p => p <> JNull) items.

(** Idempotence as the specification words it: two successful scrapes in
    a row, the second starting where the first ended, return the same
    players and leave the same data file. *)
Definition idempotent_from (w : world) : Prop :=
  forall ps1 w1 ps2 w2,
    scrapeNBAData w = (Ok ps1, w1) ->
    scrapeNBAData w1 = (Ok ps2, w2) ->
    ps2 = ps1 /\ disk w2 = disk w1.

(** Host [v] will see the clock readings and random draws, in the time
    zone, that host [w] will see. *)
Definition replays (w v : world) : Prop :=
  zone v = zone w
  /\ (forall k, clock v (ticks v + k) = clock w (ticks w + k))
  /\ (forall k, entropy v (draws v + k) = entropy w (draws w + k)).

(** A computation whose result is determined by the time zone, the clock
    readings and the random draws it consumes. *)
Definition replayable {A} (c : M A) : Prop :=
  forall w v,
    replays w v ->
    fst (c v) = fst (c w) /\ replays (snd (c w)) (snd (c v)).

(** The status query tells how the last run ended: some reading of its
    answer gives, after every run, whether that run succeeded. *)
Definition status_reflects_outcome : Prop :=
  exists decode : response -> bool,
    forall w,
      decode (fst (get_status (snd (post_nba w))))
      = succeeded (fst (scrapeNBAData w)).

(** The requests a trace brings in, in order of arrival. *)
Fixpoint arrived (evs : list event) : list request :=
  match evs with
  | [] => []
  | Arrive r :: rest => r :: arrived rest
  | _ :: rest => arrived rest
  end.

(** The requests a server still owes an answer, oldest first. *)
Definition pending (s : server) : list request :=
  match active s with
  | Some r => r :: inbox s
  | None => inbox s
  end.

(** An answer of [POST /nba]: each of them is sent after the scraper has
    run, to report how it ended. *)
Definition run_report (resp : response) : Prop :=
  resp = completed
  \/ exists e, resp = respond 500 (Failure "Error running scraper" e).

(** The players a run returned, none if it threw. *)
Definition returned (run : result (list json) * world) : list json :=
  match fst run with
  | Ok ps => ps
  | Throw _ => []
  end.

(** ** Scenarios *)

Module Scenario.

(** The time value of a UTC date and time of day. *)
Definition at_utc (y mo d h mi : Z) : Z :=
  JSDate.MakeDate (JSDate.MakeDay y (mo - 1) d) (h * 3600000 + mi * 60000).

(** UTC all year. *)
Definition Greenwich : timezone := fun _ _ => 0.

(** US Eastern time in 2024: UTC-5, and UTC-4 from 10 March, 2 a.m.
    (07:00 UTC), to 3 November, 2 a.m. (06:00 UTC).  A local time the
    change skips or repeats takes the offset in force before it. *)
Definition New_York : timezone :=
  fun t isUTC =>
    let start := at_utc 2024 3 10 (if isUTC then 7 else 3) 0 in
    let stop := at_utc 2024 11 3 (if isUTC then 6 else 2) 0 in
    if (start <=? t) && (t <? stop) then -4 * 3600000 else -5 * 3600000.

(** 15 March 2024, 7:30 p.m. in New York. *)
Definition evening : Z := at_utc 2024 3 15 23 30.

(** 0.5 *)
Definition half : Num.number := S754_finite false 4503599627370496 (-53).

(** A host whose clock stands at [t], with file [d]. *)
Definition host_at (tz : timezone) (t : Z) (rnd : nat -> Num.number)
  (d : file_state) : world :=
  mkWorld d true Refused (fun _ => t) 0 rnd 0 tz [] [].

(** A source that yields [+0] for one run of the scraper (6 series of 31
    draws) and 0.5 from then on. *)
Definition two_phases : nat -> Num.number :=
  fun k => if (k <? 186)%nat then S754_zero false else half.

Definition steady : nat -> Num.number := fun _ => half.

Definition quarterback : json :=
  JObj [("id", JNum (Num.of_Z 7));
        ("name", JStr "Patrick Mahomes");
        ("team", JStr "Kansas City Chiefs");
        ("sport", JStr "NFL");
        ("position", JStr "Quarterback");
        ("stats", JObj [])].

Definition stale_center : json :=
  JObj [("id", JNum (Num.of_Z 3));
        ("name", JStr "Nikola Jokic");
        ("team", JStr "Denver Nuggets");
        ("sport", JStr "NBA");
        ("position", JStr "Center");
        ("stats", JObj [])].

Definition mixed_file : file_state :=
  Stored (Wellformed (JObj [("players", JArr [stale_center; quarterback])])).

Definition broken_file : file_state := Stored (Malformed "{ players: ").

(** A host in UTC with [mixed_file] on disk. *)
Definition office : world := host_at Greenwich evening steady mixed_file.

(** What a scrape on [office] returns. *)
Definition office_players : list json := returned (scrapeNBAData office).

(** A host whose data file is not JSON. *)
Definition broken : world := host_at Greenwich evening steady broken_file.

(** A host with no data file yet, whose random source changes after one
    run. *)
Definition redraw : world := host_at Greenwich evening two_phases Missing.

Definition first_run : result (list json) * world := scrapeNBAData redraw.

Definition second_run : result (list json) * world :=
  scrapeNBAData (snd first_run).

(** The same two runs on a host whose clock and random source stand
    still. *)
Definition first_steady : result (list json) * world := scrapeNBAData office.

Definition second_steady : result (list json) * world :=
  scrapeNBAData (snd first_steady).

(** New York, 7:30 p.m. on 15 March 2024, five days after the clocks went
    forward. *)
Definition spring : world := host_at New_York evening steady Missing.

(** New York, 7:30 p.m. on 15 November 2024, twelve days after the clocks
    went back. *)
Definition autumn : world :=
  host_at New_York (at_utc 2024 11 16 0 30) steady Missing.

(** The dates of the first player's [points] series, as a run wrote them
    to the file. *)
Definition written_dates (run : result (list json) * world) : list string :=
  match stored_players (disk (snd run)) with
  | Some (p :: _) => map date_of (series "points" p)
  | _ => []
  end.

(** One trigger is being served when a second one arrives. *)
Definition overlapped : server :=
  run [Arrive PostNba; Begin; Arrive PostNba] (serving office).

(** A failed run, then a status query. *)
Definition asked_after_failure : list event :=
  [Arrive PostNba; Begin; End; Arrive GetStatus; Begin; End].

End Scenario.

(** ** Further observations and scenarios *)

(** The file cannot be loaded: reading it fails, or it is not JSON. *)
Definition unusable (d : file_state) : bool :=
  match d with
  | Unreadable => true
  | Stored (Malformed _) => true
  | _ => false
  end.

Definition decimal_digit (c : ascii) : bool :=
  match digit_value 10 c with Some _ => true | None => false end.

(** A non-empty string of decimal digits. *)
Fixpoint numeral (s : string) : bool :=
  match s with
  | EmptyString => false
  | String c EmptyString => decimal_digit c
  | String c rest => decimal_digit c && numeral rest
  end.

(** The properties of an object as [JSON.stringify] writes them. *)
Definition written_props (props : list (string * json))
  : list (string * json) :=
  map (fun kv => (fst kv, written (snd kv))) props.

(** A value that [JSON.stringify] writes and [JSON.parse] reads back as it
    is: it holds no [-0], no NaN and no infinity. *)
Definition plain_number (n : Num.number) : bool :=
  match n with
  | S754_zero false => true
  | S754_finite _ _ _ => true
  | _ => false
  end.

Fixpoint plain (v : json) : bool :=
  match v with
  | JNum n => plain_number n
  | JArr items => forallb plain items
  | JObj props => forallb (fun kv => plain (snd kv)) props
  | _ => true
  end.

(** The file holds a player list: it parses to an object whose [players]
    is an array. *)
Definition listed (d : file_state) (items : list json) : Prop :=
  exists props,
    d = Stored (Wellformed (JObj props))
    /\ lookup "players" props = Some (JArr items).

(** What to serve request [r] on host [w] is: a trigger runs the scraper
    on [w] and reports how the run ended; any other request is answered by
    its handler. *)
Definition served (r : request) (w : world) : response * world :=
  match r with
  | PostNba =>
      match scrapeNBAData w with
      | (Ok _, w') => (completed, w')
      | (Throw e, w') =>
          (respond 500 (Failure "Error running scraper" e), w')
      end
  | _ => handle r w
  end.

(** Serving requests one after the other, each on the host the one before
    it left: the answers, and the host at the end. *)
Fixpoint serve_all (rs : list request) (w : world)
  : list (request * response) * world :=
  match rs with
  | [] => ([], w)
  | r :: rest =>
      let '(resp, w1) := served r w in
      let '(out, w2) := serve_all rest w1 in
      ((r, resp) :: out, w2)
  end.

(** The frame of a scrape as the specification words it: after a
    successful run the stored list is the returned players followed by the
    prior players of other sports, each of them unmodified. *)
Definition retains_unmodified (w : world) : Prop :=
  forall ps w',
    scrapeNBAData w = (Ok ps, w') ->
    exists prior,
      stored_players (disk w) = Some prior
      /\ stored_players (disk w') = Some (ps ++ filter other_sport prior)%list.


(** The single-player lookup as the specification words it, on a file that
    holds a player list: the stored player with the id is returned, and the
    answer is 404 "Player not found" exactly when no stored player has the
    id. *)
Definition lookup_as_specified (w : world) : Prop :=
  forall items id,
    listed (disk w) items ->
    (forall p, find (has_id (parseInt id)) items = Some p ->
               fst (get_player id w) = respond 200 (Value p))
    /\ (fst (get_player id w) = not_found
        <-> forall p, In p items -> has_id (parseInt id) p = false).

Module Fixture.

(** A data file with properties besides [players]. *)
Definition annotated_file : file_state :=
  Stored (Wellformed
    (JObj [("source", JStr "entered by hand");
           ("players", JArr [Scenario.quarterback]);
           ("version", JNum (Num.of_Z 3))])).

Definition annotated : world :=
  Scenario.host_at Scenario.Greenwich Scenario.evening Scenario.steady
    annotated_file.

(** A data file whose list has a hole. *)
Definition holed_file : file_state :=
  Stored (Wellformed (JObj [("players", JArr [Scenario.quarterback; JNull])])).

Definition holed : world :=
  Scenario.host_at Scenario.Greenwich Scenario.evening Scenario.steady
    holed_file.

(** A record of another sport with a [-0] and a numeral beyond the range
    of a Number ([1e999], read as Infinity). *)
Definition goalkeeper : json :=
  JObj [("id", JNum (Num.of_Z 30));
        ("name", JStr "Gianluigi Buffon");
        ("sport", JStr "Soccer");
        ("goalDifference", JNum (S754_zero true));
        ("marketValue", JNum (S754_infinity false))].

Definition signed : world :=
  Scenario.host_at Scenario.Greenwich Scenario.evening Scenario.steady
    (Stored (Wellformed (JObj [("players", JArr [goalkeeper])]))).


(** A host with no data file, on which none can be created. *)
Definition locked : world :=
  mkWorld Missing false Refused (fun _ => Scenario.evening) 0
          Scenario.steady 0 Scenario.Greenwich [] [].

(** A host with no data file yet. *)
Definition blank : world :=
  Scenario.host_at Scenario.Greenwich Scenario.evening Scenario.steady Missing.

(** Reads only. *)
Definition browsing : list event :=
  [Arrive GetPlayers; Arrive (GetPlayer "7"); Begin; Arrive GetStatus; End;
   Begin; End; Begin; End].

(** A trigger between reads. *)
Definition session : list event :=
  [Arrive GetPlayers; Arrive PostNba; Begin; End; Begin; Arrive (GetPlayer "1");
   End; Begin; End].

End Fixture.

(** * Properties *)

(** ** Footprints of the effectful steps *)

Lemma same_host_refl (w : world) : same_host w w.
Proof. repeat split. Qed.

Lemma same_host_trans (w1 w2 w3 : world) :
  same_host w1 w2 -> same_host w2 w3 -> same_host w1 w3.
Proof.
  unfold same_host.
  intros (a1 & b1 & c1 & d1 & e1 & f1) (a2 & b2 & c2 & d2 & e2 & f2).
  repeat split; congruence.
Qed.

Lemma quiet_ret {A} (a : A) : quiet (ret a).
Proof.
  intros w r w' H. inversion H; subst. repeat split.
Qed.

Lemma quiet_lift {A} (r : result A) : quiet (lift r).
Proof.
  intros w r' w' H. inversion H; subst. auto using same_host_refl.
Qed.

Lemma quiet_bind {A B} (c : M A) (k : A -> M B) :
  quiet c -> (forall a, quiet (k a)) -> quiet (bind c k).
Proof.
  intros Hc Hk w r w' H. unfold bind in H.
  destruct (c w) as [[a | e] w1] eqn:E.
  - destruct (Hc _ _ _ E) as (d1 & c1 & h1).
    destruct (Hk a _ _ _ H) as (d2 & c2 & h2).
    split; [congruence | split; [congruence | eapply same_host_trans; eauto]].
  - inversion H; subst. eapply Hc; eauto.
Qed.

Lemma quiet_now : quiet JSDate.now.
Proof.
  intros w r w' H. inversion H; subst. repeat split.
Qed.

Lemma quiet_random : quiet Math_random.
Proof.
  intros w r w' H. inversion H; subst. repeat split.
Qed.

Lemma quiet_host_zone : quiet host_zone.
Proof.
  intros w r w' H. inversion H; subst. repeat split.
Qed.

Lemma quiet_existsSync : quiet fs_existsSync.
Proof.
  intros w r w' H. inversion H; subst. repeat split.
Qed.

Lemma quiet_readFileSync : quiet fs_readFileSync.
Proof.
  intros w r w' H. unfold fs_readFileSync in H.
  destruct (disk w) eqn:D; inversion H; subst; repeat split; assumption.
Qed.

Create HintDb quiet.

#[local] Hint Resolve quiet_ret quiet_lift quiet_now quiet_random
  quiet_host_zone quiet_existsSync quiet_readFileSync : quiet.

Lemma quiet_past_days (k : nat) :
  forall today mn mx data, quiet (past_days k today mn mx data).
Proof.
  induction k as [| i IH]; intros today mn mx data; cbn [past_days].
  - apply quiet_ret.
  - repeat (apply quiet_bind; [auto with quiet | intros ?]). apply IH.
Qed.

Lemma quiet_generateHistoricalData (mn mx : Num.number) :
  quiet (generateHistoricalData mn mx).
Proof.
  unfold generateHistoricalData.
  apply quiet_bind; [apply quiet_now | intros today; apply quiet_past_days].
Qed.

Lemma quiet_dummyPlayers : quiet dummyPlayers.
Proof.
  unfold dummyPlayers.
  repeat (apply quiet_bind; [apply quiet_generateHistoricalData | intros ?]).
  apply quiet_ret.
Qed.

Lemma quiet_load_data : quiet load_data.
Proof.
  unfold load_data. apply quiet_bind; [apply quiet_existsSync |].
  intros [|]; [| apply quiet_ret].
  apply quiet_bind; [apply quiet_readFileSync | intros t; apply quiet_lift].
Qed.

(** ** Shape of what the generator returns *)

Lemma past_days_length (k : nat) :
  forall today mn mx data w l w',
    past_days k today mn mx data w = (Ok l, w') ->
    List.length l = (List.length data + k)%nat.
Proof.
  induction k as [| i IH]; intros today mn mx data w l w' H;
    cbn [past_days] in H.
  - inversion H; subst. lia.
  - unfold bind at 1 in H. destruct (JSDate.now w) as [[date | e] w1]; [| discriminate].
    unfold bind at 1 in H. destruct (host_zone w1) as [[tz | e] w2]; [| discriminate].
    unfold bind at 1 in H.
    destruct (lift _ w2) as [[iso | e] w3]; [| discriminate].
    unfold bind at 1 in H.
    destruct (Math_random w3) as [[r | e] w4]; [| discriminate].
    apply IH in H. rewrite H, length_app. cbn. lia.
Qed.

Lemma generateHistoricalData_length (mn mx : Num.number) :
  forall w l w',
    generateHistoricalData mn mx w = (Ok l, w') -> List.length l = 31%nat.
Proof.
  intros w l w' H. unfold generateHistoricalData, bind in H.
  destruct (JSDate.now w) as [[today | e] w1]; [| discriminate].
  apply past_days_length in H. exact H.
Qed.

(** ** Objects *)

Lemma lookup_assign (k : string) (v : json) (props : list (string * json)) :
  lookup k (assign k v props) = Some v.
Proof.
  induction props as [| [k' v'] rest IH]; cbn.
  - rewrite String.eqb_refl. reflexivity.
  - destruct (String.eqb k k') eqn:E; cbn.
    + rewrite String.eqb_refl. reflexivity.
    + rewrite E. exact IH.
Qed.

Lemma assign_assign (k : string) (v v' : json) (props : list (string * json)) :
  assign k v' (assign k v props) = assign k v' props.
Proof.
  induction props as [| [k' x] rest IH]; cbn.
  - rewrite String.eqb_refl. reflexivity.
  - destruct (String.eqb k k') eqn:E; cbn.
    + rewrite String.eqb_refl. reflexivity.
    + rewrite E, IH. reflexivity.
Qed.

(** ** The two outcomes of [scrapeNBAData] *)

Lemma load_data_inv (w : world) (data : json) (w1 : world) :
  load_data w = (Ok data, w1) ->
  w1 = w /\
  (disk w = Missing /\ data = JObj [("players", JArr [])]
   \/ disk w = Stored (Wellformed data)).
Proof.
  unfold load_data, bind, fs_existsSync, fs_readFileSync, lift, ret.
  cbv beta. destruct (disk w) as [| | [raw | v]] eqn:D; cbn; rewrite ?D;
    cbn; intros H; inversion H; subst; auto.
Qed.

Lemma array_filter_not_NBA (items kept : list json) :
  array_filter not_NBA items = Ok kept -> kept = filter other_sport items.
Proof.
  revert kept. induction items as [| p rest IH]; intros kept H; cbn in H.
  - inversion H; reflexivity.
  - unfold not_NBA in H at 1.
    destruct (get_prop p "sport") as [sport | e] eqn:G; [| discriminate].
    destruct (array_filter not_NBA rest) as [kept' | e]; [| discriminate].
    inversion H; subst; clear H. cbn [filter].
    assert (S : other_sport p = negb (is_string sport "NBA")).
    { unfold other_sport, field. destruct p; cbn in G; inversion G; reflexivity. }
    rewrite S, (IH kept' eq_refl). reflexivity.
Qed.

Lemma other_sports_inv (data : json) (kept : list json) :
  other_sports data = Ok kept ->
  exists props items,
    data = JObj props /\ lookup "players" props = Some (JArr items)
    /\ kept = filter other_sport items.
Proof.
  unfold other_sports. intros H.
  destruct data as [| b | n | s | l | props]; cbn in H; try discriminate.
  destruct (lookup "players" props) as [[| b | n | s | items | o] |] eqn:L;
    cbn in H; try discriminate.
  exists props, items. auto using array_filter_not_NBA.
Qed.

Lemma scrape_steps_ok (w : world) (ps : list json) (w' : world) :
  scrape_steps w = (Ok ps, w') ->
  exists data w2 kept data',
    load_data w = (Ok data, w)
    /\ dummyPlayers w = (Ok ps, w2)
    /\ other_sports data = Ok kept
    /\ set_prop data "players" (JArr (ps ++ kept)) = Ok data'
    /\ writable w2 = true
    /\ w' = with_disk (Stored (Wellformed (written data'))) w2.
Proof.
  unfold scrape_steps. intros H.
  unfold bind at 1 in H.
  destruct (load_data w) as [[data | e] w1] eqn:L; [| discriminate].
  destruct (load_data_inv _ _ _ L) as [-> _].
  unfold bind at 1 in H.
  destruct (dummyPlayers w) as [[dummy | e] w2] eqn:D; [| discriminate].
  unfold bind at 1 in H. unfold lift at 1 in H.
  destruct (other_sports data) as [kept | e] eqn:O; [| discriminate].
  unfold bind at 1 in H. unfold lift at 1 in H.
  destruct (set_prop data "players" (JArr (dummy ++ kept)))
    as [data' | e] eqn:S; [| discriminate].
  unfold bind at 1 in H. unfold fs_writeFileSync, JSON_stringify in H.
  destruct (writable w2) eqn:Wr; [| discriminate].
  cbn in H. inversion H; subst.
  exists data, w2, kept, data'. repeat split; auto.
Qed.

Lemma array_filter_defined (items kept : list json) :
  array_filter not_NBA items = Ok kept -> Forall (fun p => p <> JNull) items.
Proof.
  revert kept. induction items as [| p rest IH]; cbn; intros kept H;
    [constructor |].
  destruct (not_NBA p) as [b | e] eqn:N; [| discriminate].
  destruct (array_filter not_NBA rest) as [kept' | e]; [| discriminate].
  constructor; [| eapply IH; reflexivity].
  intros ->. discriminate.
Qed.

(** The file after a run that threw: as it was, unless the write itself
    failed after its open; up to the write nothing touches the file. *)
Lemma scrape_steps_fail (w : world) (e : js_error) (w' : world) :
  scrape_steps w = (Throw e, w') ->
  console w' = console w /\ same_host w w'
  /\ (disk w' = disk w
      \/ e = SystemError /\ writable w = false
         /\ (exists prior,
               stored_players (disk w) = Some prior
               /\ Forall (fun p => p <> JNull) prior)
         /\ ((exists raw,
                failure w = Torn raw /\ disk w' = Stored (Malformed raw))
             \/ (failure w = Unclosed
                 /\ exists data ps w2 kept data',
                      load_data w = (Ok data, w)
                      /\ dummyPlayers w = (Ok ps, w2)
                      /\ other_sports data = Ok kept
                      /\ set_prop data "players" (JArr (ps ++ kept)) = Ok data'
                      /\ disk w' = Stored (Wellformed (written data'))))).
Proof.
  unfold scrape_steps. intros H.
  unfold bind at 1 in H.
  destruct (load_data w) as [[data | e0] w1] eqn:L.
  2:{ inversion H; subst. destruct (quiet_load_data _ _ _ L) as (d & c & h).
      auto. }
  destruct (load_data_inv _ _ _ L) as [-> Ld].
  unfold bind at 1 in H.
  destruct (dummyPlayers w) as [[dummy | e0] w2] eqn:D;
    destruct (quiet_dummyPlayers _ _ _ D) as (d & c & h).
  2:{ inversion H; subst. auto. }
  unfold bind at 1 in H. unfold lift at 1 in H.
  destruct (other_sports data) as [kept | e0] eqn:O.
  2:{ inversion H; subst. auto. }
  unfold bind at 1 in H. unfold lift at 1 in H.
  destruct (set_prop data "players" (JArr (dummy ++ kept)))
    as [data' | e0] eqn:Sp.
  2:{ inversion H; subst. auto. }
  unfold bind at 1 in H. unfold fs_writeFileSync in H.
  destruct (writable w2) eqn:Wr; [discriminate |].
  assert (P : exists prior,
             stored_players (disk w) = Some prior
             /\ Forall (fun p => p <> JNull) prior).
  { unfold other_sports in O.
    destruct data as [| b | n | s | l | props]; cbn in O; try discriminate.
    destruct (lookup "players" props) as [[| b | n | s | items | o] |] eqn:Lk;
      cbn in O; try discriminate.
    exists items. split; [| eapply array_filter_defined; exact O].
    destruct Ld as [[Dk E] | Dk]; rewrite Dk; cbn.
    - inversion E; subst. cbn in Lk. inversion Lk. reflexivity.
    - rewrite Lk. reflexivity. }
  assert (Wr0 : writable w = false) by (rewrite <- (proj1 h); exact Wr).
  assert (T0 : failure w2 = failure w) by apply h.
  destruct (failure w2) as [| raw |] eqn:T; inversion H; subst w' e; clear H.
  - split; [exact c |]. split; [exact h |]. left. exact d.
  - split; [exact c |]. split; [exact h |].
    right. split; [reflexivity |]. split; [exact Wr0 |]. split; [exact P |].
    left. exists raw. split; [symmetry; exact T0 | reflexivity].
  - split; [exact c |]. split; [exact h |].
    right. split; [reflexivity |]. split; [exact Wr0 |]. split; [exact P |].
    right. split; [symmetry; exact T0 |].
    exists data, dummy, w2, kept, data'. repeat split; assumption.
Qed.

Lemma scrape_ok (w : world) (ps : list json) (w' : world) :
  scrapeNBAData w = (Ok ps, w') -> scrape_steps w = (Ok ps, w').
Proof.
  unfold scrapeNBAData, try_catch.
  destruct (scrape_steps w) as [[a | e] w1]; [auto | discriminate].
Qed.

Lemma scrape_fail (w : world) (e : js_error) (w' : world) :
  scrapeNBAData w = (Throw e, w') ->
  console w' = (console w ++ [e])%list /\ same_host w w'
  /\ (disk w' = disk w
      \/ e = SystemError /\ writable w = false
         /\ (exists prior,
               stored_players (disk w) = Some prior
               /\ Forall (fun p => p <> JNull) prior)
         /\ ((exists raw,
                failure w = Torn raw /\ disk w' = Stored (Malformed raw))
             \/ (failure w = Unclosed
                 /\ exists data ps w2 kept data',
                      load_data w = (Ok data, w)
                      /\ dummyPlayers w = (Ok ps, w2)
                      /\ other_sports data = Ok kept
                      /\ set_prop data "players" (JArr (ps ++ kept)) = Ok data'
                      /\ disk w' = Stored (Wellformed (written data'))))).
Proof.
  unfold scrapeNBAData, try_catch.
  destruct (scrape_steps w) as [[a | e0] w1] eqn:S; [discriminate |].
  apply scrape_steps_fail in S. destruct S as (c & h & d).
  cbn. intros H. inversion H; subst. cbn. rewrite c.
  split; [reflexivity |]. split; [exact h | exact d].
Qed.

(** A run that fails on a file it cannot load, or whose list has a
    [null], leaves the file as it was. *)
Lemma scrape_fail_early (w : world) (e : js_error) (w' : world) :
  scrapeNBAData w = (Throw e, w') ->
  (forall prior, stored_players (disk w) = Some prior ->
                 ~ Forall (fun p => p <> JNull) prior) ->
  disk w' = disk w.
Proof.
  intros H N. destruct (scrape_fail _ _ _ H) as (_ & _ & [D | D]); [exact D |].
  destruct D as (_ & _ & (prior & P & F) & _). destruct (N prior P F).
Qed.

Lemma dummyPlayers_inv (w : world) (ps : list json) (w' : world) :
  dummyPlayers w = (Ok ps, w') ->
  exists p1 r1 a1 p2 r2 a2,
    ps = [player 1 "LeBron James" "Los Angeles Lakers" "Forward" p1 r1 a1;
          player 2 "Stephen Curry" "Golden State Warriors" "Guard" p2 r2 a2]
    /\ Forall (fun l => List.length l = 31%nat) [p1; r1; a1; p2; r2; a2].
Proof.
  unfold dummyPlayers. intros H.
  repeat
    (unfold bind at 1 in H;
     match type of H with
     | context [generateHistoricalData ?mn ?mx ?v] =>
         let G := fresh "G" in
         destruct (generateHistoricalData mn mx v) as [[? | ?] ?] eqn:G;
         [apply generateHistoricalData_length in G | discriminate]
     end).
  inversion H; subst. do 6 eexists. split; [reflexivity |].
  repeat constructor; assumption.
Qed.

(** ** Claims about the scraper *)

(** C8.  On every successful run, whatever the data file held, the scraper
    sends no HTTP request and returns exactly two NBA players, id 1 named
    "LeBron James" and id 2 named "Stephen Curry", each with exactly the
    three metrics points, rebounds and assists. *)
Theorem scrape_returns_fixed_players (w : world) (ps : list json) (w' : world) :
  scrapeNBAData w = (Ok ps, w') ->
  wire w' = wire w
  /\ map (fun p => (field "id" p, field "name" p, field "sport" p, metrics p))
         ps
     = [(Some (JNum (Num.of_Z 1)), Some (JStr "LeBron James"),
         Some (JStr "NBA"), ["points"; "rebounds"; "assists"]);
        (Some (JNum (Num.of_Z 2)), Some (JStr "Stephen Curry"),
         Some (JStr "NBA"), ["points"; "rebounds"; "assists"])].
Proof.
  intros H. apply scrape_ok in H.
  destruct (scrape_steps_ok _ _ _ H)
    as (data & w2 & kept & data' & _ & D & _ & _ & _ & ->).
  split.
  - destruct (quiet_dummyPlayers _ _ _ D) as (_ & _ & _ & _ & _ & _ & Wi & _).
    exact Wi.
  - destruct (dummyPlayers_inv _ _ _ D)
      as (p1 & r1 & a1 & p2 & r2 & a2 & -> & _).
    reflexivity.
Qed.

Lemma scrape_returns_fixed_players_witness :
  wire (snd (scrapeNBAData Scenario.office)) = []
  /\ map (fun p => (field "id" p, field "name" p, field "sport" p, metrics p))
         Scenario.office_players
     = [(Some (JNum (Num.of_Z 1)), Some (JStr "LeBron James"),
         Some (JStr "NBA"), ["points"; "rebounds"; "assists"]);
        (Some (JNum (Num.of_Z 2)), Some (JStr "Stephen Curry"),
         Some (JStr "NBA"), ["points"; "rebounds"; "assists"])].
Proof.
  apply (scrape_returns_fixed_players Scenario.office Scenario.office_players
           (snd (scrapeNBAData Scenario.office))).
  vm_compute. reflexivity.
Defined.

(** ** The players route *)

Lemma array_find_id (id : string) (items : list json) :
  Forall (fun p => p <> JNull) items ->
  array_find (id_matches id) items = Ok (find (has_id (parseInt id)) items).
Proof.
  induction 1 as [| p rest Hp _ IH]; cbn; [reflexivity |].
  assert (E : id_matches id p = Ok (has_id (parseInt id) p)).
  { unfold id_matches, has_id, field. destruct p; cbn; congruence. }
  rewrite E. destruct (has_id (parseInt id) p); [reflexivity | exact IH].
Qed.

Lemma has_id_truthy (n : Num.number) (p : json) :
  has_id n p = true -> truthy p = true.
Proof.
  unfold has_id, field. destruct p; cbn; congruence.
Qed.

(** ** Running the scraper twice *)

Lemma replayable_ret {A} (a : A) : replayable (ret a).
Proof. intros w v R. auto. Qed.

Lemma replayable_lift {A} (r : result A) : replayable (lift r).
Proof. intros w v R. auto. Qed.

Lemma replayable_bind {A B} (c : M A) (k : A -> M B) :
  replayable c -> (forall a, replayable (k a)) -> replayable (bind c k).
Proof.
  intros Hc Hk w v R. unfold bind.
  destruct (Hc w v R) as [E R1].
  destruct (c w) as [[a | e] w1], (c v) as [[a' | e'] v1];
    cbn in E, R1; inversion E; subst; auto.
  apply Hk; assumption.
Qed.

Lemma replayable_now : replayable JSDate.now.
Proof.
  intros w v (Z & C & E). cbn. split.
  - f_equal. f_equal. specialize (C 0%nat). rewrite !Nat.add_0_r in C. exact C.
  - repeat split; cbn; [exact Z | | exact E].
    intros k. specialize (C (S k)). rewrite !Nat.add_succ_r in C. exact C.
Qed.

Lemma replayable_random : replayable Math_random.
Proof.
  intros w v (Z & C & E). cbn. split.
  - do 2 f_equal. specialize (E 0%nat). rewrite !Nat.add_0_r in E. exact E.
  - repeat split; cbn; [exact Z | exact C |].
    intros k. specialize (E (S k)). rewrite !Nat.add_succ_r in E. exact E.
Qed.

Lemma replayable_host_zone : replayable host_zone.
Proof.
  intros w v R. cbn. split; [| exact R]. f_equal. apply R.
Qed.

Lemma replayable_past_days (k : nat) :
  forall today mn mx data, replayable (past_days k today mn mx data).
Proof.
  induction k as [| i IH]; intros today mn mx data; cbn [past_days].
  - apply replayable_ret.
  - apply replayable_bind; [apply replayable_now | intros date].
    apply replayable_bind; [apply replayable_host_zone | intros tz].
    apply replayable_bind; [apply replayable_lift | intros iso].
    apply replayable_bind; [apply replayable_random | intros r].
    apply IH.
Qed.

Lemma replayable_generateHistoricalData (mn mx : Num.number) :
  replayable (generateHistoricalData mn mx).
Proof.
  unfold generateHistoricalData.
  apply replayable_bind;
    [apply replayable_now | intros today; apply replayable_past_days].
Qed.

Lemma replayable_dummyPlayers : replayable dummyPlayers.
Proof.
  unfold dummyPlayers.
  repeat (apply replayable_bind;
          [apply replayable_generateHistoricalData | intros ?]).
  apply replayable_ret.
Qed.

Lemma filter_other_sport_idem (items : list json) :
  filter other_sport (filter other_sport items) = filter other_sport items.
Proof.
  induction items as [| p rest IH]; cbn; [reflexivity |].
  destruct (other_sport p) eqn:E; cbn; rewrite ?E, IH; reflexivity.
Qed.

Lemma outline_player (id : Z) (name team position : string)
  (p r a : list json) :
  outline (player id name team position p r a)
  = (Some (JNum (Num.of_Z id)), Some (JStr name), Some (JStr team),
     Some (JStr "NBA"), Some (JStr position),
     [("points", List.length p); ("rebounds", List.length r);
      ("assists", List.length a)]).
Proof. reflexivity. Qed.

Lemma dummyPlayers_outline (w : world) (ps : list json) (w' : world) :
  dummyPlayers w = (Ok ps, w') ->
  filter other_sport ps = []
  /\ map outline ps
     = [(Some (JNum (Num.of_Z 1)), Some (JStr "LeBron James"),
         Some (JStr "Los Angeles Lakers"), Some (JStr "NBA"),
         Some (JStr "Forward"),
         [("points", 31%nat); ("rebounds", 31%nat); ("assists", 31%nat)]);
        (Some (JNum (Num.of_Z 2)), Some (JStr "Stephen Curry"),
         Some (JStr "Golden State Warriors"), Some (JStr "NBA"),
         Some (JStr "Guard"),
         [("points", 31%nat); ("rebounds", 31%nat); ("assists", 31%nat)])].
Proof.
  intros H.
  destruct (dummyPlayers_inv _ _ _ H)
    as (p1 & r1 & a1 & p2 & r2 & a2 & -> & F).
  split; [reflexivity |].
  cbn [map]. rewrite !outline_player.
  repeat match goal with
         | F : Forall _ (_ :: _) |- _ => inversion F; subst; clear F
         end.
  congruence.
Qed.


(** C1, as stated, fails: on a host whose random source moves on, the
    second of two scrapes in a row returns other values than the first. *)
Lemma rerun_is_not_idempotent : ~ idempotent_from Scenario.redraw.
Proof.
  intros H.
  assert (E1 : scrapeNBAData Scenario.redraw
               = (Ok (returned Scenario.first_run), snd Scenario.first_run))
    by (vm_compute; reflexivity).
  assert (E2 : scrapeNBAData (snd Scenario.first_run)
               = (Ok (returned Scenario.second_run), snd Scenario.second_run))
    by (vm_compute; reflexivity).
  destruct (H _ _ _ _ E1 E2) as [P _].
  apply (f_equal (fun ps => map value_of (series "points" (hd JNull ps)))) in P.
  vm_compute in P. discriminate P.
Qed.

(** ** The scraper routes and the server *)

Lemma post_nba_runs (w : world) :
  post_nba w
  = match scrapeNBAData w with
    | (Ok _, w') => (completed, w')
    | (Throw e, w') => (respond 500 (Failure "Error running scraper" e), w')
    end.
Proof.
  unfold post_nba, guarded, bind, ret.
  destruct (scrapeNBAData w) as [[ps | e] w']; reflexivity.
Qed.

Lemma post_nba_report (w : world) : run_report (fst (post_nba w)).
Proof.
  rewrite post_nba_runs.
  destruct (scrapeNBAData w) as [[ps | e] w']; cbn; [left | right; exists e];
    reflexivity.
Qed.

(** C3, as stated, fails: the answer of the status query after a run that
    failed is the answer after a run that succeeded, so nothing read from
    it tells the outcome. *)
Lemma status_hides_outcome : ~ status_reflects_outcome.
Proof.
  intros [decode H].
  pose proof (H Scenario.office) as Hs.
  pose proof (H Scenario.broken) as Hf.
  replace (succeeded (fst (scrapeNBAData Scenario.office))) with true in Hs
    by (vm_compute; reflexivity).
  replace (succeeded (fst (scrapeNBAData Scenario.broken))) with false in Hf
    by (vm_compute; reflexivity).
  unfold get_status in Hs, Hf. cbn [fst] in Hs, Hf. congruence.
Qed.

Lemma step_outbox_status (s : server) (e : event) :
  (forall resp, In (GetStatus, resp) (outbox s) -> resp = idle) ->
  forall resp, In (GetStatus, resp) (outbox (step s e)) -> resp = idle.
Proof.
  intros I resp. destruct e as [r | |]; cbn.
  - apply I.
  - destruct (active s), (inbox s); cbn; apply I.
  - destruct (active s) as [r |]; [| apply I].
    destruct (handle r (host s)) as [resp' w'] eqn:E. cbn.
    rewrite in_app_iff. intros [H | [H | []]]; [apply I; exact H |].
    inversion H; subst. cbn in E. inversion E. reflexivity.
Qed.

(** C3, amended.  Every answer the status query ever gives is the constant
    [{nba: {status: "idle", lastRun: null}}], whatever runs have completed
    or failed before it; so it never reports a run in progress, and it
    reports no outcome, last-run time or failure count either. *)
Theorem status_always_idle (w : world) (evs : list event) (resp : response) :
  In (GetStatus, resp) (outbox (run evs (serving w))) -> resp = idle.
Proof.
  unfold run. revert resp.
  assert (G : forall s,
             (forall resp, In (GetStatus, resp) (outbox s) -> resp = idle) ->
             forall resp,
               In (GetStatus, resp) (outbox (fold_left step evs s)) ->
               resp = idle).
  { induction evs as [| e rest IH]; intros s I; cbn; [exact I |].
    apply IH. apply step_outbox_status. exact I. }
  apply G. intros resp [].
Qed.

Lemma status_always_idle_witness :
  outbox (run Scenario.asked_after_failure (serving Scenario.broken))
  = [(PostNba, respond 500 (Failure "Error running scraper" SyntaxError));
     (GetStatus, idle)].
Proof.
  assert (E : exists resp,
             outbox (run Scenario.asked_after_failure
                       (serving Scenario.broken))
             = [(PostNba,
                 respond 500 (Failure "Error running scraper" SyntaxError));
                (GetStatus, resp)]).
  { eexists. vm_compute. reflexivity. }
  destruct E as [resp E]. rewrite E. do 3 f_equal.
  apply (status_always_idle Scenario.broken Scenario.asked_after_failure).
  rewrite E. right. left. reflexivity.
Defined.

(** C2, as stated, fails: a trigger that arrives while a run is in progress
    is not refused.  It waits, is then served by a second full run (the
    clock is read 192 times per run), and gets the answer of a completed
    run. *)
Lemma trigger_while_running_runs_again :
  running Scenario.overlapped = true
  /\ inbox Scenario.overlapped = [PostNba]
  /\ outbox (run [End; Begin; End] Scenario.overlapped)
     = [(PostNba, completed); (PostNba, completed)]
  /\ ticks (host (run [End] Scenario.overlapped)) = 192%nat
  /\ ticks (host (run [End; Begin; End] Scenario.overlapped)) = 384%nat.
Proof.
  vm_compute. repeat split.
Qed.

Lemma step_conserves (s : server) (e : event) :
  (map fst (outbox (step s e)) ++ pending (step s e))%list
  = (map fst (outbox s) ++ pending s
     ++ match e with Arrive r => [r] | _ => [] end)%list.
Proof.
  unfold pending, step.
  destruct e as [r | |], (active s) as [a |] eqn:A,
    (inbox s) as [| q rest] eqn:I;
    try (destruct (handle a (host s)) as [resp w']);
    cbn; rewrite ?A, ?I, ?map_app, ?app_nil_r, <- ?app_assoc; cbn;
    reflexivity.
Qed.

Lemma step_reports (s : server) (e : event) :
  Forall (fun a => fst a = PostNba -> run_report (snd a)) (outbox s) ->
  Forall (fun a => fst a = PostNba -> run_report (snd a)) (outbox (step s e)).
Proof.
  intros F. destruct e as [r | |]; cbn; auto.
  - destruct (active s), (inbox s); cbn; auto.
  - destruct (active s) as [a |]; auto.
    destruct (handle a (host s)) as [resp w'] eqn:E. cbn.
    apply Forall_app. split; [exact F |].
    constructor; [| constructor]. cbn. intros ->. cbn in E.
    pose proof (post_nba_report (host s)) as R. rewrite E in R. exact R.
Qed.

Lemma arrived_app (evs : list event) (e : event) :
  arrived (evs ++ [e])
  = (arrived evs ++ match e with Arrive r => [r] | _ => [] end)%list.
Proof.
  induction evs as [| [r | |] rest IH]; cbn; rewrite ?IH; reflexivity.
Qed.

(** ** Dates of the generated points *)

(** C5.  In a time zone with daylight saving the series a run writes is not
    strictly increasing in date: [setDate] steps back by local days,
    [toISOString] labels the instants with their UTC date, and the same
    evening hour falls on either side of UTC midnight before and after the
    change.  Here 10 March is written twice. *)
Theorem spring_forward_repeats_a_date :
  Scenario.written_dates (scrapeNBAData Scenario.spring)
  = ["2024-02-15"; "2024-02-16"; "2024-02-17"; "2024-02-18"; "2024-02-19";
     "2024-02-20"; "2024-02-21"; "2024-02-22"; "2024-02-23"; "2024-02-24";
     "2024-02-25"; "2024-02-26"; "2024-02-27"; "2024-02-28"; "2024-02-29";
     "2024-03-01"; "2024-03-02"; "2024-03-03"; "2024-03-04"; "2024-03-05";
     "2024-03-06"; "2024-03-07"; "2024-03-08"; "2024-03-09"; "2024-03-10";
     "2024-03-10"; "2024-03-11"; "2024-03-12"; "2024-03-13"; "2024-03-14";
     "2024-03-15"].
Proof. vm_compute. reflexivity. Qed.

(** C9.  In the same zone in autumn the 31 points of a series do not fall
    on 31 consecutive days: 3 November is left out, and the first point is
    dated 31 days before the last. *)
Theorem fall_back_skips_a_date :
  Scenario.written_dates (scrapeNBAData Scenario.autumn)
  = ["2024-10-16"; "2024-10-17"; "2024-10-18"; "2024-10-19"; "2024-10-20";
     "2024-10-21"; "2024-10-22"; "2024-10-23"; "2024-10-24"; "2024-10-25";
     "2024-10-26"; "2024-10-27"; "2024-10-28"; "2024-10-29"; "2024-10-30";
     "2024-10-31"; "2024-11-01"; "2024-11-02"; "2024-11-04"; "2024-11-05";
     "2024-11-06"; "2024-11-07"; "2024-11-08"; "2024-11-09"; "2024-11-10";
     "2024-11-11"; "2024-11-12"; "2024-11-13"; "2024-11-14"; "2024-11-15";
     "2024-11-16"].
Proof. vm_compute. reflexivity. Qed.

(** ** The rate limiter *)

Module RateLimiterFacts.
Import RateLimiter.

Lemma spaced_snoc (log : list (caller * Z * Z)) (c c' : caller) (t t' d d' : Z) :
  spaced (log ++ [(c, t, d)]) ->
  d' <= t' - t ->
  spaced ((log ++ [(c, t, d)]) ++ [(c', t', d')]).
Proof.
  induction log as [| [[c0 t0] d0] rest IH]; cbn; intros S H.
  - auto.
  - destruct (rest ++ [(c, t, d)])%list as [| [[c1 t1] d1] rest'] eqn:E.
    + destruct rest; discriminate.
    + cbn. destruct S as [S1 S2]. split; [exact S1 |].
      apply IH; assumption.
Qed.

Lemma sound_fresh (crawl fl cp : Z) : sound crawl fl cp (fresh crawl fl cp).
Proof.
  constructor; cbn; auto. lia.
Qed.

Lemma sound_release (crawl fl cp now : Z) (l : limiter) :
  0 <= fl -> sound crawl fl cp l -> sound crawl fl cp (release now l).
Proof.
  intros F [C Fl Cp B L S D]. unfold release.
  destruct (queue l) as [| c rest]; [constructor; assumption |].
  destruct (permitted now l) eqn:P; [| constructor; assumption].
  constructor; cbn; auto.
  - unfold consistent. cbn. eauto.
  - unfold permitted, consistent in *.
    destruct (last l) as [t |].
    + destruct L as (log & c0 & d0 & L). rewrite L in S |- *.
      apply spaced_snoc; [exact S |]. apply Z.leb_le. exact P.
    + rewrite L. exact I.
  - apply Forall_app. split; [exact D |].
    constructor; [| constructor]. cbn. unfold effective_delay.
    rewrite C, Fl. nia.
Qed.

Lemma sound_act (crawl fl cp now : Z) (a : action) (l : limiter) :
  1 <= cp -> 0 <= fl -> sound crawl fl cp l -> sound crawl fl cp (act now a l).
Proof.
  intros Cp1 F H. destruct a as [c | | |]; cbn [act].
  - apply sound_release; [exact F |].
    destruct H as [C Fl Cp B L S D]. constructor; cbn; auto.
  - apply sound_release; assumption.
  - destruct H as [C Fl Cp B L S D].
    constructor; try assumption. cbn [backoff]. lia.
  - destruct H as [C Fl Cp B L S D].
    constructor; try assumption. cbn [backoff]. lia.
Qed.

Lemma play_snoc (es : list timed) (e : timed) (ls : limiters) (o : origin) :
  play (es ++ [e]) ls o
  = let '(now, o', a) := e in
    if String.eqb o o' then act now a (play es ls o) else play es ls o.
Proof.
  unfold play. rewrite fold_left_app. cbn.
  destruct e as [[now o'] a]. reflexivity.
Qed.

Lemma arrivals_snoc (o : origin) (es : list timed) (e : timed) :
  arrivals o (es ++ [e])
  = (arrivals o es
     ++ match e with
        | (_, o', Acquire c) => if String.eqb o o' then [c] else []
        | _ => []
        end)%list.
Proof.
  induction es as [| [[t o'] a] rest IH]; cbn.
  - destruct e as [[t o'] [c | | |]]; try reflexivity.
  - rewrite IH. destruct a; try reflexivity.
    destruct (String.eqb o o'); reflexivity.
Qed.

Lemma callers_release (now : Z) (l : limiter) :
  callers (release now l) = callers l.
Proof.
  unfold release, callers.
  destruct (queue l) as [| c rest] eqn:Q; [rewrite Q; reflexivity |].
  destruct (permitted now l); [| rewrite Q; reflexivity].
  cbn. rewrite map_app, <- app_assoc. reflexivity.
Qed.

Lemma callers_act (now : Z) (a : action) (l : limiter) :
  callers (act now a l)
  = (callers l ++ match a with Acquire c => [c] | _ => [] end)%list.
Proof.
  destruct a as [c | | |]; cbn [act]; rewrite ?callers_release;
    unfold callers; cbn; rewrite ?app_nil_r, ?app_assoc; reflexivity.
Qed.

End RateLimiterFacts.

(** C7.  Against the rate limiter as the specification describes it: for
    every origin and every sequence of timed events, each release but the
    first comes no sooner after the one before it than the delay in force
    at that release, this delay is never below the maximum of the origin's
    crawl-delay and the global floor, and callers are let through one at a
    time in the order they asked. *)
Theorem rate_limiter_spacing
  (crawl : RateLimiter.origin -> Z) (fl cp : Z)
  (es : list RateLimiter.timed) (o : RateLimiter.origin) :
  1 <= cp ->
  0 <= fl ->
  let l := RateLimiter.play es (fun o => RateLimiter.fresh (crawl o) fl cp) o in
  RateLimiter.spaced (RateLimiter.released l)
  /\ Forall (fun e => Z.max (crawl o) fl <= snd e) (RateLimiter.released l)
  /\ (map (fun e => fst (fst e)) (RateLimiter.released l)
      ++ RateLimiter.queue l)%list
     = RateLimiter.arrivals o es.
Proof.
  intros Cp F. cbv zeta.
  assert (G : RateLimiter.sound (crawl o) fl cp
                (RateLimiter.play es
                   (fun o => RateLimiter.fresh (crawl o) fl cp) o)
              /\ RateLimiter.callers
                   (RateLimiter.play es
                      (fun o => RateLimiter.fresh (crawl o) fl cp) o)
                 = RateLimiter.arrivals o es).
  { induction es as [| [[now o'] a] es IH] using rev_ind.
    - split; [apply RateLimiterFacts.sound_fresh | reflexivity].
    - rewrite RateLimiterFacts.play_snoc, RateLimiterFacts.arrivals_snoc.
      destruct IH as [S C]. destruct (String.eqb o o').
      + split; [apply RateLimiterFacts.sound_act; assumption |].
        rewrite RateLimiterFacts.callers_act, C. destruct a; reflexivity.
      + split; [exact S |]. rewrite C.
        destruct a; rewrite app_nil_r; reflexivity. }
  destruct G as [[_ _ _ _ _ S D] C]. auto.
Qed.

Lemma rate_limiter_spacing_witness :
  RateLimiter.released
    (RateLimiter.play RateLimiter.polite
       (fun _ => RateLimiter.fresh 2000 1000 8) "https://www.covers.com")
  = [(1%nat, 0, 2000); (2%nat, 2000, 2000)]
  /\ RateLimiter.spaced
       (RateLimiter.released
          (RateLimiter.play RateLimiter.polite
             (fun _ => RateLimiter.fresh 2000 1000 8)
             "https://www.covers.com")).
Proof.
  split; [vm_compute; reflexivity |].
  apply (rate_limiter_spacing (fun _ => 2000) 1000 8 RateLimiter.polite
           "https://www.covers.com"); lia.
Defined.

(** ** The calendar *)

Module JSDateFacts.
Import JSDate.

(** [YearFromDay] is ECMAScript's [YearFromTime]: the largest year that
    starts no later than the day. *)
Lemma YearFromDay_spec (d : Z) :
  DayFromYear (YearFromDay d) <= d < DayFromYear (YearFromDay d + 1).
Proof.
  unfold YearFromDay. cbv zeta.
  destruct (Z.leb_spec (DayFromYear (1970 + 400 * d / 146097 + 1)) d) as [A | A].
  - split; [exact A |]. unfold DayFromYear in *.
    Z.div_mod_to_equations. lia.
  - destruct (Z.leb_spec (DayFromYear (1970 + 400 * d / 146097)) d) as [B | B].
    + split; assumption.
    + replace (1970 + 400 * d / 146097 - 1 + 1)
        with (1970 + 400 * d / 146097) by lia.
      split; [| exact B]. unfold DayFromYear in *.
      Z.div_mod_to_equations. lia.
Qed.

Lemma DayFromYear_succ (y : Z) :
  DayFromYear (y + 1) = DayFromYear y + (if InLeapYear y then 366 else 365).
Proof.
  unfold DayFromYear, InLeapYear.
  destruct (Z.eqb_spec (y mod 4) 0) as [A | A];
    destruct (Z.eqb_spec (y mod 100) 0) as [B | B];
    destruct (Z.eqb_spec (y mod 400) 0) as [C | C];
    cbv [andb orb negb]; Z.div_mod_to_equations; lia.
Qed.

Lemma DayFromYear_mono (y y' : Z) : y <= y' -> DayFromYear y <= DayFromYear y'.
Proof.
  unfold DayFromYear. intros H. Z.div_mod_to_equations. lia.
Qed.

Lemma DayWithinYear_range (t : Z) :
  0 <= DayWithinYear t
  < (if InLeapYear (YearFromTime t) then 366 else 365).
Proof.
  unfold DayWithinYear, YearFromTime.
  pose proof (YearFromDay_spec (Day t)) as [A B].
  rewrite DayFromYear_succ in B. lia.
Qed.

Lemma MonthFromTime_range (t : Z) : 0 <= MonthFromTime t <= 11.
Proof.
  unfold MonthFromTime. cbv zeta.
  repeat match goal with
         | |- context [if ?c then _ else _] => destruct c
         end; lia.
Qed.

Lemma DateFromTime_range (t : Z) : 1 <= DateFromTime t <= 31.
Proof.
  pose proof (DayWithinYear_range t) as R.
  unfold DateFromTime, MonthFromTime. cbv zeta.
  destruct (InLeapYear (YearFromTime t)); cbn [MonthStart] in *;
    repeat match goal with
           | |- context [if ?a <? ?b then _ else _] =>
               destruct (Z.ltb_spec a b)
           end; cbn [MonthStart]; lia.
Qed.

(** The day number is recovered from year, month and date. *)
Lemma MakeDay_of_time (t dt : Z) :
  MakeDay (YearFromTime t) (MonthFromTime t) dt
  = Day t - DateFromTime t + dt.
Proof.
  pose proof (MonthFromTime_range t) as R.
  unfold MakeDay. cbv zeta.
  rewrite (Z.div_small (MonthFromTime t) 12), (Z.mod_small (MonthFromTime t) 12)
    by lia.
  rewrite Z.add_0_r. unfold DateFromTime, DayWithinYear. lia.
Qed.

Lemma Day_shift (t i : Z) : Day (t - i * msPerDay) = Day t - i.
Proof.
  unfold Day, msPerDay.
  replace (t - i * 86400000) with (t + (- i) * 86400000) by lia.
  rewrite Z.div_add by lia. lia.
Qed.

Lemma Day_of_days (d : Z) : Day (d * msPerDay) = d.
Proof.
  unfold Day, msPerDay. apply Z.div_mul. lia.
Qed.

Lemma Day_TimeClip (t : Z) :
  - 100000000 <= Day t < 100000000 -> TimeClip t = Some t.
Proof.
  unfold Day, msPerDay, TimeClip. intros H.
  destruct (Z.leb_spec (Z.abs t) 8640000000000000) as [A | A]; [reflexivity |].
  exfalso. Z.div_mod_to_equations. lia.
Qed.

(** In a zone whose offset is always [o], [setDate] moves the instant by
    whole days. *)
Lemma setDate_constant_offset (tz : timezone) (o t dt : Z) :
  (forall u b, tz u b = o) ->
  setDate tz (Some t) (Some dt)
  = TimeClip (t + (dt - DateFromTime (t + o)) * msPerDay).
Proof.
  intros Z. unfold setDate, LocalTime, UTC. cbv zeta. rewrite !Z.
  rewrite MakeDay_of_time. f_equal.
  unfold MakeDate, TimeWithinDay, Day, msPerDay.
  Z.div_mod_to_equations. lia.
Qed.

(** The day of the month depends on the day only. *)
Lemma DateFromTime_Day (t u : Z) : Day t = Day u -> DateFromTime t = DateFromTime u.
Proof.
  unfold DateFromTime, MonthFromTime, DayWithinYear, YearFromTime.
  intros ->. reflexivity.
Qed.

Lemma isoDate_Day (t u : Z) : Day t = Day u -> isoDate t = isoDate u.
Proof.
  unfold isoDate, DateFromTime, MonthFromTime, DayWithinYear, YearFromTime.
  intros ->. reflexivity.
Qed.

End JSDateFacts.

(** ** Dates where the offset from UTC does not change *)

Lemma digit_cases (n : Z) :
  In (JSDate.digit n)
     ["0"; "1"; "2"; "3"; "4"; "5"; "6"; "7"; "8"; "9"]%char.
Proof.
  unfold JSDate.digit.
  assert (R : 0 <= n mod 10 < 10) by (apply Z.mod_pos_bound; lia).
  assert (C : n mod 10 = 0 \/ n mod 10 = 1 \/ n mod 10 = 2 \/ n mod 10 = 3
              \/ n mod 10 = 4 \/ n mod 10 = 5 \/ n mod 10 = 6
              \/ n mod 10 = 7 \/ n mod 10 = 8 \/ n mod 10 = 9) by lia.
  repeat destruct C as [C | C]; rewrite C; cbn; tauto.
Qed.

Lemma before_T_app (a b : string) :
  before_T a = a -> before_T (a ++ b) = (a ++ before_T b)%string.
Proof.
  induction a as [| c a IH]; cbn; [reflexivity |].
  destruct (Ascii.eqb c "T"); [discriminate |].
  intros H. inversion H as [H']. rewrite H', (IH H'). reflexivity.
Qed.

Lemma before_T_digits (w : nat) :
  forall n, before_T (JSDate.digits w n) = JSDate.digits w n.
Proof.
  induction w as [| w IH]; intros n; cbn [JSDate.digits]; [reflexivity |].
  rewrite before_T_app by apply IH. f_equal.
  pose proof (digit_cases n) as C. cbv [In] in C.
  repeat destruct C as [C | C]; try contradiction; rewrite <- C; reflexivity.
Qed.

Lemma before_T_free_app (a b : string) :
  before_T a = a -> before_T b = b -> before_T (a ++ b) = (a ++ b)%string.
Proof.
  intros A B. rewrite before_T_app, B by exact A. reflexivity.
Qed.

Lemma before_T_isoDate (t : Z) :
  before_T (JSDate.isoDate t) = JSDate.isoDate t.
Proof.
  unfold JSDate.isoDate, JSDate.isoYear.
  repeat match goal with
         | |- context [if ?c then _ else _] => destruct c
         end;
    repeat first [ apply before_T_digits
                 | reflexivity
                 | apply before_T_free_app ].
Qed.

Lemma append_assoc_string (a b c : string) :
  (a ++ (b ++ c))%string = ((a ++ b) ++ c)%string.
Proof.
  induction a as [| x a IH]; cbn; congruence.
Qed.

Lemma append_empty (s : string) : (s ++ "")%string = s.
Proof.
  induction s as [| c s IH]; cbn; congruence.
Qed.

Lemma before_T_toISOString (t : Z) :
  before_T (JSDate.isoDate t ++ "T" ++ JSDate.isoTime t) = JSDate.isoDate t.
Proof.
  rewrite before_T_app by apply before_T_isoDate.
  cbn [append before_T Ascii.eqb Bool.eqb]. apply append_empty.
Qed.

Lemma count_down_succ (i : nat) : count_down (S i) = i :: count_down i.
Proof.
  unfold count_down. rewrite seq_S, rev_app_distr. reflexivity.
Qed.

Lemma steady_days_tick (w w' : world) (o D L : Z) (n : nat) :
  zone w' = zone w -> clock w' = clock w -> ticks w' = S (ticks w) ->
  steady_days w o D L (S n) -> steady_days w' o D L n.
Proof.
  intros Z C T [Hz Hc]. split.
  - rewrite Z. exact Hz.
  - intros j Hj. rewrite C, T. specialize (Hc (S j)).
    rewrite Nat.add_succ_r in Hc. apply Hc. lia.
Qed.

Lemma past_days_steady (o D L : Z) (k : nat) :
  forall today mn mx data w,
    - 100000000 + 31 <= D < 100000000 ->
    (k <= 31)%nat ->
    JSDate.Day (today + o) = L ->
    steady_days w o D L k ->
    exists points w',
      past_days k (Some today) mn mx data w = (Ok points, w')
      /\ map date_of points
         = (map date_of data
            ++ map (fun i => isoDay (D - Z.of_nat i)) (count_down k))%list.
Proof.
  induction k as [| i IH]; intros today mn mx data w RD K HL S.
  - exists data, w. split; [reflexivity |]. cbn. rewrite app_nil_r. reflexivity.
  - destruct S as [Hz Hc]. destruct (Hc 0%nat ltac:(lia)) as [HD HL'].
    rewrite Nat.add_0_r in HD, HL'.
    set (t := clock w (ticks w)) in *.
    set (t' := t - Z.of_nat i * JSDate.msPerDay).
    assert (Dt' : JSDate.Day t' = D - Z.of_nat i).
    { unfold t'. rewrite JSDateFacts.Day_shift, HD. reflexivity. }
    cbn [past_days]. unfold bind at 1. unfold JSDate.now at 1. cbv iota beta.
    fold t. rewrite (JSDateFacts.Day_TimeClip t) by lia.
    unfold bind at 1. unfold host_zone at 1. cbv iota beta. cbn [zone].
    unfold JSDate.getDate, day_minus, JSDate.LocalTime.
    rewrite (JSDateFacts.setDate_constant_offset (zone w) o) by exact Hz.
    rewrite Hz.
    rewrite (JSDateFacts.DateFromTime_Day (t + o) (today + o)) by congruence.
    replace (t + (JSDate.DateFromTime (today + o) - Z.of_nat i
                  - JSDate.DateFromTime (today + o)) * JSDate.msPerDay)
      with t' by (unfold t'; lia).
    rewrite (JSDateFacts.Day_TimeClip t') by lia.
    unfold bind at 1. unfold lift at 1, JSDate.toISOString. cbv iota beta.
    unfold bind at 1. unfold Math_random at 1. cbv iota beta.
    rewrite before_T_toISOString.
    match goal with
    | |- context [past_days i (Some today) mn mx ?d ?v] =>
        destruct (IH today mn mx d v RD ltac:(lia) HL)
          as (points & w' & E & M)
    end.
    { apply (steady_days_tick w); try reflexivity. split; assumption. }
    exists points, w'. split; [exact E |].
    rewrite M, map_app, count_down_succ, <- app_assoc. cbn [map app].
    do 2 f_equal. unfold isoDay. apply JSDateFacts.isoDate_Day.
    rewrite JSDateFacts.Day_of_days. exact Dt'.
Qed.

(** Where the offset from UTC does not change and the clock stays within
    one day while the series is generated, its 31 points are dated with 31
    consecutive days, the last of them the UTC day of the run. *)
Lemma generateHistoricalData_steady (o D L : Z) (mn mx : Num.number) (w : world) :
  - 100000000 + 31 <= D < 100000000 ->
  steady_days w o D L 32 ->
  exists points w',
    generateHistoricalData mn mx w = (Ok points, w')
    /\ map date_of points
       = map (fun i => isoDay (D - Z.of_nat i)) (count_down 31).
Proof.
  intros RD S. unfold generateHistoricalData, bind.
  unfold JSDate.now at 1. cbv iota beta.
  destruct S as [Hz Hc]. destruct (Hc 0%nat ltac:(lia)) as [HD HL].
  rewrite Nat.add_0_r in HD, HL.
  rewrite (JSDateFacts.Day_TimeClip (clock w (ticks w))) by lia.
  match goal with
  | |- context [past_days 31 (Some ?t) mn mx [] ?v] =>
      destruct (past_days_steady o D L 31 t mn mx [] v RD ltac:(lia) HL)
        as (points & w' & E & M)
  end.
  { apply (steady_days_tick w); try reflexivity. split; assumption. }
  exists points, w'. split; [exact E | exact M].
Qed.

(** ** ISO dates compare as the days they name *)

Lemma compare_append (a s t : string) :
  String.compare (a ++ s) (a ++ t) = String.compare s t.
Proof.
  induction a as [| c a IH]; cbn; [reflexivity |].
  unfold Ascii.compare. rewrite N.compare_refl. exact IH.
Qed.

Lemma digit_compare (a b : Z) :
  a mod 10 < b mod 10 -> Ascii.compare (JSDate.digit a) (JSDate.digit b) = Lt.
Proof.
  unfold JSDate.digit.
  assert (Ra : 0 <= a mod 10 < 10) by (apply Z.mod_pos_bound; lia).
  assert (Rb : 0 <= b mod 10 < 10) by (apply Z.mod_pos_bound; lia).
  assert (Ca : a mod 10 = 0 \/ a mod 10 = 1 \/ a mod 10 = 2 \/ a mod 10 = 3
               \/ a mod 10 = 4 \/ a mod 10 = 5 \/ a mod 10 = 6
               \/ a mod 10 = 7 \/ a mod 10 = 8 \/ a mod 10 = 9) by lia.
  assert (Cb : b mod 10 = 0 \/ b mod 10 = 1 \/ b mod 10 = 2 \/ b mod 10 = 3
               \/ b mod 10 = 4 \/ b mod 10 = 5 \/ b mod 10 = 6
               \/ b mod 10 = 7 \/ b mod 10 = 8 \/ b mod 10 = 9) by lia.
  clear Ra Rb. intros H.
  repeat destruct Ca as [Ca | Ca]; repeat destruct Cb as [Cb | Cb];
    rewrite Ca, Cb in *; (lia || reflexivity).
Qed.

Lemma digits_compare (w : nat) :
  forall a b s t,
    0 <= a < b -> b < 10 ^ Z.of_nat w ->
    String.compare (JSDate.digits w a ++ s) (JSDate.digits w b ++ t) = Lt.
Proof.
  induction w as [| w IH]; intros a b s t [A0 AB] B.
  - cbn in B. lia.
  - cbn [JSDate.digits]. rewrite <- !append_assoc_string.
    rewrite Nat2Z.inj_succ, Z.pow_succ_r in B by lia.
    assert (Q : a / 10 <= b / 10) by (apply Z.div_le_mono; lia).
    destruct (Z.eq_dec (a / 10) (b / 10)) as [E | N].
    + rewrite E, compare_append. cbn [append String.compare].
      rewrite digit_compare; [reflexivity |].
      Z.div_mod_to_equations. lia.
    + apply IH; [split; [apply Z.div_pos; lia | lia] |].
      apply Z.div_lt_upper_bound; lia.
Qed.

Lemma YearFromDay_mono (d1 d2 : Z) :
  d1 <= d2 -> JSDate.YearFromDay d1 <= JSDate.YearFromDay d2.
Proof.
  intros H.
  pose proof (JSDateFacts.YearFromDay_spec d1) as [A1 _].
  pose proof (JSDateFacts.YearFromDay_spec d2) as [_ B2].
  destruct (Z_le_gt_dec (JSDate.YearFromDay d1) (JSDate.YearFromDay d2))
    as [L | G]; [exact L | exfalso].
  pose proof (JSDateFacts.DayFromYear_mono
                (JSDate.YearFromDay d2 + 1) (JSDate.YearFromDay d1)
                ltac:(lia)).
  lia.
Qed.

Lemma YearFromDay_four_digits (d : Z) :
  JSDate.DayFromYear 0 <= d < JSDate.DayFromYear 10000 ->
  0 <= JSDate.YearFromDay d <= 9999.
Proof.
  intros [A B].
  pose proof (JSDateFacts.YearFromDay_spec d) as [S1 S2].
  split.
  - destruct (Z_le_gt_dec 0 (JSDate.YearFromDay d)) as [L | G];
      [exact L | exfalso].
    pose proof (JSDateFacts.DayFromYear_mono (JSDate.YearFromDay d + 1) 0
                  ltac:(lia)).
    lia.
  - destruct (Z_le_gt_dec (JSDate.YearFromDay d) 9999) as [L | G];
      [exact L | exfalso].
    pose proof (JSDateFacts.DayFromYear_mono 10000 (JSDate.YearFromDay d)
                  ltac:(lia)).
    lia.
Qed.

(** Year, month and date grow lexicographically with the day. *)
Lemma date_fields_lt (t1 t2 : Z) :
  JSDate.Day t1 < JSDate.Day t2 ->
  JSDate.YearFromTime t1 < JSDate.YearFromTime t2
  \/ JSDate.YearFromTime t1 = JSDate.YearFromTime t2
     /\ (JSDate.MonthFromTime t1 < JSDate.MonthFromTime t2
         \/ JSDate.MonthFromTime t1 = JSDate.MonthFromTime t2
            /\ JSDate.DateFromTime t1 < JSDate.DateFromTime t2).
Proof.
  intros H.
  pose proof (YearFromDay_mono (JSDate.Day t1) (JSDate.Day t2) ltac:(lia)) as Y.
  fold (JSDate.YearFromTime t1) (JSDate.YearFromTime t2) in Y.
  destruct (Z.eq_dec (JSDate.YearFromTime t1) (JSDate.YearFromTime t2))
    as [E | N]; [right; split; [exact E |] | left; lia].
  assert (W : JSDate.DayWithinYear t1 < JSDate.DayWithinYear t2)
    by (unfold JSDate.DayWithinYear; rewrite E; lia).
  unfold JSDate.DateFromTime, JSDate.MonthFromTime. cbv zeta. rewrite E.
  destruct (JSDate.InLeapYear (JSDate.YearFromTime t2));
    cbn [JSDate.MonthStart];
    repeat match goal with
           | |- context [if ?a <? ?b then _ else _] =>
               destruct (Z.ltb_spec a b)
           end; cbn [JSDate.MonthStart]; lia.
Qed.

Lemma isoDate_compare (t1 t2 : Z) :
  JSDate.DayFromYear 0 <= JSDate.Day t1 ->
  JSDate.Day t1 < JSDate.Day t2 ->
  JSDate.Day t2 < JSDate.DayFromYear 10000 ->
  String.compare (JSDate.isoDate t1) (JSDate.isoDate t2) = Lt.
Proof.
  intros A H B.
  pose proof (YearFromDay_four_digits (JSDate.Day t1) ltac:(lia)) as Y1.
  pose proof (YearFromDay_four_digits (JSDate.Day t2) ltac:(lia)) as Y2.
  fold (JSDate.YearFromTime t1) in Y1. fold (JSDate.YearFromTime t2) in Y2.
  pose proof (JSDateFacts.MonthFromTime_range t1) as M1.
  pose proof (JSDateFacts.MonthFromTime_range t2) as M2.
  pose proof (JSDateFacts.DateFromTime_range t1) as D1.
  pose proof (JSDateFacts.DateFromTime_range t2) as D2.
  unfold JSDate.isoDate, JSDate.isoYear.
  replace ((0 <=? JSDate.YearFromTime t1) && (JSDate.YearFromTime t1 <=? 9999))
    with true by (symmetry; apply andb_true_iff; split; apply Z.leb_le; lia).
  replace ((0 <=? JSDate.YearFromTime t2) && (JSDate.YearFromTime t2 <=? 9999))
    with true by (symmetry; apply andb_true_iff; split; apply Z.leb_le; lia).
  destruct (date_fields_lt t1 t2 H) as [Y | [EY [M | [EM D]]]].
  - apply digits_compare; lia.
  - rewrite EY, compare_append. cbn [append String.compare].
    replace (Ascii.compare "-" "-") with Eq by reflexivity.
    apply digits_compare; lia.
  - rewrite EY, EM, compare_append. cbn [append String.compare].
    replace (Ascii.compare "-" "-") with Eq by reflexivity.
    rewrite compare_append. cbn [append String.compare].
    replace (Ascii.compare "-" "-") with Eq by reflexivity.
    rewrite <- (append_empty (JSDate.digits 2 (JSDate.DateFromTime t1))),
            <- (append_empty (JSDate.digits 2 (JSDate.DateFromTime t2))).
    apply digits_compare; lia.
Qed.

Lemma isoDay_compare (d1 d2 : Z) :
  JSDate.DayFromYear 0 <= d1 -> d1 < d2 -> d2 < JSDate.DayFromYear 10000 ->
  String.compare (isoDay d1) (isoDay d2) = Lt.
Proof.
  intros A H B. unfold isoDay.
  apply isoDate_compare; rewrite !JSDateFacts.Day_of_days; assumption.
Qed.

Lemma ascending_count_down (D : Z) (k : nat) :
  JSDate.DayFromYear 0 + Z.of_nat k <= D < JSDate.DayFromYear 10000 ->
  ascending (map (fun i => isoDay (D - Z.of_nat i)) (count_down k)).
Proof.
  induction k as [| i IH]; intros R; [exact I |].
  rewrite count_down_succ. cbn [map].
  destruct i as [| j].
  - exact I.
  - rewrite count_down_succ in *. cbn [map] in *. cbn [ascending]. split.
    + apply isoDay_compare; lia.
    + apply IH. lia.
Qed.

(** In a zone without changes of offset, with the clock within one day, and
    for years of four digits, the dates of a generated series are strictly
    increasing. *)
Lemma generateHistoricalData_ascending
  (o D L : Z) (mn mx : Num.number) (w : world) :
  JSDate.DayFromYear 0 + 31 <= D < JSDate.DayFromYear 10000 ->
  steady_days w o D L 32 ->
  exists points w',
    generateHistoricalData mn mx w = (Ok points, w')
    /\ List.length points = 31%nat
    /\ ascending (map date_of points).
Proof.
  intros R S.
  assert (R' : - 100000000 + 31 <= D < 100000000).
  { revert R. unfold JSDate.DayFromYear. cbn. lia. }
  destruct (generateHistoricalData_steady o D L mn mx w R' S)
    as (points & w' & E & M).
  exists points, w'. split; [exact E |]. split.
  - eapply generateHistoricalData_length; eauto.
  - rewrite M. apply ascending_count_down. lia.
Qed.

(** ** Rounding in binary64 *)

Module NumFacts.
Import Scaled.

Lemma B_pos e : -1200 <= e -> 0 < B e.
Proof. intros. unfold B. apply Z.pow_pos_nonneg; lia. Qed.

Lemma B_add e n : -1200 <= e -> 0 <= n -> B (e + n) = B e * 2 ^ n.
Proof. intros. unfold B. rewrite <- Z.pow_add_r by lia. f_equal. lia. Qed.

Lemma B_mono e e' : -1200 <= e <= e' -> B e <= B e'.
Proof. intros. unfold B. apply Z.pow_le_mono_r; lia. Qed.

Lemma digits2_bounds p :
  2 ^ (Zpos (digits2_pos p) - 1) <= Zpos p < 2 ^ Zpos (digits2_pos p).
Proof.
  induction p as [p IH | p IH |]; cbn [digits2_pos].
  - rewrite Pos2Z.inj_succ.
    replace (Z.succ (Zpos (digits2_pos p)) - 1) with (Z.succ (Zpos (digits2_pos p) - 1)) by lia.
    rewrite !Z.pow_succ_r by lia. lia.
  - rewrite Pos2Z.inj_succ.
    replace (Z.succ (Zpos (digits2_pos p)) - 1) with (Z.succ (Zpos (digits2_pos p) - 1)) by lia.
    rewrite !Z.pow_succ_r by lia. lia.
  - cbn. lia.
Qed.

Lemma shr_1_m mrs : 0 <= shr_m mrs -> shr_m (shr_1 mrs) = shr_m mrs / 2.
Proof.
  destruct mrs as [m r s]. cbn [shr_m]. intros H.
  destruct m as [| [p | p |] | p]; cbn [shr_1 shr_m];
    Z.div_mod_to_equations; lia.
Qed.

Lemma iter_shr_1 p : forall mrs, 0 <= shr_m mrs ->
  shr_m (iter_pos shr_1 p mrs) = shr_m mrs / 2 ^ Zpos p.
Proof.
  induction p as [p IH | p IH |]; intros mrs H; cbn [iter_pos].
  - assert (H1 : 0 <= shr_m (shr_1 mrs))
      by (rewrite shr_1_m by lia; apply Z.div_pos; lia).
    assert (H2 : 0 <= shr_m (iter_pos shr_1 p (shr_1 mrs)))
      by (rewrite IH by lia; apply Z.div_pos; lia).
    rewrite IH, IH, shr_1_m by lia.
    rewrite !Z.div_div by lia. f_equal.
    replace (Z.pos p~1) with (Z.pos p + Z.pos p + 1) by lia.
    rewrite !Z.pow_add_r, Z.pow_1_r by lia. ring.
  - assert (H2 : 0 <= shr_m (iter_pos shr_1 p mrs))
      by (rewrite IH by lia; apply Z.div_pos; lia).
    rewrite IH, IH by lia. rewrite Z.div_div by lia. f_equal.
    replace (Z.pos p~0) with (Z.pos p + Z.pos p) by lia.
    rewrite !Z.pow_add_r by lia. ring.
  - rewrite shr_1_m by lia. reflexivity.
Qed.

Lemma fx_eq e : fx e = Z.max (e - 53) (-1074).
Proof. reflexivity. Qed.

Lemma rne_cases m l : round_nearest_even m l = m \/ round_nearest_even m l = m + 1.
Proof.
  destruct l as [| []]; cbn; auto. destruct (Z.even m); auto.
Qed.

Lemma shr_fexp_spec (m e : Z) (l : location) :
  0 <= m ->
  exists mrs,
    shr_fexp 53 1024 m e l = (mrs, e + Z.max 0 (fx (Zdigits2 m + e) - e))
    /\ shr_m mrs = m / 2 ^ Z.max 0 (fx (Zdigits2 m + e) - e)
    /\ (fx (Zdigits2 m + e) - e <= 0 -> mrs = shr_record_of_loc m l).
Proof.
  intros H. unfold shr_fexp, shr. fold (fx (Zdigits2 m + e)).
  assert (M : shr_m (shr_record_of_loc m l) = m) by (destruct l as [| []]; reflexivity).
  destruct (fx (Zdigits2 m + e) - e) as [| p | p] eqn:N.
  - eexists. split; [f_equal; lia |]. split; [| reflexivity].
    rewrite M. cbn. rewrite Z.div_1_r. reflexivity.
  - eexists. split; [f_equal; lia |]. split; [| lia].
    rewrite iter_shr_1 by lia. rewrite M. f_equal.
  - eexists. split; [f_equal; lia |]. split; [| reflexivity].
    rewrite M. cbn. rewrite Z.div_1_r. reflexivity.
Qed.

Lemma Zdigits2_le (m k : Z) : 0 <= k -> 0 <= m < 2 ^ k -> Zdigits2 m <= k.
Proof.
  intros K [M0 M]. destruct m as [| p | p]; cbn; try lia.
  pose proof (digits2_bounds p) as [L _].
  assert (2 ^ (Z.pos (digits2_pos p) - 1) < 2 ^ k) by lia.
  apply Z.pow_lt_mono_r_iff in H; lia.
Qed.

Lemma two_shifts (P a b m1 m2 m3 : Z) :
  0 < a -> 0 < b ->
  m1 * a <= P < (m1 + 1) * a ->
  m1 <= m2 <= m1 + 1 ->
  m3 * b <= m2 < (m3 + 1) * b ->
  Z.abs (m3 * (a * b) - P) <= 2 * (a * b).
Proof.
  intros A Bb [P1 P2] [M1 M2] [Q1 Q2].
  assert (a <= a * b) by nia.
  assert (m3 * (a * b) <= m2 * a) by nia.
  assert (m2 * a <= P + a) by nia.
  assert (m2 * a - a * b < m3 * (a * b)) by nia.
  assert (P - a < m2 * a + a) by nia.
  assert (P - a <= m2 * a) by nia.
  lia.
Qed.

Lemma digits_exponent (P : positive) (E K : Z) :
  -1200 <= E -> -1200 <= K -> Z.pos P * B E < B K ->
  Z.pos (digits2_pos P) + E <= K.
Proof.
  intros HE HK H. pose proof (digits2_bounds P) as [L _].
  assert (2 ^ (Z.pos (digits2_pos P) - 1) * B E < B K).
  { eapply Z.le_lt_trans; [| exact H]. apply Z.mul_le_mono_nonneg_r; [| exact L].
    apply Z.lt_le_incl, B_pos. exact HE. }
  unfold B in H0. rewrite <- Z.pow_add_r in H0 by lia.
  apply Z.pow_lt_mono_r_iff in H0; lia.
Qed.

Lemma BRA_close (P : positive) (E K : Z) :
  -1200 <= E -> -1000 <= K <= 900 -> Z.pos P * B E < B K ->
  nonneg (binary_round_aux 53 1024 false (Z.pos P) E loc_Exact)
  /\ Z.abs (val (binary_round_aux 53 1024 false (Z.pos P) E loc_Exact)
            - Z.pos P * B E)
     <= B (Z.max (K - 51) (-1073)).
Proof.
  intros HE HK HX.
  pose proof (digits_exponent P E K HE ltac:(lia) HX) as HD.
  pose proof (B_pos E HE) as BE.
  pose proof (B_pos (Z.max (K - 51) (-1073)) ltac:(lia)) as BU.
  assert (EK : E < K).
  { assert (H : B E < B K) by nia. unfold B in H.
    apply Z.pow_lt_mono_r_iff in H; lia. }
  destruct (shr_fexp_spec (Z.pos P) E loc_Exact ltac:(lia))
    as (mrs1 & S1 & M1 & X1).
  cbn [Zdigits2] in S1, M1, X1.
  remember (fx (Z.pos (digits2_pos P) + E) - E) as n1 eqn:Hn1.
  destruct (Z_le_gt_dec n1 0) as [N1 | N1].
  - (* no shift: the result is exact *)
    rewrite (X1 N1), Z.max_l, Z.add_0_r in S1 by lia.
    unfold binary_round_aux. rewrite S1.
    cbn [shr_record_of_loc shr_m loc_of_shr_record round_nearest_even].
    rewrite S1. cbn [shr_record_of_loc shr_m].
    replace (E <=? 1024 - 53) with true by (symmetry; apply Z.leb_le; lia).
    cbn [nonneg val]. split; [lia |].
    rewrite Z.sub_diag. cbn [Z.abs]. lia.
  - (* shifted right by [n1] bits, rounded, perhaps shifted once more *)
    rewrite Z.max_r in S1, M1 by lia.
    assert (E1 : E + n1 = fx (Z.pos (digits2_pos P) + E)) by lia.
    assert (U1 : E + n1 <= Z.max (K - 53) (-1074) /\ -1074 <= E + n1).
    { rewrite E1, fx_eq. lia. }
    set (m1 := shr_m mrs1) in *.
    set (m2 := round_nearest_even m1 (loc_of_shr_record mrs1)).
    assert (A : 0 < 2 ^ n1) by (apply Z.pow_pos_nonneg; lia).
    assert (m1pos : 0 <= m1) by (rewrite M1; apply Z.div_pos; lia).
    assert (R : m1 <= m2 <= m1 + 1)
      by (destruct (rne_cases m1 (loc_of_shr_record mrs1)) as [H | H];
          fold m2 in H; lia).
    assert (D1 : m1 * 2 ^ n1 <= Z.pos P < (m1 + 1) * 2 ^ n1).
    { rewrite M1. pose proof (Z.mul_div_le (Z.pos P) (2 ^ n1) A).
      pose proof (Z.mul_succ_div_gt (Z.pos P) (2 ^ n1) A). lia. }
    destruct (shr_fexp_spec m2 (E + n1) loc_Exact ltac:(lia))
      as (mrs2 & S2 & M2 & _).
    remember (Z.max 0 (fx (Zdigits2 m2 + (E + n1)) - (E + n1))) as N2 eqn:HN2.
    set (m3 := shr_m mrs2) in *.
    assert (Bb : 0 < 2 ^ N2) by (apply Z.pow_pos_nonneg; lia).
    assert (D2 : m3 * 2 ^ N2 <= m2 < (m3 + 1) * 2 ^ N2).
    { rewrite M2. pose proof (Z.mul_div_le m2 (2 ^ N2) Bb).
      pose proof (Z.mul_succ_div_gt m2 (2 ^ N2) Bb). lia. }
    assert (m3pos : 0 <= m3) by (rewrite M2; apply Z.div_pos; lia).
    (* the exponent of the result *)
    assert (U2 : E + n1 + N2 <= Z.max (K - 52) (-1074)).
    { destruct (Z.eq_dec m2 0) as [Z2 | Z2].
      - rewrite Z2 in HN2. cbn [Zdigits2] in HN2. rewrite fx_eq in HN2. lia.
      - assert (Zdigits2 m2 + (E + n1) <= K + 1); [| rewrite fx_eq in HN2; lia].
        destruct (Z_le_gt_dec n1 (Z.pos (digits2_pos P))) as [G | G].
        + assert (Zdigits2 m2 <= Z.pos (digits2_pos P) - n1 + 1); [| lia].
          apply Zdigits2_le; [lia |]. split; [lia |].
          pose proof (digits2_bounds P) as [_ UP].
          replace (Z.pos (digits2_pos P))
            with (Z.pos (digits2_pos P) - n1 + n1) in UP by lia.
          rewrite Z.pow_add_r in UP by lia.
          rewrite Z.pow_add_r, Z.pow_1_r by lia.
          assert (0 < 2 ^ (Z.pos (digits2_pos P) - n1))
            by (apply Z.pow_pos_nonneg; lia).
          nia.
        + assert (Zdigits2 m2 <= 1); [| rewrite fx_eq in E1; lia].
          apply Zdigits2_le; [lia |]. split; [lia |].
          assert (m1 = 0); [| cbn; lia].
          pose proof (digits2_bounds P) as [_ UP].
          assert (2 ^ Z.pos (digits2_pos P) < 2 ^ n1)
            by (apply Z.pow_lt_mono_r; lia).
          nia. }
    (* the value of the result *)
    pose proof (two_shifts (Z.pos P) (2 ^ n1) (2 ^ N2) m1 m2 m3 A Bb D1 R D2)
      as TS.
    assert (BS : B (E + n1 + N2) = B E * (2 ^ n1 * 2 ^ N2)).
    { rewrite <- Z.add_assoc, B_add, Z.pow_add_r by lia. reflexivity. }
    assert (BL : 2 * B (E + n1 + N2) <= B (Z.max (K - 51) (-1073))).
    { replace (2 * B (E + n1 + N2)) with (B (E + n1 + N2 + 1))
        by (rewrite (B_add (E + n1 + N2) 1), Z.pow_1_r by lia; lia).
      apply B_mono. lia. }
    unfold binary_round_aux. rewrite S1. fold m1. fold m2. rewrite S2.
    fold m3.
    destruct m3 as [| q | q] eqn:Q; [| | lia].
    + cbn [nonneg val]. split; [exact I |].
      rewrite Z.sub_0_l, Z.abs_opp, Z.abs_eq by lia.
      rewrite Z.mul_0_l, Z.sub_0_l, Z.abs_opp, Z.abs_eq in TS by lia.
      nia.
    + replace (E + n1 + N2 <=? 1024 - 53) with true
        by (symmetry; apply Z.leb_le; lia).
      cbn [nonneg val]. split; [lia |].
      rewrite BS.
      replace (Z.pos q * (B E * (2 ^ n1 * 2 ^ N2)) - Z.pos P * B E)
        with (B E * (Z.pos q * (2 ^ n1 * 2 ^ N2) - Z.pos P)) by ring.
      rewrite Z.abs_mul, (Z.abs_eq (B E)) by lia.
      rewrite BS in BL. nia.
Qed.

Lemma shl_align_val (mx : positive) (ex ez : Z) :
  -1200 <= ez -> ez <= ex ->
  Z.pos (fst (shl_align mx ex ez)) * B ez = Z.pos mx * B ex.
Proof.
  intros Hz Hx. unfold shl_align.
  destruct (ez - ex) as [| d | d] eqn:D; try lia; cbn [fst].
  - replace ez with ex by lia. reflexivity.
  - fold (shift_pos d mx). rewrite shift_pos_correct.
    change (Z.pow_pos 2 d) with (2 ^ Z.pos d).
    replace ex with (ez + Z.pos d) by lia.
    rewrite B_add by lia. ring.
Qed.

Lemma binary_round_close (S : positive) (e K : Z) :
  -1200 <= e -> -1000 <= K <= 900 -> Z.pos S * B e < B K ->
  nonneg (binary_round 53 1024 false S e)
  /\ Z.abs (val (binary_round 53 1024 false S e) - Z.pos S * B e)
     <= B (Z.max (K - 51) (-1073)).
Proof.
  intros He HK HX. unfold binary_round.
  fold (fx (Z.pos (digits2_pos S) + e)).
  pose proof (fx_eq (Z.pos (digits2_pos S) + e)) as F.
  set (e' := fx (Z.pos (digits2_pos S) + e)) in *.
  unfold shl_align.
  destruct (e' - e) as [| d | d] eqn:D.
  - apply BRA_close; assumption.
  - apply BRA_close; assumption.
  - fold (shift_pos d S).
    assert (V : Z.pos (shift_pos d S) * B e' = Z.pos S * B e).
    { rewrite shift_pos_correct. change (Z.pow_pos 2 d) with (2 ^ Z.pos d).
      replace e with (e' + Z.pos d) by lia. rewrite B_add by lia. ring. }
    rewrite <- V. apply BRA_close; [lia | assumption | rewrite V; assumption].
Qed.

Lemma SFadd_close (x y : spec_float) (K : Z) :
  nonneg x -> nonneg y -> -1000 <= K <= 900 -> val x + val y < B K ->
  nonneg (SFadd 53 1024 x y)
  /\ Z.abs (val (SFadd 53 1024 x y) - (val x + val y))
     <= B (Z.max (K - 51) (-1073)).
Proof.
  intros Nx Ny HK HX.
  pose proof (B_pos (Z.max (K - 51) (-1073)) ltac:(lia)) as BU.
  destruct x as [[|] | | | [|] mx ex], y as [[|] | | | [|] my ey];
    cbn [nonneg] in Nx, Ny; try contradiction; cbn [SFadd].
  - cbn [val nonneg]. split; [exact I | cbn; lia].
  - cbn [val nonneg]. split; [exact Ny |].
    rewrite Z.add_0_l, Z.sub_diag. cbn. lia.
  - cbn [val nonneg]. split; [exact Nx |].
    rewrite Z.add_0_r, Z.sub_diag. cbn. lia.
  - cbn [val] in *. cbn [cond_Zopp].
    set (ez := Z.min ex ey).
    assert (Vx := shl_align_val mx ex ez ltac:(unfold ez; lia) ltac:(unfold ez; lia)).
    assert (Vy := shl_align_val my ey ez ltac:(unfold ez; lia) ltac:(unfold ez; lia)).
    rewrite <- Vx, <- Vy in *.
    set (a := fst (shl_align mx ex ez)) in *.
    set (b := fst (shl_align my ey ez)) in *.
    change (Z.pos a + Z.pos b) with (Z.pos (a + b)).
    cbn [binary_normalize].
    replace (Z.pos a * B ez + Z.pos b * B ez) with (Z.pos (a + b) * B ez) in *
      by (rewrite Pos2Z.inj_add; ring).
    apply binary_round_close; [unfold ez; lia | assumption | assumption].
Qed.

Lemma SFmul_close (m : positive) (e : Z) (md : positive) (ed d K : Z) :
  -1200 <= e + ed -> -1200 <= e ->
  Z.pos md * B (e + ed) = d * B e ->
  -1000 <= K <= 900 ->
  d * (Z.pos m * B e) < B K ->
  nonneg (SFmul 53 1024 (S754_finite false m e) (S754_finite false md ed))
  /\ Z.abs (val (SFmul 53 1024 (S754_finite false m e) (S754_finite false md ed))
            - d * (Z.pos m * B e))
     <= B (Z.max (K - 51) (-1073)).
Proof.
  intros He He' Hd HK HX. cbn [SFmul xorb].
  assert (V : Z.pos (m * md) * B (e + ed) = d * (Z.pos m * B e)).
  { rewrite Pos2Z.inj_mul, <- Z.mul_assoc, Hd. ring. }
  rewrite <- V in *. apply BRA_close; assumption.
Qed.

Lemma of_Z_1 : Num.of_Z 1 = S754_finite false 4503599627370496 (-52).
Proof. vm_compute. reflexivity. Qed.

Lemma SFltb_finite (m m' : positive) (e e' : Z) :
  SFltb (S754_finite false m e) (S754_finite false m' e')
  = match e ?= e' with
    | Lt => true
    | Gt => false
    | Eq => match (m ?= m')%positive with Lt => true | _ => false end
    end.
Proof.
  unfold SFltb, SFcompare. rewrite Pos.compare_cont_spec.
  destruct (e ?= e'); try reflexivity.
  unfold Pos.switch_Eq. destruct (m ?= m')%positive; reflexivity.
Qed.

Lemma unit_interval_inv (r : spec_float) :
  Num.unit_interval r = true ->
  r = S754_zero false
  \/ exists m e, r = S754_finite false m e /\ -1074 <= e <= -53
                 /\ Z.pos m * B e < B 0.
Proof.
  destruct r as [[|] | | | [|] m e]; cbn [Num.unit_interval]; try discriminate;
    [left; reflexivity |].
  intros H. apply andb_true_iff in H. destruct H as [V L].
  unfold Num.valid, valid_binary, bounded, canonical_mantissa in V.
  apply andb_true_iff in V. destruct V as [C _].
  apply Z.eqb_eq in C. fold (fx (Z.pos (digits2_pos m) + e)) in C.
  rewrite fx_eq in C.
  pose proof (digits2_bounds m) as [DL DU].
  assert (E : e <= -53).
  { unfold Num.ltb in L. rewrite of_Z_1, SFltb_finite in L.
    destruct (Z.compare_spec e (-52)) as [Q | Q | Q];
      [| clear - Q; lia | discriminate].
    exfalso. subst e.
    destruct (Pos.compare_spec m 4503599627370496) as [P | P | P];
      try discriminate.
    assert (H : 2 ^ (Z.pos (digits2_pos m) - 1) < 4503599627370496)
      by (eapply Z.le_lt_trans; [exact DL | exact P]).
    change 4503599627370496 with (2 ^ 52) in H.
    apply Z.pow_lt_mono_r_iff in H; [| clear; lia | clear; lia].
    clear DL DU P L. lia. }
  assert (D : Z.pos (digits2_pos m) <= 53 /\ -1074 <= e)
    by (clear DL DU L; lia).
  clear L C.
  right. exists m, e. split; [reflexivity |]. split; [clear DL DU; lia |].
  assert (Z.pos m < 2 ^ 53).
  { eapply Z.lt_le_trans; [exact DU |]. apply Z.pow_le_mono_r; clear DL DU; lia. }
  unfold B. replace (0 + 1200) with ((e + 1200) + - e) by (clear; lia).
  rewrite (Z.pow_add_r 2 (e + 1200) (- e)) by (clear - E D; lia).
  assert (0 < 2 ^ (e + 1200)) by (apply Z.pow_pos_nonneg; clear - D; lia).
  assert (2 ^ 53 <= 2 ^ (- e)) by (apply Z.pow_le_mono_r; clear - E; lia).
  apply Z.lt_le_trans with (2 ^ 53 * 2 ^ (e + 1200)).
  - apply Z.mul_lt_mono_pos_r; assumption.
  - rewrite Z.mul_comm. apply Z.mul_le_mono_nonneg_l; [| assumption].
    apply Z.lt_le_incl. assumption.
Qed.

Lemma tenths_bounds (m : positive) (e lo hi : Z) :
  -1200 <= e -> 0 <= lo <= hi ->
  lo * B 0 - B (-44) <= Z.pos m * B e <= hi * B 0 + B (-44) ->
  10 * lo <= Num.tenths m e <= 10 * hi.
Proof.
  intros He Hl [L U]. unfold Num.tenths.
  assert (B44 : B 0 = B (-44) * 2 ^ 44)
    by (rewrite <- B_add by lia; reflexivity).
  assert (P44 : 0 < B (-44)) by (apply B_pos; lia).
  assert (T : 2 ^ 44 = 17592186044416) by reflexivity.
  destruct (Z.leb_spec 0 e) as [Q | Q].
  - assert (BE : B e = B 0 * 2 ^ e) by (rewrite <- B_add by lia; reflexivity).
    assert (0 < 2 ^ e) by (apply Z.pow_pos_nonneg; lia).
    rewrite BE, B44 in *.
    assert (lo <= Z.pos m * 2 ^ e <= hi) by nia.
    nia.
  - set (q := 2 ^ (- e)).
    assert (Hq : 0 < q) by (apply Z.pow_pos_nonneg; lia).
    assert (BE : B 0 = B e * q).
    { unfold q. rewrite <- B_add by lia. f_equal. lia. }
    assert (PE : 0 < B e) by (apply B_pos; lia).
    (* B e * q = B (-44) * 2^44 *)
    assert (L' : lo * q * 2 ^ 44 - q <= Z.pos m * 2 ^ 44).
    { apply Z.mul_le_mono_pos_l with (p := B e); [exact PE |].
      replace (B e * (lo * q * 2 ^ 44 - q))
        with ((lo * (B e * q)) * 2 ^ 44 - B e * q) by ring.
      rewrite <- BE. rewrite B44 at 2.
      replace (lo * B 0 * 2 ^ 44 - B (-44) * 2 ^ 44)
        with ((lo * B 0 - B (-44)) * 2 ^ 44) by ring.
      replace (B e * (Z.pos m * 2 ^ 44)) with ((Z.pos m * B e) * 2 ^ 44) by ring.
      apply Z.mul_le_mono_nonneg_r; lia. }
    assert (U' : Z.pos m * 2 ^ 44 <= hi * q * 2 ^ 44 + q).
    { apply Z.mul_le_mono_pos_l with (p := B e); [exact PE |].
      replace (B e * (hi * q * 2 ^ 44 + q))
        with ((hi * (B e * q)) * 2 ^ 44 + B e * q) by ring.
      rewrite <- BE. rewrite B44 at 2.
      replace (hi * B 0 * 2 ^ 44 + B (-44) * 2 ^ 44)
        with ((hi * B 0 + B (-44)) * 2 ^ 44) by ring.
      replace (B e * (Z.pos m * 2 ^ 44)) with ((Z.pos m * B e) * 2 ^ 44) by ring.
      apply Z.mul_le_mono_nonneg_r; lia. }
    rewrite T in L', U'.
    split.
    + apply Z.div_le_lower_bound; [lia |]. nia.
    + apply Z.lt_succ_r. apply Z.div_lt_upper_bound; [lia |]. nia.
Qed.

(** *** Values of the generated points *)

Lemma between_In (lo hi n : Z) : lo <= n <= hi -> In n (between lo hi).
Proof.
  intros H. unfold between. apply in_map_iff.
  exists (Z.to_nat (n - lo)). split; [lia |]. apply in_seq. lia.
Qed.

Lemma scaled_integer (m : positive) (c k e : Z) :
  0 <= k -> -1200 <= e - k ->
  Z.pos m = c * 2 ^ k -> Z.pos m * B (e - k) = c * B e.
Proof.
  intros K E H. rewrite H.
  replace e with (e - k + k) at 2 by lia. rewrite B_add by lia. ring.
Qed.

Lemma val_nonneg (x : spec_float) : nonneg x -> 0 <= val x.
Proof.
  destruct x as [| | | [|] m e]; cbn [val nonneg]; intros H; try lia.
  pose proof (B_pos e H). lia.
Qed.

Lemma generated_value_within (mn mx : Z) (r : Num.number) :
  bounds_checked mn mx = true ->
  Num.unit_interval r = true ->
  within mn mx
    (Num.toFixed1
       (Num.add (Num.mul r (Num.sub (Num.of_Z mx) (Num.of_Z mn)))
                (Num.of_Z mn)))
  = true.
Proof.
  unfold bounds_checked. intros C U.
  destruct (Num.sub (Num.of_Z mx) (Num.of_Z mn))
    as [| | | [|] md ed] eqn:Sub; try discriminate.
  destruct (Num.of_Z mn) as [| | | [|] mmn en] eqn:Mn; try discriminate.
  apply andb_true_iff in C; destruct C as [C All].
  apply andb_true_iff in C; destruct C as [C Hmn].
  apply andb_true_iff in C; destruct C as [C Hmd].
  apply andb_true_iff in C; destruct C as [C En0].
  apply andb_true_iff in C; destruct C as [C En].
  apply andb_true_iff in C; destruct C as [C Ed0].
  apply andb_true_iff in C; destruct C as [C Ed].
  apply andb_true_iff in C; destruct C as [C Mx].
  apply andb_true_iff in C; destruct C as [C D16].
  apply andb_true_iff in C; destruct C as [Mn1 D1].
  apply Z.leb_le in Mn1, En0, En, Ed0, Ed.
  apply Z.ltb_lt in D1, D16, Mx.
  apply Z.eqb_eq in Hmn, Hmd.
  assert (Fin : forall n, 10 * mn <= n <= 10 * mx ->
                          within mn mx (Num.div (Num.of_Z n) (Num.of_Z 10)) = true).
  { intros n Hn. rewrite forallb_forall in All. apply All, between_In, Hn. }
  clear All.
  set (d := mx - mn) in *.
  assert (Vmn : val (S754_finite false mmn en) = mn * B 0).
  { cbn [val]. replace en with (0 - - en) by lia.
    apply scaled_integer; [lia | lia | assumption]. }
  assert (B0 : 0 < B 0) by (apply B_pos; lia).
  assert (B4 : B 4 = 16 * B 0).
  { change (B 4) with (B (0 + 4)). rewrite B_add by lia.
    change (2 ^ 4) with 16. ring. }
  assert (B6 : B 6 = 64 * B 0).
  { change (B 6) with (B (0 + 6)). rewrite B_add by lia.
    change (2 ^ 6) with 64. ring. }
  assert (B47 : B 0 = B (-47) * 2 ^ 47).
  { change (B 0) with (B (-47 + 47)). apply B_add; lia. }
  assert (B45 : B 0 = B (-45) * 2 ^ 45).
  { change (B 0) with (B (-45 + 45)). apply B_add; lia. }
  assert (B44 : B (-44) = B (-45) * 2).
  { change (B (-44)) with (B (-45 + 1)). apply B_add; lia. }
  assert (B447 : B (-44) = B (-47) * 8).
  { change (B (-44)) with (B (-47 + 3)). apply B_add; lia. }
  assert (P47 : 0 < B (-47)) by (apply B_pos; lia).
  assert (P45 : 0 < B (-45)) by (apply B_pos; lia).
  (* the product *)
  assert (Mul : nonneg (Num.mul r (S754_finite false md ed))
                /\ val (Num.mul r (S754_finite false md ed))
                   <= d * B 0 + B (-47)).
  { destruct (unit_interval_inv r U) as [-> | (m & e & -> & Re & Rv)].
    - cbn. split; [exact I | nia].
    - assert (Hd : Z.pos md * B (e + ed) = d * B e).
      { replace (e + ed) with (e - - ed) by lia.
        apply scaled_integer; [lia | lia | assumption]. }
      assert (X : d * (Z.pos m * B e) < B 4).
      { rewrite B4. clear - Rv B0 D1 D16. unfold d in *. nia. }
      destruct (SFmul_close m e md ed d 4 ltac:(lia) ltac:(lia) Hd ltac:(lia) X)
        as [N Cl].
      split; [exact N |].
      change (Z.max (4 - 51) (-1073)) with (-47) in Cl.
      unfold Num.mul, Num.prec, Num.emax.
      clear - Cl Rv B0 D1 D16.
      generalize dependent (val (SFmul 53 1024 (S754_finite false m e)
                                   (S754_finite false md ed))).
      intros v Cl. unfold d in *.
      assert (d' : 0 <= mx - mn) by lia.
      assert (Z.pos m * B e <= B 0) by lia.
      assert ((mx - mn) * (Z.pos m * B e) <= (mx - mn) * B 0)
        by (apply Z.mul_le_mono_nonneg_l; assumption).
      lia. }
  destruct Mul as [Nm Vm].
  (* the sum *)
  set (p := Num.mul r (S754_finite false md ed)) in *.
  assert (Vp : 0 <= val p) by (apply val_nonneg; exact Nm).
  assert (Y : val p + val (S754_finite false mmn en) < B 6).
  { rewrite Vmn, B6. clear - Vm B0 P47 B47 Mn1 D1 D16 Mx. unfold d in *.
    assert (B (-47) <= B 0) by nia. nia. }
  destruct (SFadd_close p (S754_finite false mmn en) 6 Nm ltac:(cbn; lia)
              ltac:(lia) Y) as [Ns Cs].
  change (Z.max (6 - 51) (-1073)) with (-45) in Cs.
  change (SFadd 53 1024) with Num.add in Ns, Cs.
  set (s := Num.add p (S754_finite false mmn en)) in *.
  rewrite Vmn in Cs.
  assert (Vs : mn * B 0 - B (-44) <= val s <= mx * B 0 + B (-44)).
  { clear - Cs Vm Vp B44 B447 P47 P45. unfold d in *.
    generalize dependent (val s). generalize dependent (val p). intros. lia. }
  (* one decimal *)
  destruct s as [| | | [|] sm se] eqn:Es; cbn [nonneg] in Ns; try contradiction.
  - exfalso. cbn [val] in Vs. clear - Vs B0 B44 B45 P45 Mn1.
    assert (T : 2 ^ 45 = 35184372088832) by reflexivity.
    rewrite T in B45. nia.
  - cbn [val] in Vs.
    pose proof (tenths_bounds sm se mn mx Ns ltac:(lia) Vs) as T.
    unfold Num.toFixed1.
    replace (10 ^ 22 <=? Num.tenths sm se) with false
      by (symmetry; apply Z.leb_gt; change (10 ^ 22) with 10000000000000000000000;
          clear - T Mx; lia).
    replace (Num.tenths sm se =? 0) with false
      by (symmetry; apply Z.eqb_neq; clear - T Mn1; lia).
    apply Fin. exact T.
Qed.

End NumFacts.

(** * Further properties of the code *)

(** ** More on the generator *)

Lemma past_days_cursor (k : nat) :
  forall today mn mx data w l w',
    past_days k today mn mx data w = (Ok l, w') ->
    ticks w' = (ticks w + k)%nat /\ draws w' = (draws w + k)%nat.
Proof.
  induction k as [| i IH]; intros today mn mx data w l w' H;
    cbn [past_days] in H.
  - inversion H; subst. lia.
  - unfold bind at 1 in H. unfold JSDate.now at 1 in H. cbv iota beta in H.
    unfold bind at 1 in H. unfold host_zone at 1 in H. cbv iota beta in H.
    unfold bind at 1 in H. unfold lift at 1 in H.
    destruct (JSDate.toISOString _) as [iso | e]; [| discriminate].
    unfold bind at 1 in H. unfold Math_random at 1 in H. cbv iota beta in H.
    apply IH in H. cbn [ticks draws] in H. lia.
Qed.

Lemma past_days_points (k : nat) :
  forall today mn mx data w l w',
    past_days k today mn mx data w = (Ok l, w') ->
    Forall (fun pt => exists d v, pt = point d v) data ->
    Forall (fun pt => exists d v, pt = point d v) l.
Proof.
  induction k as [| i IH]; intros today mn mx data w l w' H F;
    cbn [past_days] in H.
  - inversion H; subst. exact F.
  - unfold bind at 1 in H. unfold JSDate.now at 1 in H. cbv iota beta in H.
    unfold bind at 1 in H. unfold host_zone at 1 in H. cbv iota beta in H.
    unfold bind at 1 in H. unfold lift at 1 in H.
    destruct (JSDate.toISOString _) as [iso | e]; [| discriminate].
    unfold bind at 1 in H. unfold Math_random at 1 in H. cbv iota beta in H.
    apply IH in H; [exact H |].
    apply Forall_app. split; [exact F |]. constructor; [| constructor]. eauto.
Qed.

Lemma past_days_throws (k : nat) :
  forall today mn mx data w e w',
    past_days k today mn mx data w = (Throw e, w') -> e = RangeError.
Proof.
  induction k as [| i IH]; intros today mn mx data w e w' H;
    cbn [past_days] in H.
  - discriminate.
  - unfold bind at 1 in H. unfold JSDate.now at 1 in H. cbv iota beta in H.
    unfold bind at 1 in H. unfold host_zone at 1 in H. cbv iota beta in H.
    unfold bind at 1 in H. unfold lift at 1 in H.
    destruct (JSDate.setDate _ _ _) as [t |]; cbn [JSDate.toISOString] in H.
    + unfold bind at 1 in H. unfold Math_random at 1 in H. cbv iota beta in H.
      eapply IH; eauto.
    + inversion H. reflexivity.
Qed.

Lemma generateHistoricalData_cursor (mn mx : Num.number) (w : world)
  (points : list json) (w' : world) :
  generateHistoricalData mn mx w = (Ok points, w') ->
  ticks w' = (ticks w + 32)%nat /\ draws w' = (draws w + 31)%nat.
Proof.
  intros H.
  unfold generateHistoricalData, bind in H. unfold JSDate.now at 1 in H.
  cbv iota beta in H.
  pose proof (past_days_cursor _ _ _ _ _ _ _ _ H) as [T R].
  cbn [ticks draws] in T, R. lia.
Qed.

Lemma dummyPlayers_cursor (w : world) (ps : list json) (w' : world) :
  dummyPlayers w = (Ok ps, w') ->
  ticks w' = (ticks w + 192)%nat /\ draws w' = (draws w + 186)%nat.
Proof.
  unfold dummyPlayers. intros G.
  repeat
    (unfold bind at 1 in G;
     match type of G with
     | context [generateHistoricalData ?mn ?mx ?v] =>
         let E := fresh "E" in
         destruct (generateHistoricalData mn mx v) as [[? | ?] ?] eqn:E;
         [apply generateHistoricalData_cursor in E; destruct E as (? & ?)
         | discriminate]
     end).
  inversion G; subst. lia.
Qed.

(** X1.  A call of [generateHistoricalData] that returns gives 31 points,
    each an object of a [date] and a [value] and nothing else; it has read
    the clock 32 times (once for [today], once per point) and drawn 31
    random numbers, and has touched neither the file, nor the console, nor
    the network. *)
Theorem generated_series_shape (mn mx : Num.number) (w : world)
  (points : list json) (w' : world) :
  generateHistoricalData mn mx w = (Ok points, w') ->
  List.length points = 31%nat
  /\ Forall (fun pt => exists d v, pt = point d v) points
  /\ ticks w' = (ticks w + 32)%nat
  /\ draws w' = (draws w + 31)%nat
  /\ disk w' = disk w /\ console w' = console w /\ wire w' = wire w.
Proof.
  intros H.
  pose proof (generateHistoricalData_length _ _ _ _ _ H) as L.
  destruct (quiet_generateHistoricalData _ _ _ _ _ H)
    as (D & C & _ & _ & _ & _ & Wi & _).
  unfold generateHistoricalData, bind in H. unfold JSDate.now at 1 in H.
  cbv iota beta in H.
  pose proof (past_days_cursor _ _ _ _ _ _ _ _ H) as [T R].
  pose proof (past_days_points _ _ _ _ _ _ _ _ H (Forall_nil _)) as P.
  cbn [ticks draws] in T, R.
  repeat split; try assumption; lia.
Qed.

Lemma generated_series_shape_witness :
  List.length (returned (generateHistoricalData (Num.of_Z 25) (Num.of_Z 35)
                           Scenario.office)) = 31%nat.
Proof.
  apply (generated_series_shape (Num.of_Z 25) (Num.of_Z 35) Scenario.office
           (returned (generateHistoricalData (Num.of_Z 25) (Num.of_Z 35)
                        Scenario.office))
           (snd (generateHistoricalData (Num.of_Z 25) (Num.of_Z 35)
                   Scenario.office))).
  vm_compute. reflexivity.
Defined.

(** ** The values of a series, and how they are written *)

Lemma fraction_unit (x : Num.number) :
  Num.unit_interval (Num.fraction x) = true.
Proof.
  unfold Num.fraction.
  destruct (Num.unit_interval x) eqn:E; [exact E | reflexivity].
Qed.

Lemma past_days_bounded (mn mx : Z) (k : nat) :
  bounds_checked mn mx = true ->
  forall today data w l w',
    past_days k today (Num.of_Z mn) (Num.of_Z mx) data w = (Ok l, w') ->
    Forall (fun pt => exists d v, pt = point d v /\ within mn mx v = true)
           data ->
    Forall (fun pt => exists d v, pt = point d v /\ within mn mx v = true) l.
Proof.
  intros C. induction k as [| i IH]; intros today data w l w' H F;
    cbn [past_days] in H.
  - inversion H; subst. exact F.
  - unfold bind at 1 in H. unfold JSDate.now at 1 in H. cbv iota beta in H.
    unfold bind at 1 in H. unfold host_zone at 1 in H. cbv iota beta in H.
    unfold bind at 1 in H. unfold lift at 1 in H.
    destruct (JSDate.toISOString _) as [iso | e]; [| discriminate].
    unfold bind at 1 in H. unfold Math_random at 1 in H. cbv iota beta in H.
    apply IH in H; [exact H |].
    apply Forall_app. split; [exact F |]. constructor; [| constructor].
    do 2 eexists. split; [reflexivity |].
    apply NumFacts.generated_value_within; [exact C | apply fraction_unit].
Qed.

Lemma generateHistoricalData_bounded (mn mx : Z) (w : world)
  (points : list json) (w' : world) :
  bounds_checked mn mx = true ->
  generateHistoricalData (Num.of_Z mn) (Num.of_Z mx) w = (Ok points, w') ->
  Forall (fun pt => exists d v, pt = point d v /\ within mn mx v = true)
         points.
Proof.
  intros C H.
  unfold generateHistoricalData, bind in H. unfold JSDate.now at 1 in H.
  cbv iota beta in H.
  eapply (past_days_bounded mn mx 31 C); [exact H | constructor].
Qed.

Lemma bounded_within (mn mx : Z) (points : list json) :
  Forall (fun pt => exists d v, pt = point d v /\ within mn mx v = true)
         points ->
  Forall (fun pt => within mn mx (value_of pt) = true) points.
Proof.
  intros F. eapply Forall_impl; [| exact F].
  intros pt (d & v & -> & W). exact W.
Qed.

(** A value within checked bounds is a positive finite Number, which
    [JSON.stringify] and [JSON.parse] hand on as it is. *)
Lemma within_stored (mn mx : Z) (v : Num.number) :
  bounds_checked mn mx = true ->
  within mn mx v = true ->
  number_written v = JNum v.
Proof.
  unfold bounds_checked, within. intros C W.
  apply andb_prop in W. destruct W as [Lo Hi].
  destruct (Num.sub (Num.of_Z mx) (Num.of_Z mn))
    as [| | | [|] md ed] eqn:Sub; try discriminate C.
  destruct (Num.of_Z mn) as [| | | [|] mmn en] eqn:Mn; try discriminate C.
  clear C.
  destruct v as [s | s | | s m e]; try reflexivity.
  - destruct s; discriminate Lo.
  - destruct s; [discriminate Lo |].
    destruct (Num.of_Z mx) as [smx | [|] | | smx mmx emx];
      try discriminate Hi; discriminate Sub.
  - discriminate Lo.
Qed.

Lemma bounded_stored (mn mx : Z) (points : list json) :
  bounds_checked mn mx = true ->
  Forall (fun pt => exists d v, pt = point d v /\ within mn mx v = true)
         points ->
  map written points = points.
Proof.
  intros C. induction 1 as [| pt rest (d & v & -> & W) _ IH];
    [reflexivity |].
  cbn [map]. rewrite IH. f_equal.
  unfold point. cbn [written map fst snd].
  rewrite (within_stored mn mx v C W). reflexivity.
Qed.

Lemma player_stored (id : Z) (name team position : string)
  (p r a : list json) :
  number_written (Num.of_Z id) = JNum (Num.of_Z id) ->
  map written p = p -> map written r = r -> map written a = a ->
  written (player id name team position p r a)
  = player id name team position p r a.
Proof.
  intros N P R A. unfold player. cbn [written map fst snd].
  rewrite N, P, R, A. reflexivity.
Qed.

(** The players a run generates are written to the file as they are
    returned. *)
Lemma dummyPlayers_stored (w : world) (ps : list json) (w' : world) :
  dummyPlayers w = (Ok ps, w') -> map written ps = ps.
Proof.
  unfold dummyPlayers. intros G.
  repeat
    (unfold bind at 1 in G;
     match type of G with
     | context [generateHistoricalData (Num.of_Z ?mn) (Num.of_Z ?mx) ?v] =>
         let E := fresh "E" in
         destruct (generateHistoricalData (Num.of_Z mn) (Num.of_Z mx) v)
           as [[? | ?] ?] eqn:E; [| discriminate];
         apply (generateHistoricalData_bounded mn mx v _ _
                  ltac:(vm_compute; reflexivity)) in E;
         apply (bounded_stored mn mx _ ltac:(vm_compute; reflexivity)) in E
     end).
  inversion G; subst. cbn [map].
  rewrite !player_stored; try assumption; reflexivity.
Qed.

(** ** What [JSON.stringify] writes *)

Lemma json_induction (P : json -> Prop) :
  P JNull ->
  (forall b, P (JBool b)) ->
  (forall n, P (JNum n)) ->
  (forall s, P (JStr s)) ->
  (forall items, Forall P items -> P (JArr items)) ->
  (forall props, Forall (fun kv => P (snd kv)) props -> P (JObj props)) ->
  forall v, P v.
Proof.
  intros HNull HBool HNum HStr HArr HObj. fix IH 1.
  intros [| b | n | s | items | props].
  - exact HNull.
  - apply HBool.
  - apply HNum.
  - apply HStr.
  - apply HArr. revert items. fix IHl 1. intros [| x rest].
    + constructor.
    + constructor; [apply IH | apply IHl].
  - apply HObj. revert props. fix IHl 1. intros [| [k x] rest].
    + constructor.
    + constructor; [apply IH | apply IHl].
Qed.

Lemma written_object (props : list (string * json)) :
  written (JObj props) = JObj (written_props props).
Proof. reflexivity. Qed.

Lemma number_written_idem (n : Num.number) :
  written (number_written n) = number_written n.
Proof. destruct n as [s | s | | s m e]; reflexivity. Qed.

(** Writing a value that was read from a written file changes nothing
    more. *)
Lemma written_idem (v : json) : written (written v) = written v.
Proof.
  induction v as [| b | n | s | items IH | props IH] using json_induction;
    try reflexivity.
  - apply number_written_idem.
  - cbn [written]. f_equal. rewrite map_map.
    induction IH as [| x rest Hx _ IHrest]; [reflexivity |].
    cbn [map]. rewrite Hx, IHrest. reflexivity.
  - cbn [written]. f_equal. rewrite map_map.
    induction IH as [| [k x] rest Hx _ IHrest]; [reflexivity |].
    cbn [map fst snd] in *. rewrite Hx, IHrest. reflexivity.
Qed.

Lemma written_props_idem (props : list (string * json)) :
  written_props (written_props props) = written_props props.
Proof.
  pose proof (written_idem (JObj props)) as H.
  rewrite !written_object in H. injection H as E. exact E.
Qed.

Lemma map_written_idem (items : list json) :
  map written (map written items) = map written items.
Proof.
  rewrite map_map. apply map_ext. intros v. apply written_idem.
Qed.

Lemma plain_number_written (n : Num.number) :
  plain_number n = true -> number_written n = JNum n.
Proof. destruct n as [[|] | s | | s m e]; try discriminate; reflexivity. Qed.

(** A value without [-0], NaN and infinities is written as it is. *)
Lemma written_plain (v : json) : plain v = true -> written v = v.
Proof.
  induction v as [| b | n | s | items IH | props IH] using json_induction;
    try reflexivity.
  - apply plain_number_written.
  - cbn [plain written]. intros F. f_equal.
    induction IH as [| x rest Hx _ IHrest]; [reflexivity |].
    cbn [forallb] in F. apply andb_prop in F. destruct F as [Fx Fr].
    cbn [map]. rewrite (Hx Fx), (IHrest Fr). reflexivity.
  - cbn [plain written]. intros F. f_equal.
    induction IH as [| [k x] rest Hx _ IHrest]; [reflexivity |].
    cbn [forallb snd] in F. apply andb_prop in F. destruct F as [Fx Fr].
    cbn [map fst snd] in *. rewrite (Hx Fx), (IHrest Fr). reflexivity.
Qed.

Lemma map_written_plain (items : list json) :
  forallb plain items = true -> map written items = items.
Proof.
  induction items as [| p rest IH]; [reflexivity |].
  cbn [forallb]. intros F. apply andb_prop in F. destruct F as [Fp Fr].
  cbn [map]. rewrite (written_plain p Fp), (IH Fr). reflexivity.
Qed.

Lemma lookup_written (k : string) (props : list (string * json)) :
  lookup k (written_props props) = option_map written (lookup k props).
Proof.
  induction props as [| [k' v] rest IH]; cbn; [reflexivity |].
  destruct (String.eqb k k'); [reflexivity | exact IH].
Qed.

Lemma assign_written (k : string) (v : json) (props : list (string * json)) :
  written_props (assign k v props)
  = assign k (written v) (written_props props).
Proof.
  induction props as [| [k' v'] rest IH]; cbn; [reflexivity |].
  destruct (String.eqb k k'); cbn; [reflexivity |].
  unfold written_props in IH. rewrite IH. reflexivity.
Qed.

Lemma keys_written (props : list (string * json)) :
  map fst (written_props props) = map fst props.
Proof.
  unfold written_props. rewrite map_map. reflexivity.
Qed.

(** Writing a record does not change what its [sport] is compared with. *)
Lemma other_sport_written (p : json) : other_sport (written p) = other_sport p.
Proof.
  unfold other_sport, field. destruct p as [| b | n | s | items | props];
    try reflexivity.
  - destruct n as [s | s | | s m e]; reflexivity.
  - rewrite written_object, lookup_written.
    destruct (lookup "sport" props) as [[| b | n | s | items | o] |];
      try reflexivity.
    destruct n as [s | s | | s m e]; reflexivity.
Qed.

Lemma filter_written (items : list json) :
  filter other_sport (map written items)
  = map written (filter other_sport items).
Proof.
  induction items as [| p rest IH]; cbn; [reflexivity |].
  rewrite other_sport_written.
  destruct (other_sport p); cbn; rewrite IH; reflexivity.
Qed.

Lemma Forall_filter_other_sport (items : list json) :
  Forall (fun p => other_sport p = true) (filter other_sport items).
Proof.
  apply Forall_forall. intros p I. apply filter_In in I. apply I.
Qed.

Lemma Forall_other_sport_written (items : list json) :
  Forall (fun p => other_sport p = true) items ->
  Forall (fun p => other_sport p = true) (map written items).
Proof.
  intros F. apply Forall_forall. intros p I. apply in_map_iff in I.
  destruct I as (q & <- & I). rewrite other_sport_written.
  rewrite Forall_forall in F. auto.
Qed.

(** The file a successful scrape leaves: the object it loaded, with its
    [players] replaced by the returned players and the prior players of
    other sports, all as [JSON.stringify] writes them. *)
Lemma scrape_disk (w : world) (ps : list json) (w' : world) :
  scrapeNBAData w = (Ok ps, w') ->
  exists props items,
    (disk w = Missing /\ props = [("players", JArr [])]
     \/ disk w = Stored (Wellformed (JObj props)))
    /\ lookup "players" props = Some (JArr items)
    /\ Forall (fun p => p <> JNull) items
    /\ disk w'
       = Stored (Wellformed
           (JObj (assign "players"
                    (JArr (ps ++ map written (filter other_sport items)))
                    (written_props props)))).
Proof.
  intros H. apply scrape_ok in H.
  destruct (scrape_steps_ok _ _ _ H)
    as (data & w2 & kept & data' & L & G & O & S & _ & ->).
  destruct (other_sports_inv _ _ O) as (props & items & -> & P & ->).
  assert (NN : Forall (fun p => p <> JNull) items).
  { unfold other_sports in O. cbn in O. rewrite P in O. cbn in O.
    eapply array_filter_defined. exact O. }
  cbn in S. inversion S; subst.
  exists props, items. split; [| split; [exact P | split; [exact NN |]]].
  - destruct (load_data_inv _ _ _ L) as (_ & [(D & E) | D]); auto.
    inversion E; subst. auto.
  - cbn [disk with_disk]. rewrite written_object, assign_written.
    cbn [written]. rewrite map_app, (dummyPlayers_stored _ _ _ G).
    reflexivity.
Qed.

(** The player list a successful scrape leaves. *)
Lemma scrape_stored (w : world) (ps : list json) (w' : world) :
  scrapeNBAData w = (Ok ps, w') ->
  exists prior,
    stored_players (disk w) = Some prior
    /\ Forall (fun p => p <> JNull) prior
    /\ stored_players (disk w')
       = Some (ps ++ map written (filter other_sport prior))%list.
Proof.
  intros H.
  destruct (scrape_disk _ _ _ H) as (props & items & D & P & NN & D').
  exists items. split; [| split; [exact NN |]].
  - destruct D as [[-> ->] | ->]; cbn.
    + cbn in P. inversion P. reflexivity.
    + rewrite P. reflexivity.
  - rewrite D'. cbn. rewrite lookup_assign. reflexivity.
Qed.


(** ** When the scrape succeeds *)

Lemma steady_days_advance (w w' : world) (o D L : Z) (m n : nat) :
  zone w' = zone w -> clock w' = clock w -> ticks w' = (ticks w + m)%nat ->
  steady_days w o D L (m + n) -> steady_days w' o D L n.
Proof.
  intros Z C T [Hz Hc]. split.
  - rewrite Z. exact Hz.
  - intros j Hj. rewrite C, T. rewrite <- Nat.add_assoc. apply Hc. lia.
Qed.

Lemma steady_days_fewer (w : world) (o D L : Z) (m n : nat) :
  (n <= m)%nat -> steady_days w o D L m -> steady_days w o D L n.
Proof.
  intros N [Hz Hc]. split; [exact Hz |]. intros j Hj. apply Hc. lia.
Qed.

Lemma generateHistoricalData_runs (o D L : Z) (mn mx : Num.number)
  (w : world) (n : nat) :
  - 100000000 + 31 <= D < 100000000 ->
  steady_days w o D L (32 + n) ->
  exists points w',
    generateHistoricalData mn mx w = (Ok points, w')
    /\ steady_days w' o D L n /\ writable w' = writable w.
Proof.
  intros R S.
  destruct (generateHistoricalData_steady o D L mn mx w R
              (steady_days_fewer w o D L (32 + n) 32 ltac:(lia) S))
    as (points & w' & E & _).
  exists points, w'. split; [exact E |].
  destruct (generateHistoricalData_cursor _ _ _ _ _ E) as (T & _).
  destruct (quiet_generateHistoricalData _ _ _ _ _ E)
    as (_ & _ & Wr & C & _ & Z & _).
  split; [| exact Wr].
  apply (steady_days_advance w w' o D L 32 n); assumption.
Qed.

Lemma dummyPlayers_runs (o D L : Z) (w : world) :
  - 100000000 + 31 <= D < 100000000 ->
  steady_days w o D L 192 ->
  exists ps w', dummyPlayers w = (Ok ps, w') /\ writable w' = writable w.
Proof.
  intros R S. unfold dummyPlayers.
  change 192%nat with (32 + (32 + (32 + (32 + (32 + (32 + 0))))))%nat in S.
  repeat
    match goal with
    | S : steady_days ?v o D L (32 + ?n)
      |- context [bind (generateHistoricalData ?mn ?mx) _ ?v] =>
        let G := fresh "G" in
        let Wr := fresh "Wr" in
        destruct (generateHistoricalData_runs o D L mn mx v n R S)
          as (? & ? & G & ? & Wr);
        unfold bind at 1; rewrite G; clear S
    end.
  eexists. eexists. split; [reflexivity |]. congruence.
Qed.

Lemma array_filter_total (items : list json) :
  Forall (fun p => p <> JNull) items ->
  array_filter not_NBA items = Ok (filter other_sport items).
Proof.
  induction 1 as [| p rest Hp _ IH]; cbn; [reflexivity |].
  assert (E : not_NBA p = Ok (other_sport p)).
  { unfold not_NBA, other_sport, field. destruct p; cbn; congruence. }
  rewrite E, IH. reflexivity.
Qed.

(** X2.  The scrape succeeds on a host that can write the data file, whose file
    is absent or holds an object with a [players] array free of [null],
    whose zone keeps one offset and whose clock stays within one day for
    the 192 readings of a run. *)
Theorem scrape_succeeds (w : world) (o D L : Z) (prior : list json) :
  writable w = true ->
  stored_players (disk w) = Some prior ->
  Forall (fun p => p <> JNull) prior ->
  - 100000000 + 31 <= D < 100000000 ->
  steady_days w o D L 192 ->
  exists ps w', scrapeNBAData w = (Ok ps, w').
Proof.
  intros Wr St NN R S.
  destruct (dummyPlayers_runs o D L w R S) as (ps & w2 & G & Wr2).
  assert (Ld : exists props,
             load_data w = (Ok (JObj props), w)
             /\ lookup "players" props = Some (JArr prior)).
  { unfold load_data, bind, fs_existsSync, fs_readFileSync, lift, ret.
    cbv beta. unfold stored_players in St.
    destruct (disk w) as [| | [raw | [| | | | | props]]] eqn:Dk;
      try discriminate; cbn; rewrite ?Dk; cbn.
    - inversion St; subst. eexists. split; reflexivity.
    - destruct (lookup "players" props) as [[| | | | items |] |] eqn:Lk;
        try discriminate.
      inversion St; subst. exists props. split; [reflexivity | exact Lk]. }
  destruct Ld as (props & Ld & Lk).
  exists ps, (with_disk
                (Stored (Wellformed
                   (written
                      (JObj (assign "players"
                               (JArr (ps ++ filter other_sport prior))
                               props)))))
                w2).
  unfold scrapeNBAData, try_catch, scrape_steps.
  unfold bind at 1. rewrite Ld.
  unfold bind at 1. rewrite G.
  unfold bind at 1. unfold lift at 1, other_sports.
  cbn [get_prop]. rewrite Lk. cbn [as_array].
  rewrite (array_filter_total prior NN).
  unfold bind at 1. unfold lift at 1. cbn [set_prop].
  unfold bind at 1. unfold fs_writeFileSync, JSON_stringify.
  rewrite Wr2, Wr. reflexivity.
Qed.

Lemma scrape_succeeds_witness :
  exists ps w', scrapeNBAData Scenario.office = (Ok ps, w').
Proof.
  apply (scrape_succeeds Scenario.office 0 (JSDate.Day Scenario.evening)
           (JSDate.Day Scenario.evening)
           [Scenario.stale_center; Scenario.quarterback]).
  - reflexivity.
  - reflexivity.
  - repeat constructor; discriminate.
  - vm_compute. split; [discriminate | reflexivity].
  - split; [reflexivity |]. intros j _. split; reflexivity.
Defined.

(** ** Dates and values of a series *)

Lemma length_append_string (a b : string) :
  String.length (a ++ b) = (String.length a + String.length b)%nat.
Proof.
  induction a as [| c a IH]; cbn; [reflexivity | rewrite IH; reflexivity].
Qed.

Lemma length_digits (w : nat) (n : Z) : String.length (JSDate.digits w n) = w.
Proof.
  revert n. induction w as [| w IH]; intros n; cbn [JSDate.digits];
    [reflexivity |].
  rewrite length_append_string, IH. cbn. lia.
Qed.

Lemma isoDay_length (d : Z) :
  JSDate.DayFromYear 0 <= d < JSDate.DayFromYear 10000 ->
  String.length (isoDay d) = 10%nat.
Proof.
  intros R. unfold isoDay, JSDate.isoDate, JSDate.isoYear, JSDate.YearFromTime.
  rewrite JSDateFacts.Day_of_days.
  pose proof (YearFromDay_four_digits d R) as Y.
  replace ((0 <=? JSDate.YearFromDay d) && (JSDate.YearFromDay d <=? 9999))
    with true by (symmetry; apply andb_true_iff; split; apply Z.leb_le; lia).
  rewrite !length_append_string, !length_digits. reflexivity.
Qed.

(** X3.  Where the offset from UTC does not change and the clock stays
    within one day of a four-digit year, a series is dated with the 31
    consecutive days that end on the UTC day of the run, in strictly
    increasing order, each in the ten characters of [YYYY-MM-DD]. *)
Theorem steady_zone_dates (o D L : Z) (mn mx : Num.number) (w : world) :
  JSDate.DayFromYear 0 + 31 <= D < JSDate.DayFromYear 10000 ->
  steady_days w o D L 32 ->
  exists points w',
    generateHistoricalData mn mx w = (Ok points, w')
    /\ map date_of points
       = map (fun i => isoDay (D - Z.of_nat i)) (count_down 31)
    /\ ascending (map date_of points)
    /\ Forall (fun s => String.length s = 10%nat) (map date_of points).
Proof.
  intros R S.
  assert (R' : - 100000000 + 31 <= D < 100000000).
  { revert R. unfold JSDate.DayFromYear. cbn. lia. }
  destruct (generateHistoricalData_steady o D L mn mx w R' S)
    as (points & w' & E & M).
  exists points, w'. split; [exact E |]. split; [exact M |]. split.
  - rewrite M. apply ascending_count_down. lia.
  - rewrite M. apply Forall_forall. intros s Hs.
    apply in_map_iff in Hs. destruct Hs as (i & <- & Hi).
    unfold count_down in Hi. apply in_rev, in_seq in Hi.
    apply isoDay_length. lia.
Qed.

Lemma steady_zone_dates_witness :
  ascending
    (map date_of
       (returned (generateHistoricalData (Num.of_Z 25) (Num.of_Z 35)
                    Scenario.office))).
Proof.
  destruct (steady_zone_dates 0 (JSDate.Day Scenario.evening)
              (JSDate.Day Scenario.evening) (Num.of_Z 25) (Num.of_Z 35)
              Scenario.office)
    as (points & w' & E & _ & A & _).
  - vm_compute. split; [discriminate | reflexivity].
  - split; [reflexivity |]. intros j _. split; reflexivity.
  - unfold returned. rewrite E. exact A.
Defined.

(** *** Values *)

(** X4.  With [Math.random()] in [[0, 1)], every value a successful scrape
    returns lies within the bounds configured for its player and metric. *)
Theorem scraped_values_within (w : world) (ps : list json) (w' : world) :
  (forall j, Num.unit_interval (entropy w j) = true) ->
  scrapeNBAData w = (Ok ps, w') ->
  exists p1 p2,
    ps = [p1; p2]
    /\ Forall (fun pt => within 25 35 (value_of pt) = true)
              (series "points" p1)
    /\ Forall (fun pt => within 7 10 (value_of pt) = true)
              (series "rebounds" p1)
    /\ Forall (fun pt => within 7 11 (value_of pt) = true)
              (series "assists" p1)
    /\ Forall (fun pt => within 20 33 (value_of pt) = true)
              (series "points" p2)
    /\ Forall (fun pt => within 4 7 (value_of pt) = true)
              (series "rebounds" p2)
    /\ Forall (fun pt => within 5 8 (value_of pt) = true)
              (series "assists" p2).
Proof.
  intros _ H. apply scrape_ok in H.
  destruct (scrape_steps_ok _ _ _ H) as (_ & w2 & _ & _ & _ & G & _).
  clear H. unfold dummyPlayers in G.
  repeat
    (unfold bind at 1 in G;
     match type of G with
     | context [generateHistoricalData (Num.of_Z ?mn) (Num.of_Z ?mx) ?v] =>
         let E := fresh "E" in
         destruct (generateHistoricalData (Num.of_Z mn) (Num.of_Z mx) v)
           as [[? | ?] ?] eqn:E; [| discriminate];
         apply (generateHistoricalData_bounded mn mx v _ _
                  ltac:(vm_compute; reflexivity)) in E;
         apply bounded_within in E
     end).
  inversion G; subst. do 2 eexists. split; [reflexivity |].
  cbn [series field lookup String.eqb Ascii.eqb Bool.eqb player].
  repeat split; assumption.
Qed.

Lemma scraped_values_within_witness :
  Forall (fun pt => within 25 35 (value_of pt) = true)
    (series "points" (hd JNull Scenario.office_players)).
Proof.
  destruct (scraped_values_within Scenario.office Scenario.office_players
              (snd (scrapeNBAData Scenario.office)))
    as (p1 & p2 & E & F & _).
  - intros j. reflexivity.
  - vm_compute. reflexivity.
  - rewrite E. exact F.
Defined.

(** ** What an error of the scrape tells *)

Lemma generateHistoricalData_throws (mn mx : Num.number) (w : world)
  (e : js_error) (w' : world) :
  generateHistoricalData mn mx w = (Throw e, w') -> e = RangeError.
Proof.
  unfold generateHistoricalData, bind. unfold JSDate.now at 1. cbv iota beta.
  apply past_days_throws.
Qed.

Lemma dummyPlayers_throws (w : world) (e : js_error) (w' : world) :
  dummyPlayers w = (Throw e, w') -> e = RangeError.
Proof.
  unfold dummyPlayers. intros H.
  repeat
    (unfold bind at 1 in H;
     match type of H with
     | context [generateHistoricalData ?mn ?mx ?v] =>
         let G := fresh "G" in
         destruct (generateHistoricalData mn mx v) as [[? | ?] ?] eqn:G;
         [| inversion H; subst; eapply generateHistoricalData_throws; eauto]
     end).
  discriminate.
Qed.

Lemma array_filter_throws (items : list json) (e : js_error) :
  array_filter not_NBA items = Throw e -> e = TypeError /\ In JNull items.
Proof.
  induction items as [| p rest IH]; cbn; [discriminate |].
  unfold not_NBA at 1.
  destruct (get_prop p "sport") as [sport | e0] eqn:G.
  - destruct (array_filter not_NBA rest) as [kept | e1]; [discriminate |].
    intros H. inversion H; subst. destruct (IH eq_refl) as [-> I]. auto.
  - intros H. inversion H; subst.
    destruct p; cbn in G; try discriminate. inversion G. auto.
Qed.

Lemma other_sports_throws (data : json) (e : js_error) :
  other_sports data = Throw e ->
  e = TypeError
  /\ (stored_players (Stored (Wellformed data)) = None
      \/ exists items,
           stored_players (Stored (Wellformed data)) = Some items
           /\ In JNull items).
Proof.
  unfold other_sports. intros H.
  destruct data as [| b | n | s | l | props]; cbn in H;
    try (inversion H; subst; split; [reflexivity | left; reflexivity]).
  cbn [stored_players].
  destruct (lookup "players" props) as [[| b | n | s | items | o] |];
    cbn in H;
    try (inversion H; subst; split; [reflexivity | left; reflexivity]).
  destruct (array_filter_throws _ _ H) as [-> I]. eauto.
Qed.

(** X5.  The error a failed scrape raises tells what was wrong: a SyntaxError,
    that the file is not JSON; a TypeError, that it is JSON without a usable
    [players] list (no array there, or a [null] in it); a SystemError, that
    the file could not be read or written; a RangeError, that a date was
    out of range.  The first is raised before the clock is read, the
    TypeError only after all six series have been generated. *)
Theorem scrape_error_tells_cause (w : world) (e : js_error) (w' : world) :
  scrapeNBAData w = (Throw e, w') ->
  match e with
  | SyntaxError =>
      (exists raw, disk w = Stored (Malformed raw)) /\ ticks w' = ticks w
  | TypeError =>
      (exists data, disk w = Stored (Wellformed data))
      /\ (stored_players (disk w) = None
          \/ exists items, stored_players (disk w) = Some items
                           /\ In JNull items)
      /\ ticks w' = (ticks w + 192)%nat
  | SystemError => disk w = Unreadable \/ writable w = false
  | RangeError =>
      disk w = Missing \/ exists data, disk w = Stored (Wellformed data)
  end.
Proof.
  unfold scrapeNBAData, try_catch.
  destruct (scrape_steps w) as [[a | e0] w1] eqn:S; [discriminate |].
  cbn. intros H. inversion H; subst e0 w'; clear H. cbn [ticks].
  unfold scrape_steps in S. unfold bind at 1 in S.
  destruct (load_data w) as [[data | e0] w0] eqn:L.
  2:{ inversion S; subst e0 w0; clear S.
      unfold load_data, bind, fs_existsSync, fs_readFileSync, lift, ret in L.
      cbv beta in L.
      destruct (disk w) as [| | [raw | v]] eqn:Dk; cbn in L; rewrite ?Dk in L;
        cbn in L; inversion L; subst; eauto. }
  destruct (load_data_inv _ _ _ L) as [-> Ld].
  unfold bind at 1 in S.
  destruct (dummyPlayers w) as [[dummy | e0] w2] eqn:G.
  2:{ inversion S; subst e0 w2; clear S.
      rewrite (dummyPlayers_throws _ _ _ G).
      destruct Ld as [[Dk _] | Dk]; eauto. }
  assert (T : ticks w2 = (ticks w + 192)%nat /\ writable w2 = writable w).
  { destruct (quiet_dummyPlayers _ _ _ G) as (_ & _ & Wr & _).
    split; [apply (dummyPlayers_cursor _ _ _ G) | exact Wr]. }
  destruct T as [T Wr].
  unfold bind at 1 in S. unfold lift at 1 in S.
  destruct (other_sports data) as [kept | e0] eqn:O.
  2:{ inversion S; subst e0 w1; clear S.
      destruct (other_sports_throws _ _ O) as [-> C].
      destruct Ld as [[Dk ->] | Dk].
      - cbn in O. discriminate.
      - rewrite Dk. split; [eauto |]. split; [exact C | exact T]. }
  destruct (other_sports_inv _ _ O) as (props & items & -> & _ & _).
  unfold bind at 1 in S. unfold lift at 1 in S. cbn [set_prop] in S.
  unfold bind at 1 in S. unfold fs_writeFileSync in S.
  destruct (writable w2) eqn:W2; [discriminate |].
  inversion S; subst. right. congruence.
Qed.

Lemma scrape_error_tells_cause_witness :
  (exists raw, disk Scenario.broken = Stored (Malformed raw))
  /\ ticks (snd (scrapeNBAData Scenario.broken)) = 0%nat.
Proof.
  apply (scrape_error_tells_cause Scenario.broken SyntaxError
           (snd (scrapeNBAData Scenario.broken))).
  vm_compute. reflexivity.
Defined.

(** ** What a successful scrape leaves of the data object *)

Lemma lookup_assign_other (k k0 : string) (v : json)
  (props : list (string * json)) :
  k <> k0 -> lookup k (assign k0 v props) = lookup k props.
Proof.
  intros N. induction props as [| [k' v'] rest IH]; cbn.
  - destruct (String.eqb k k0) eqn:E; [| reflexivity].
    apply String.eqb_eq in E. contradiction.
  - destruct (String.eqb k0 k') eqn:E0; cbn.
    + apply String.eqb_eq in E0. subst k'.
      destruct (String.eqb k k0) eqn:E; [| reflexivity].
      apply String.eqb_eq in E. contradiction.
    + rewrite IH. reflexivity.
Qed.

Lemma keys_assign (k : string) (v x : json) (props : list (string * json)) :
  lookup k props = Some x -> map fst (assign k v props) = map fst props.
Proof.
  induction props as [| [k' v'] rest IH]; cbn; [discriminate |].
  destruct (String.eqb k k') eqn:E; cbn.
  - apply String.eqb_eq in E. subst. reflexivity.
  - intros H. rewrite (IH H). reflexivity.
Qed.

(** X6.  A successful scrape of an existing data file rewrites the whole
    object through [JSON.stringify]: the stored object keeps all its
    properties, in their order, and every property other than [players]
    holds its prior value as [JSON.stringify] writes it.  That is the prior
    value itself, unless it contains a [-0] (written [0]) or a numeral
    beyond the range of a Number (read as Infinity, written [null]). *)
Theorem scrape_keeps_other_properties
  (w : world) (props : list (string * json)) (ps : list json) (w' : world) :
  disk w = Stored (Wellformed (JObj props)) ->
  scrapeNBAData w = (Ok ps, w') ->
  exists props',
    disk w' = Stored (Wellformed (JObj props'))
    /\ map fst props' = map fst props
    /\ (forall k, k <> "players" ->
                  lookup k props' = option_map written (lookup k props))
    /\ (forall k v, k <> "players" -> lookup k props = Some v ->
                    plain v = true -> lookup k props' = Some v).
Proof.
  intros D H.
  destruct (scrape_disk _ _ _ H)
    as (props0 & items & [[M _] | D0] & P & _ & D'); [congruence |].
  rewrite D in D0. inversion D0; subst props0; clear D0.
  assert (L : forall k, k <> "players" ->
                lookup k (assign "players"
                            (JArr (ps ++ map written
                                           (filter other_sport items)))
                            (written_props props))
                = option_map written (lookup k props)).
  { intros k N. rewrite lookup_assign_other by exact N.
    apply lookup_written. }
  eexists. split; [exact D' |]. split; [| split].
  - rewrite (keys_assign "players" _ (written (JArr items))).
    + apply keys_written.
    + rewrite lookup_written, P. reflexivity.
  - exact L.
  - intros k v N Lk Pl. rewrite (L k N), Lk. cbn.
    rewrite (written_plain v Pl). reflexivity.
Qed.

Lemma scrape_keeps_other_properties_witness :
  exists props',
    disk (snd (scrapeNBAData Fixture.annotated))
    = Stored (Wellformed (JObj props'))
    /\ map fst props' = ["source"; "players"; "version"]
    /\ lookup "source" props' = Some (JStr "entered by hand")
    /\ lookup "version" props' = Some (JNum (Num.of_Z 3)).
Proof.
  destruct (scrape_keeps_other_properties Fixture.annotated
              [("source", JStr "entered by hand");
               ("players", JArr [Scenario.quarterback]);
               ("version", JNum (Num.of_Z 3))]
              (returned (scrapeNBAData Fixture.annotated))
              (snd (scrapeNBAData Fixture.annotated)))
    as (props' & D & K & _ & Q).
  - reflexivity.
  - vm_compute. reflexivity.
  - exists props'. split; [exact D |]. split; [exact K |]. split.
    + apply (Q "source"); [discriminate | reflexivity | reflexivity].
    + apply (Q "version"); [discriminate | reflexivity | reflexivity].
Defined.

(** ** The footprint of a successful run *)

(** X7.  A successful run reads the clock 192 times (six series, each one
    reading for today and 31 readings for its points) and draws 186 random
    numbers; it prints nothing, sends nothing, and changes nothing of the
    host but the data file. *)
Theorem scrape_footprint (w : world) (ps : list json) (w' : world) :
  scrapeNBAData w = (Ok ps, w') ->
  ticks w' = (ticks w + 192)%nat
  /\ draws w' = (draws w + 186)%nat
  /\ console w' = console w
  /\ same_host w w'.
Proof.
  intros H. apply scrape_ok in H.
  destruct (scrape_steps_ok _ _ _ H)
    as (data & w2 & kept & data' & _ & G & _ & _ & _ & ->).
  destruct (dummyPlayers_cursor _ _ _ G) as [T R].
  destruct (quiet_dummyPlayers _ _ _ G) as (_ & C & S).
  cbn. auto.
Qed.

Lemma scrape_footprint_witness :
  ticks (snd (scrapeNBAData Scenario.office)) = 192%nat
  /\ draws (snd (scrapeNBAData Scenario.office)) = 186%nat
  /\ console (snd (scrapeNBAData Scenario.office)) = []
  /\ same_host Scenario.office (snd (scrapeNBAData Scenario.office)).
Proof.
  apply (scrape_footprint Scenario.office
           (returned (scrapeNBAData Scenario.office))
           (snd (scrapeNBAData Scenario.office))).
  vm_compute. reflexivity.
Defined.
(** ** The returned players and the data file *)

(** X8.  What a successful run returns does not depend on the data file: two
    hosts that see the same clock readings and random draws in the same
    time zone get the same players, whatever their files hold. *)
Theorem returned_players_ignore_file
  (w v : world) (ps qs : list json) (w' v' : world) :
  replays w v ->
  scrapeNBAData w = (Ok ps, w') ->
  scrapeNBAData v = (Ok qs, v') ->
  qs = ps.
Proof.
  intros R Hw Hv. apply scrape_ok in Hw, Hv.
  destruct (scrape_steps_ok _ _ _ Hw) as (_ & w2 & _ & _ & _ & Gw & _).
  destruct (scrape_steps_ok _ _ _ Hv) as (_ & v2 & _ & _ & _ & Gv & _).
  destruct (replayable_dummyPlayers w v R) as [E _].
  rewrite Gw, Gv in E. cbn in E. inversion E. reflexivity.
Qed.

Lemma returned_players_ignore_file_witness :
  returned (scrapeNBAData Fixture.annotated)
  = returned (scrapeNBAData Scenario.office).
Proof.
  apply (returned_players_ignore_file Scenario.office Fixture.annotated
           (returned (scrapeNBAData Scenario.office))
           (returned (scrapeNBAData Fixture.annotated))
           (snd (scrapeNBAData Scenario.office))
           (snd (scrapeNBAData Fixture.annotated))).
  - repeat split.
  - vm_compute. reflexivity.
  - vm_compute. reflexivity.
Defined.

(** ** The players routes *)

Lemma get_players_host (w : world) : snd (get_players w) = w.
Proof.
  unfold get_players, guarded, bind, fs_readFileSync, lift, ret.
  destruct (disk w) as [| | [raw | v]]; cbn; try reflexivity.
  destruct (get_prop v "players"); reflexivity.
Qed.

Lemma get_player_host (id : string) (w : world) : snd (get_player id w) = w.
Proof.
  unfold get_player, guarded, bind, fs_readFileSync, lift, ret.
  destruct (disk w) as [| | [raw | v]]; cbn; try reflexivity.
  destruct (get_prop v "players") as [players | e]; cbn; [| reflexivity].
  destruct (as_array players) as [items | e]; cbn; [| reflexivity].
  destruct (array_find (id_matches id) items) as [[p |] | e]; reflexivity.
Qed.

Lemma handle_read_host (r : request) (w : world) :
  r <> PostNba -> snd (handle r w) = w.
Proof.
  destruct r; cbn; intros N;
    [contradiction | reflexivity | apply get_players_host
    | apply get_player_host].
Qed.

(** X9.  [GET /] never changes the host.  It answers 200 exactly when the file
    holds a JSON value other than [null], and 500 otherwise; it does not
    ask for [players] to be a list, and sends the list as stored when it
    is one. *)
Theorem get_players_answers (w : world) :
  snd (get_players w) = w
  /\ (status (fst (get_players w)) = 200
      <-> exists v, disk w = Stored (Wellformed v) /\ v <> JNull)
  /\ (status (fst (get_players w)) <> 200
      -> status (fst (get_players w)) = 500)
  /\ forall props v,
       disk w = Stored (Wellformed (JObj props)) ->
       lookup "players" props = Some v ->
       fst (get_players w) = respond 200 (Value v).
Proof.
  split; [apply get_players_host |].
  unfold get_players, guarded, bind, fs_readFileSync, lift, ret.
  destruct (disk w) as [| | [raw | v]]; cbn.
  1-3: split; [split; [discriminate | intros (v & E & _); discriminate] |];
       split; [reflexivity | intros ? ? E; discriminate].
  destruct v; cbn;
    (split; [split; [intros _; eexists; split; [reflexivity | discriminate]
                    | reflexivity] |]) ||
    (split; [split; [discriminate
                    | intros (v & E & N); inversion E; subst;
                      contradiction] |]);
    (split; [try reflexivity; intros N; contradiction |]);
    intros props0 v0 E; inversion E; subst.
  intros ->. reflexivity.
Qed.

Lemma get_players_answers_witness :
  fst (get_players Scenario.office)
  = respond 200 (Value (JArr [Scenario.stale_center; Scenario.quarterback])).
Proof.
  apply (proj2 (proj2 (proj2 (get_players_answers Scenario.office)))
           [("players", JArr [Scenario.stale_center; Scenario.quarterback])]);
    reflexivity.
Defined.

Lemma get_player_found (w : world) (id : string) (items : list json) :
  readable (disk w) items ->
  get_player id w
  = (match find (has_id (parseInt id)) items with
     | Some p => respond 200 (Value p)
     | None => not_found
     end, w).
Proof.
  intros [(props & D & P) NN].
  unfold get_player, guarded, bind, fs_readFileSync, lift, ret.
  rewrite D. cbn. rewrite P. cbn. rewrite (array_find_id id items NN).
  destruct (find (has_id (parseInt id)) items) as [p |] eqn:F;
    [| reflexivity].
  apply find_some in F. destruct F as [_ F].
  rewrite (has_id_truthy _ _ F). reflexivity.
Qed.

Lemma array_find_hole (id : string) (before after : list json) :
  Forall (fun p => p <> JNull) before ->
  array_find (id_matches id) (before ++ JNull :: after)
  = match find (has_id (parseInt id)) before with
    | Some p => Ok (Some p)
    | None => Throw TypeError
    end.
Proof.
  induction 1 as [| p rest Hp _ IH]; cbn; [reflexivity |].
  assert (E : id_matches id p = Ok (has_id (parseInt id) p)).
  { unfold id_matches, has_id, field. destruct p; cbn; congruence. }
  rewrite E. destruct (has_id (parseInt id) p); [reflexivity | exact IH].
Qed.

Lemma array_filter_hole (before after : list json) :
  succeeded (array_filter not_NBA (before ++ JNull :: after)) = false.
Proof.
  induction before as [| p rest IH]; cbn; [reflexivity |].
  destruct (not_NBA p); [| reflexivity].
  destruct (array_filter not_NBA (rest ++ JNull :: after));
    [discriminate | reflexivity].
Qed.

(** X10.  A [null] in the stored list hides the players behind it: a lookup that
    finds its player before the [null] answers as usual, every other one
    is answered 500, and none 404.  [GET /] still answers with the whole
    list; no scrape succeeds, so the file stays as it is. *)
Theorem null_entry_hides_later_players
  (w : world) (id : string) (props : list (string * json))
  (before after : list json) :
  disk w = Stored (Wellformed (JObj props)) ->
  lookup "players" props = Some (JArr (before ++ JNull :: after)) ->
  Forall (fun p => p <> JNull) before ->
  get_player id w
  = (match find (has_id (parseInt id)) before with
     | Some p => respond 200 (Value p)
     | None => respond 500 (Failure "Error reading player data" TypeError)
     end, w)
  /\ fst (get_players w)
     = respond 200 (Value (JArr (before ++ JNull :: after)))
  /\ succeeded (fst (scrapeNBAData w)) = false
  /\ disk (snd (scrapeNBAData w)) = disk w.
Proof.
  intros D P NN. split; [| split].
  - unfold get_player, guarded, bind, fs_readFileSync, lift, ret.
    rewrite D. cbn. rewrite P. cbn. rewrite (array_find_hole id _ _ NN).
    destruct (find (has_id (parseInt id)) before) as [p |] eqn:F;
      [| reflexivity].
    apply find_some in F. destruct F as [_ F].
    rewrite (has_id_truthy _ _ F). reflexivity.
  - unfold get_players, guarded, bind, fs_readFileSync, lift, ret.
    rewrite D. cbn. rewrite P. reflexivity.
  - destruct (scrapeNBAData w) as [[ps | e] w'] eqn:S.
    + exfalso. apply scrape_ok in S.
      destruct (scrape_steps_ok _ _ _ S)
        as (data & w2 & kept & data' & L & _ & O & _).
      destruct (load_data_inv _ _ _ L) as (_ & [(M & _) | D0]);
        [congruence |].
      rewrite D in D0. inversion D0; subst data; clear D0.
      unfold other_sports in O. cbn in O. rewrite P in O. cbn in O.
      pose proof (array_filter_hole before after) as A.
      rewrite O in A. discriminate.
    + split; [reflexivity |]. apply (scrape_fail_early _ _ _ S).
      intros prior St F. rewrite D in St. cbn in St. rewrite P in St.
      inversion St; subst prior. apply Forall_app in F.
      destruct F as [_ F]. inversion F; subst. congruence.
Qed.

Lemma null_entry_hides_later_players_witness :
  get_player "7" Fixture.holed
  = (respond 200 (Value Scenario.quarterback), Fixture.holed)
  /\ get_player "1" Fixture.holed
     = (respond 500 (Failure "Error reading player data" TypeError),
        Fixture.holed)
  /\ succeeded (fst (scrapeNBAData Fixture.holed)) = false.
Proof.
  assert (NN : Forall (fun p => p <> JNull) [Scenario.quarterback])
    by (repeat constructor; discriminate).
  pose proof (fun id =>
    null_entry_hides_later_players Fixture.holed id
      [("players", JArr [Scenario.quarterback; JNull])]
      [Scenario.quarterback] [] eq_refl eq_refl NN) as H.
  split; [exact (proj1 (H "7")) |].
  split; [exact (proj1 (H "1")) |].
  exact (proj1 (proj2 (proj2 (H "1")))).
Defined.

(** ** What an id parameter selects *)

Lemma strict_eq_NaN (n : Num.number) : Num.strict_eq n Num.NaN = false.
Proof. destruct n as [[|] | [|] | | [|] m e]; reflexivity. Qed.

(** X11.  An id parameter that does not start (after white space and a sign)
    with a digit selects nobody: [parseInt] gives NaN, which no stored id
    equals, so a readable file is answered 404 whatever it holds. *)
Theorem unparsable_id_finds_nobody
  (w : world) (id : string) (items : list json) :
  readable (disk w) items ->
  parseInt id = Num.NaN ->
  get_player id w = (not_found, w).
Proof.
  intros R N. rewrite (get_player_found w id items R), N.
  replace (find (has_id Num.NaN) items) with (@None json); [reflexivity |].
  symmetry. clear. induction items as [| p rest IH]; cbn; [reflexivity |].
  replace (has_id Num.NaN p) with false; [exact IH |].
  unfold has_id, is_number. destruct (field "id" p) as [[| | n | | |] |];
    try reflexivity.
  symmetry. apply strict_eq_NaN.
Qed.

Lemma unparsable_id_finds_nobody_witness :
  get_player "seven" Scenario.office = (not_found, Scenario.office).
Proof.
  apply (unparsable_id_finds_nobody Scenario.office "seven"
           [Scenario.stale_center; Scenario.quarterback]).
  - split.
    + eexists. split; reflexivity.
    + repeat constructor; discriminate.
  - vm_compute. reflexivity.
Defined.
(** ** Lenient ids *)

Lemma decimal_digit_cases (c : ascii) :
  decimal_digit c = true ->
  In c ["0"; "1"; "2"; "3"; "4"; "5"; "6"; "7"; "8"; "9"]%char.
Proof.
  destruct c as [[|] [|] [|] [|] [|] [|] [|] [|]]; vm_compute;
    intros H; try discriminate H; tauto.
Qed.

Lemma read_digits_suffix (s : string) (c : ascii) (rest : string)
  (acc : option Z) :
  numeral s = true ->
  digit_value 10 c = None ->
  read_digits 10 (s ++ String c rest) acc = read_digits 10 s acc.
Proof.
  intros N C. revert acc.
  induction s as [| a s IH]; intros acc; [discriminate |].
  assert (Da : decimal_digit a = true /\ (s = "" \/ numeral s = true)).
  { cbn in N. destruct s; [auto |].
    apply andb_prop in N. destruct N; auto. }
  destruct Da as [Da Ns]. unfold decimal_digit in Da.
  cbn [append read_digits].
  destruct (digit_value 10 a) as [v |]; [| discriminate].
  destruct Ns as [-> | Ns].
  - cbn [append read_digits]. rewrite C. reflexivity.
  - apply IH. exact Ns.
Qed.

Lemma parseInt_numeral (a : ascii) (t : string) :
  decimal_digit a = true ->
  (forall t', t <> String "x" t') ->
  (forall t', t <> String "X" t') ->
  parseInt (String a t)
  = match read_digits 10 (String a t) None with
    | None => Num.NaN
    | Some 0 => S754_zero false
    | Some n => Num.of_Z n
    end.
Proof.
  intros Da Nx NX. apply decimal_digit_cases in Da.
  cbv [In] in Da.
  destruct Da
    as [<- | [<- | [<- | [<- | [<- | [<- | [<- | [<- | [<- | [<- | []]]]]]]]]]];
    try reflexivity.
  destruct t as [| b t']; [reflexivity |].
  destruct b as [[|] [|] [|] [|] [|] [|] [|] [|]]; try reflexivity.
  - exfalso. exact (Nx t' eq_refl).
  - exfalso. exact (NX t' eq_refl).
Qed.

Lemma numeral_head (a : ascii) (s : string) :
  numeral (String a s) = true ->
  decimal_digit a = true
  /\ (forall t', s <> String "x" t') /\ (forall t', s <> String "X" t').
Proof.
  cbn. destruct s as [| b s'].
  - intros Da. split; [exact Da |]. split; intros t' E; discriminate E.
  - intros N. apply andb_prop in N. destruct N as [Da N].
    split; [exact Da |].
    assert (Db : decimal_digit b = true).
    { cbn in N. destruct s'; [exact N |]. apply andb_prop in N. apply N. }
    split; intros t' E; inversion E; subst b; vm_compute in Db; discriminate.
Qed.

Lemma parseInt_suffix (s : string) (c : ascii) (rest : string) :
  numeral s = true ->
  digit_value 10 c = None ->
  c <> "x"%char -> c <> "X"%char ->
  parseInt (s ++ String c rest) = parseInt s.
Proof.
  intros N C Nx NX.
  pose proof (read_digits_suffix s c rest None N C) as R.
  destruct s as [| a s]; [discriminate |].
  destruct (numeral_head a s N) as (Da & Sx & SX).
  rewrite (parseInt_numeral a s Da Sx SX).
  cbn [append] in *. rewrite parseInt_numeral, R; [reflexivity | exact Da | |].
  - intros t' E. destruct s as [| b s'].
    + cbn in E. inversion E. contradiction.
    + cbn in E. inversion E. subst b. exact (Sx s' eq_refl).
  - intros t' E. destruct s as [| b s'].
    + cbn in E. inversion E. contradiction.
    + cbn in E. inversion E. subst b. exact (SX s' eq_refl).
Qed.

(** X12.  The id parameter is read leniently: what follows a leading decimal
    numeral, from the first character that is neither a digit nor an [x]
    on, is ignored.  [/players/1.5], [/players/1-old] and [/players/1]
    are answered alike, on every host. *)
Theorem id_suffix_is_ignored
  (w : world) (id : string) (c : ascii) (rest : string) :
  numeral id = true ->
  digit_value 10 c = None ->
  c <> "x"%char -> c <> "X"%char ->
  get_player (id ++ String c rest) w = get_player id w.
Proof.
  intros N C Nx NX.
  unfold get_player, id_matches.
  rewrite (parseInt_suffix id c rest N C Nx NX). reflexivity.
Qed.

Lemma id_suffix_is_ignored_witness :
  get_player "7.5" Scenario.office = get_player "7" Scenario.office.
Proof.
  apply (id_suffix_is_ignored Scenario.office "7" "."%char "5").
  - reflexivity.
  - reflexivity.
  - discriminate.
  - discriminate.
Defined.

(** ** Start-up *)

(** X13.  Start-up fails only where there is no data file and none can be
    written; it leaves an existing file alone, whatever it holds, readable
    or not. *)
Theorem boot_checks_existence_only (w : world) :
  (disk w <> Missing -> boot w = Ok (serving w))
  /\ forall e, boot w = Throw e
               <-> e = SystemError /\ disk w = Missing /\ writable w = false.
Proof.
  unfold boot, players_init, bind, fs_existsSync, fs_writeFileSync, ret.
  destruct (disk w) eqn:D; cbn; rewrite ?D.
  - split; [congruence |]. intros e. destruct (writable w); cbn.
    + split; [discriminate | intros (_ & _ & E); discriminate].
    + split; [intros E; inversion E; auto | intros (-> & _); reflexivity].
  - split; [reflexivity |]. intros e.
    split; [discriminate | intros (_ & E & _); discriminate].
  - split; [reflexivity |]. intros e.
    split; [discriminate | intros (_ & E & _); discriminate].
Qed.

Lemma boot_checks_existence_only_witness :
  boot Scenario.broken = Ok (serving Scenario.broken)
  /\ boot Fixture.locked = Throw SystemError.
Proof.
  split.
  - apply (proj1 (boot_checks_existence_only Scenario.broken)). discriminate.
  - apply (proj2 (boot_checks_existence_only Fixture.locked) SystemError).
    repeat split.
Defined.



(** ** The trigger route *)



(** ** Reading what a scrape wrote *)

Lemma id_matches_player (id : string) (i : Z) (name team position : string)
  (p r a : list json) :
  id_matches id (player i name team position p r a)
  = Ok (Num.strict_eq (Num.of_Z i) (parseInt id)).
Proof. reflexivity. Qed.

(** X16.  After a successful scrape the routes serve what it wrote: the list
    route answers with the two returned players followed by the retained
    ones, none of which is an NBA record, and the lookups of ids 1 and 2
    answer with the two returned players. *)
Theorem scrape_then_read (w : world) (ps : list json) (w' : world) :
  scrapeNBAData w = (Ok ps, w') ->
  exists p1 p2 kept,
    ps = [p1; p2]
    /\ Forall (fun p => other_sport p = true) kept
    /\ get_players w' = (respond 200 (Value (JArr (p1 :: p2 :: kept))), w')
    /\ get_player "1" w' = (respond 200 (Value p1), w')
    /\ get_player "2" w' = (respond 200 (Value p2), w').
Proof.
  intros H.
  destruct (scrape_disk _ _ _ H) as (props & items & _ & _ & _ & D').
  apply scrape_ok in H.
  destruct (scrape_steps_ok _ _ _ H) as (_ & w2 & _ & _ & _ & G & _).
  destruct (dummyPlayers_inv _ _ _ G)
    as (p1 & r1 & a1 & p2 & r2 & a2 & -> & _).
  do 2 eexists. exists (map written (filter other_sport items)).
  split; [reflexivity |].
  split; [apply Forall_other_sport_written, Forall_filter_other_sport |].
  cbn [app] in D'. split; [| split].
  - unfold get_players, guarded, bind, fs_readFileSync, lift, ret.
    rewrite D'. cbn [JSON_parse get_prop]. rewrite lookup_assign.
    reflexivity.
  - unfold get_player, guarded, bind, fs_readFileSync, lift, ret.
    rewrite D'. cbn [JSON_parse get_prop]. rewrite lookup_assign.
    cbn [as_array array_find]. rewrite id_matches_player.
    replace (Num.strict_eq (Num.of_Z 1) (parseInt "1")) with true
      by (vm_compute; reflexivity).
    reflexivity.
  - unfold get_player, guarded, bind, fs_readFileSync, lift, ret.
    rewrite D'. cbn [JSON_parse get_prop]. rewrite lookup_assign.
    cbn [as_array array_find]. rewrite !id_matches_player.
    replace (Num.strict_eq (Num.of_Z 1) (parseInt "2")) with false
      by (vm_compute; reflexivity).
    replace (Num.strict_eq (Num.of_Z 2) (parseInt "2")) with true
      by (vm_compute; reflexivity).
    reflexivity.
Qed.

Lemma scrape_then_read_witness :
  exists p1 p2 kept,
    Scenario.office_players = [p1; p2]
    /\ Forall (fun p => other_sport p = true) kept
    /\ get_players (snd (scrapeNBAData Scenario.office))
       = (respond 200 (Value (JArr (p1 :: p2 :: kept))),
          snd (scrapeNBAData Scenario.office))
    /\ get_player "1" (snd (scrapeNBAData Scenario.office))
       = (respond 200 (Value p1), snd (scrapeNBAData Scenario.office))
    /\ get_player "2" (snd (scrapeNBAData Scenario.office))
       = (respond 200 (Value p2), snd (scrapeNBAData Scenario.office)).
Proof.
  apply (scrape_then_read Scenario.office Scenario.office_players
           (snd (scrapeNBAData Scenario.office))).
  vm_compute. reflexivity.
Defined.

(** ** Traces of the server *)

Lemma run_cons (e : event) (evs : list event) (s : server) :
  run (e :: evs) s = run evs (step s e).
Proof. reflexivity. Qed.

(** X17.  Reads do not write: as long as no trigger is pending or arrives, the
    host stays exactly as it is, whatever is asked and whatever the file
    holds. *)
Theorem reads_never_write (s : server) (evs : list event) :
  Forall (fun r => r <> PostNba) (pending s ++ arrived evs) ->
  host (run evs s) = host s.
Proof.
  revert s. induction evs as [| e evs IH]; intros s F; [reflexivity |].
  rewrite run_cons.
  assert (G : host (step s e) = host s
              /\ Forall (fun r => r <> PostNba)
                   (pending (step s e) ++ arrived evs)).
  { unfold pending in *. destruct e as [r | |]; cbn in *.
    - split; [reflexivity |].
      destruct (active s); cbn in *; rewrite <- ?app_assoc; exact F.
    - destruct (active s) as [a |] eqn:A; [rewrite A; auto |].
      destruct (inbox s) as [| r rest] eqn:I; cbn; rewrite ?A, ?I; auto.
    - destruct (active s) as [a |] eqn:A; [| rewrite A; auto].
      destruct (handle a (host s)) as [resp w'] eqn:E. cbn.
      cbn in F. inversion F; subst. split; [| assumption].
      pose proof (handle_read_host a (host s) H1) as R.
      rewrite E in R. exact R. }
  destruct G as [E G]. rewrite (IH _ G). exact E.
Qed.

Lemma reads_never_write_witness :
  host (run Fixture.browsing (serving Scenario.office)) = Scenario.office.
Proof.
  apply (reads_never_write (serving Scenario.office) Fixture.browsing).
  repeat constructor; discriminate.
Defined.

Lemma handle_unusable (r : request) (w : world) :
  unusable (disk w) = true ->
  disk (snd (handle r w)) = disk w
  /\ (r <> GetStatus -> status (fst (handle r w)) = 500).
Proof.
  intros U. destruct r as [| | | id]; cbn.
  - rewrite post_nba_runs.
    destruct (scrapeNBAData w) as [[ps | e] w'] eqn:S; cbn.
    + exfalso. apply scrape_ok in S.
      destruct (scrape_steps_ok _ _ _ S) as (data & ? & ? & ? & L & _).
      destruct (load_data_inv _ _ _ L) as (_ & [(D & _) | D]);
        rewrite D in U; discriminate.
    + split; [| reflexivity]. apply (scrape_fail_early _ _ _ S).
      intros prior St. destruct (disk w) as [| | [raw | v]];
        discriminate.
  - split; [reflexivity | congruence].
  - rewrite (f_equal disk (get_players_host w)). split; [reflexivity |].
    intros _. unfold get_players, guarded, bind, fs_readFileSync, lift, ret.
    destruct (disk w) as [| | [raw | v]]; try discriminate; reflexivity.
  - rewrite (f_equal disk (get_player_host id w)). split; [reflexivity |].
    intros _. unfold get_player, guarded, bind, fs_readFileSync, lift, ret.
    destruct (disk w) as [| | [raw | v]]; try discriminate; reflexivity.
Qed.

(** X18.  A file that cannot be read or is not JSON is never repaired: whatever
    requests arrive, triggers included, the file stays as it is, and every
    answer but those of the status query is a 500. *)
Theorem unusable_file_is_never_repaired (w : world) (evs : list event) :
  unusable (disk w) = true ->
  disk (host (run evs (serving w))) = disk w
  /\ Forall (fun a => fst a <> GetStatus -> status (snd a) = 500)
       (outbox (run evs (serving w))).
Proof.
  intros U. induction evs as [| e evs IH] using rev_ind.
  - split; [reflexivity | constructor].
  - unfold run in *. rewrite fold_left_app. cbn [fold_left].
    destruct IH as [D F]. set (s := fold_left step evs (serving w)) in *.
    destruct e as [r | |]; cbn.
    + auto.
    + destruct (active s), (inbox s); cbn; auto.
    + destruct (active s) as [a |]; [| auto].
      destruct (handle a (host s)) as [resp w'] eqn:E. cbn.
      assert (U' : unusable (disk (host s)) = true) by (rewrite D; exact U).
      destruct (handle_unusable a (host s) U') as [D' R].
      rewrite E in D', R. cbn in D', R. split; [congruence |].
      apply Forall_app. split; [exact F |]. constructor; [| constructor].
      exact R.
Qed.

Lemma unusable_file_is_never_repaired_witness :
  disk (host (run Fixture.session (serving Scenario.broken)))
  = Scenario.broken_file
  /\ Forall (fun a => fst a <> GetStatus -> status (snd a) = 500)
       (outbox (run Fixture.session (serving Scenario.broken))).
Proof.
  apply (unusable_file_is_never_repaired Scenario.broken Fixture.session).
  reflexivity.
Defined.

Lemma handle_keeps_file (r : request) (w : world) :
  disk w <> Missing -> disk (snd (handle r w)) <> Missing.
Proof.
  intros N. destruct r as [| | | id]; cbn.
  - rewrite post_nba_runs.
    destruct (scrapeNBAData w) as [[ps | e] w'] eqn:S; cbn.
    + destruct (scrape_disk _ _ _ S) as (? & ? & _ & _ & _ & D).
      rewrite D. discriminate.
    + destruct (scrape_fail _ _ _ S)
        as (_ & _ & [D | (_ & _ & _ & [(raw & _ & D) | (_ & F)])]).
      * rewrite D. exact N.
      * rewrite D. discriminate.
      * destruct F as (? & ? & ? & ? & ? & _ & _ & _ & _ & D).
        rewrite D. discriminate.
  - exact N.
  - rewrite get_players_host. exact N.
  - rewrite get_player_host. exact N.
Qed.

(** X19.  Once the server has started there is a data file, and no request
    removes it: the scraper's branch for a missing file is never taken
    behind the routes. *)
Theorem booted_server_has_file (w : world) (s : server) (evs : list event) :
  boot w = Ok s -> disk (host (run evs s)) <> Missing.
Proof.
  intros B.
  assert (N : disk (host s) <> Missing).
  { revert B.
    unfold boot, players_init, bind, fs_existsSync, fs_writeFileSync, ret.
    destruct (disk w) eqn:D; cbn; rewrite ?D.
    - destruct (writable w); [| discriminate].
      intros E. inversion E. cbn. discriminate.
    - intros E. inversion E. cbn. congruence.
    - intros E. inversion E. cbn. congruence. }
  clear B. revert s N. induction evs as [| e evs IH]; intros s N; [exact N |].
  rewrite run_cons. apply IH.
  destruct e as [r | |]; cbn.
  - exact N.
  - destruct (active s), (inbox s); exact N.
  - destruct (active s) as [a |]; [| exact N].
    pose proof (handle_keeps_file a (host s) N) as K.
    destruct (handle a (host s)) as [resp w']. exact K.
Qed.

Lemma booted_server_has_file_witness :
  disk (host (run Fixture.session
                (serving (with_disk
                            (Stored (Wellformed (JObj [("players", JArr [])])))
                            Fixture.blank))))
  <> Missing.
Proof.
  apply (booted_server_has_file Fixture.blank). reflexivity.
Defined.

(** ** What no request does *)

Lemma scrape_same_host (w : world) (r : result (list json)) (w' : world) :
  scrapeNBAData w = (r, w') -> same_host w w'.
Proof.
  destruct r as [ps | e]; intros H.
  - apply scrape_ok in H.
    destruct (scrape_steps_ok _ _ _ H)
      as (data & w2 & kept & data' & _ & G & _ & _ & _ & ->).
    destruct (quiet_dummyPlayers _ _ _ G) as (_ & _ & S). exact S.
  - apply (scrape_fail _ _ _ H).
Qed.

Lemma handle_same_host (r : request) (w : world) :
  same_host w (snd (handle r w)).
Proof.
  destruct r as [| | | id]; cbn.
  - rewrite post_nba_runs.
    destruct (scrapeNBAData w) as [[ps | e] w'] eqn:S; cbn;
      apply (scrape_same_host _ _ _ S).
  - apply same_host_refl.
  - rewrite get_players_host. apply same_host_refl.
  - rewrite get_player_host. apply same_host_refl.
Qed.

(** X20.  No request, failed or not, sends anything over the network or
    changes the clock, the random source, the time zone or the
    permissions of the host: the server only ever reads the clock, draws
    random numbers, prints errors and rewrites its one file. *)
Theorem server_stays_on_host (s : server) (evs : list event) :
  same_host (host s) (host (run evs s)).
Proof.
  revert s. induction evs as [| e evs IH]; intros s; [apply same_host_refl |].
  rewrite run_cons. eapply same_host_trans; [| apply IH].
  destruct e as [r | |]; cbn.
  - apply same_host_refl.
  - destruct (active s), (inbox s); apply same_host_refl.
  - destruct (active s) as [a |]; [| apply same_host_refl].
    pose proof (handle_same_host a (host s)) as H.
    destruct (handle a (host s)) as [resp w']. exact H.
Qed.

Lemma handle_status (r : request) (w : world) :
  status (fst (handle r w)) = 200
  \/ status (fst (handle r w)) = 500
  \/ (exists id, r = GetPlayer id) /\ fst (handle r w) = not_found.
Proof.
  destruct r as [| | | id]; cbn.
  - rewrite post_nba_runs.
    destruct (scrapeNBAData w) as [[ps | e] w']; cbn; auto.
  - auto.
  - unfold get_players, guarded, bind, fs_readFileSync, lift, ret.
    destruct (disk w) as [| | [raw | v]]; cbn; auto.
    destruct (get_prop v "players"); cbn; auto.
  - unfold get_player, guarded, bind, fs_readFileSync, lift, ret.
    destruct (disk w) as [| | [raw | v]]; cbn; auto.
    destruct (get_prop v "players") as [players | e]; cbn; auto.
    destruct (as_array players) as [items | e]; cbn; auto.
    destruct (array_find (id_matches id) items) as [[p |] | e]; cbn; eauto.
    destruct (truthy p); cbn; eauto.
Qed.

(** X21.  Every answer the server sends has status 200 or 500, except the
    404 "Player not found" of a single-player lookup; the list route, the
    trigger and the status query never answer 404. *)
Theorem answers_are_200_404_500 (w : world) (evs : list event) :
  Forall (fun a =>
            status (snd a) = 200
            \/ status (snd a) = 500
            \/ (exists id, fst a = GetPlayer id) /\ snd a = not_found)
         (outbox (run evs (serving w))).
Proof.
  induction evs as [| e evs IH] using rev_ind; [constructor |].
  unfold run in *. rewrite fold_left_app. cbn [fold_left].
  set (s := fold_left step evs (serving w)) in *.
  destruct e as [r | |]; cbn.
  - exact IH.
  - destruct (active s), (inbox s); exact IH.
  - destruct (active s) as [a |]; [| exact IH].
    pose proof (handle_status a (host s)) as H.
    destruct (handle a (host s)) as [resp w']. cbn.
    apply Forall_app. split; [exact IH |]. constructor; [exact H | constructor].
Qed.

(** ** NBA records do not pile up *)

Lemma filter_none (f : json -> bool) (items : list json) :
  Forall (fun p => f p = true) items ->
  filter (fun p => negb (f p)) items = [].
Proof.
  induction 1 as [| p rest Hp _ IH]; cbn; [reflexivity |].
  rewrite Hp. exact IH.
Qed.

(** X22.  After every successful scrape the records of the file whose sport
    is "NBA" are exactly the two players the scrape returned, however many
    such records the file held before: runs replace, they do not append. *)
Theorem scrape_leaves_two_NBA_records
  (w : world) (ps : list json) (w' : world) :
  scrapeNBAData w = (Ok ps, w') ->
  exists items,
    stored_players (disk w') = Some items
    /\ filter (fun p => negb (other_sport p)) items = ps
    /\ List.length ps = 2%nat.
Proof.
  intros H.
  destruct (scrape_stored _ _ _ H) as (prior & _ & _ & D).
  apply scrape_ok in H.
  destruct (scrape_steps_ok _ _ _ H) as (_ & w2 & _ & _ & _ & G & _).
  destruct (dummyPlayers_inv _ _ _ G)
    as (p1 & r1 & a1 & p2 & r2 & a2 & -> & _).
  eexists. split; [exact D |]. split; [| reflexivity].
  cbn [app].
  match goal with
  | |- filter ?f (?a :: ?b :: ?l) = _ =>
      change (filter f (a :: b :: l)) with (a :: b :: filter f l)
  end.
  rewrite filter_none; [reflexivity |].
  apply Forall_other_sport_written, Forall_filter_other_sport.
Qed.

Lemma scrape_leaves_two_NBA_records_witness :
  exists items,
    stored_players (disk (snd (scrapeNBAData Scenario.office))) = Some items
    /\ filter (fun p => negb (other_sport p)) items = Scenario.office_players
    /\ List.length Scenario.office_players = 2%nat.
Proof.
  apply (scrape_leaves_two_NBA_records Scenario.office Scenario.office_players
           (snd (scrapeNBAData Scenario.office))).
  vm_compute. reflexivity.
Defined.

(** * Where the code departs from the specification *)

(** ** C1: running the scraper twice *)

(** C1, amended.  Two successful scrapes in a row store the same retained
    records behind their NBA records, and none of the retained records is
    an NBA record.  Each run returns and stores exactly two NBA records,
    ids 1 and 2, with the same names, teams and positions and with 31
    points in each of the series points, rebounds and assists, so the
    second run adds no record and no point to the first.  The points
    themselves are generated anew; the second run returns and stores what
    the first did when it sees the same clock readings and random draws. *)
Theorem rerun_regenerates_points
  (w : world) (ps1 : list json) (w1 : world) (ps2 : list json) (w2 : world) :
  scrapeNBAData w = (Ok ps1, w1) ->
  scrapeNBAData w1 = (Ok ps2, w2) ->
  exists kept,
    stored_players (disk w1) = Some (ps1 ++ kept)%list
    /\ stored_players (disk w2) = Some (ps2 ++ kept)%list
    /\ Forall (fun p => other_sport p = true) kept
    /\ map outline ps1
       = [(Some (JNum (Num.of_Z 1)), Some (JStr "LeBron James"),
           Some (JStr "Los Angeles Lakers"), Some (JStr "NBA"),
           Some (JStr "Forward"),
           [("points", 31%nat); ("rebounds", 31%nat); ("assists", 31%nat)]);
          (Some (JNum (Num.of_Z 2)), Some (JStr "Stephen Curry"),
           Some (JStr "Golden State Warriors"), Some (JStr "NBA"),
           Some (JStr "Guard"),
           [("points", 31%nat); ("rebounds", 31%nat); ("assists", 31%nat)])]
    /\ map outline ps2 = map outline ps1
    /\ (replays w w1 -> ps2 = ps1 /\ disk w2 = disk w1).
Proof.
  intros H1 H2.
  destruct (scrape_disk _ _ _ H1) as (props & items & _ & P & _ & D1).
  destruct (scrape_disk _ _ _ H2)
    as (props' & items' & [[M _] | D] & P' & _ & D2); [congruence |].
  rewrite D1 in D. inversion D; subst props'; clear D.
  rewrite lookup_assign in P'. inversion P'; subst items'; clear P'.
  apply scrape_ok in H1, H2.
  destruct (scrape_steps_ok _ _ _ H1) as (_ & v1 & _ & _ & _ & G1 & _).
  destruct (scrape_steps_ok _ _ _ H2) as (_ & v2 & _ & _ & _ & G2 & _).
  destruct (dummyPlayers_outline _ _ _ G1) as [F1 O1].
  destruct (dummyPlayers_outline _ _ _ G2) as [_ O2].
  set (kept := map written (filter other_sport items)) in *.
  assert (K : map written (filter other_sport (ps1 ++ kept)) = kept).
  { rewrite filter_app, F1. cbn [app]. unfold kept.
    rewrite filter_written, filter_other_sport_idem.
    apply map_written_idem. }
  rewrite K, assign_written, assign_assign, written_props_idem in D2.
  exists kept. split; [| split; [| split; [| split; [| split]]]].
  - rewrite D1. cbn. rewrite lookup_assign. reflexivity.
  - rewrite D2. cbn. rewrite lookup_assign. reflexivity.
  - apply Forall_other_sport_written, Forall_filter_other_sport.
  - exact O1.
  - congruence.
  - intros R. destruct (replayable_dummyPlayers w w1 R) as [E _].
    rewrite G1, G2 in E. cbn in E. inversion E; subst. split; congruence.
Qed.

Lemma rerun_regenerates_points_witness :
  returned Scenario.second_steady = returned Scenario.first_steady
  /\ disk (snd Scenario.second_steady) = disk (snd Scenario.first_steady).
Proof.
  destruct (rerun_regenerates_points
              Scenario.office (returned Scenario.first_steady)
              (snd Scenario.first_steady)
              (returned Scenario.second_steady)
              (snd Scenario.second_steady))
    as (kept & _ & _ & _ & _ & _ & R).
  - vm_compute. reflexivity.
  - vm_compute. reflexivity.
  - apply R. split; [reflexivity |].
    split; intros k; vm_compute; reflexivity.
Defined.

(** ** C2: triggers *)

Lemma served_handle (r : request) (w : world) : served r w = handle r w.
Proof.
  destruct r; try reflexivity. cbn. rewrite post_nba_runs. reflexivity.
Qed.

Lemma serve_all_snoc (rs : list request) (r : request) (w : world) :
  serve_all (rs ++ [r]) w
  = (fst (serve_all rs w) ++ [(r, fst (served r (snd (serve_all rs w))))],
     snd (served r (snd (serve_all rs w))))%list.
Proof.
  revert w. induction rs as [| q rest IH]; intros w;
    cbn [app serve_all fst snd].
  - destruct (served r w) as [resp w1]. reflexivity.
  - destruct (served q w) as [resp w1]. rewrite IH.
    destruct (serve_all rest w1) as [out w2]. reflexivity.
Qed.

Lemma step_serves (s : server) (e : event) (w : world) :
  serve_all (map fst (outbox s)) w = (outbox s, host s) ->
  serve_all (map fst (outbox (step s e))) w
  = (outbox (step s e), host (step s e)).
Proof.
  intros I. destruct e as [r | |]; cbn.
  - exact I.
  - destruct (active s), (inbox s); exact I.
  - destruct (active s) as [a |]; [| exact I].
    rewrite <- served_handle.
    destruct (served a (host s)) as [resp w'] eqn:E. cbn.
    rewrite map_app. cbn [map fst]. rewrite serve_all_snoc, I. cbn.
    rewrite E. reflexivity.
Qed.

(** C2, amended.  Whatever the order of arrivals and activations, the
    server answers the requests in the order they arrived and drops none.
    What it has answered and the state of its host are those of serving
    the answered requests one after the other from the start, where to
    serve a trigger is to run the scraper on the host as the request
    before left it and to report how that run ended: completed, or failed
    with its error.  So every trigger gets a run of its own, whatever was
    in progress when it arrived, and none is refused; runs do not overlap
    only because each one finishes within the activation of its
    handler. *)
Theorem every_trigger_runs (w : world) (evs : list event) :
  (map fst (outbox (run evs (serving w))) ++ pending (run evs (serving w)))%list
  = arrived evs
  /\ serve_all (map fst (outbox (run evs (serving w)))) w
     = (outbox (run evs (serving w)), host (run evs (serving w)))
  /\ Forall (fun a => fst a = PostNba -> run_report (snd a))
            (outbox (run evs (serving w))).
Proof.
  induction evs as [| e evs IH] using rev_ind.
  - split; [reflexivity | split; [reflexivity | constructor]].
  - unfold run in *. rewrite fold_left_app. cbn [fold_left].
    destruct IH as (C & S & R). split; [| split].
    + rewrite step_conserves, arrived_app, <- C, <- app_assoc. reflexivity.
    + apply step_serves. exact S.
    + apply step_reports. exact R.
Qed.

(** ** C4: what a scrape retains *)

(** C4, as stated, fails: a retained record is not always kept as it was.
    The file is rewritten as a whole by [JSON.stringify], which writes the
    [-0] of a retained record as [0] and a Number read from a numeral
    beyond the range as [null]. *)
Lemma scrape_rewrites_retained_record : ~ retains_unmodified Fixture.signed.
Proof.
  intros H.
  destruct (H (returned (scrapeNBAData Fixture.signed))
              (snd (scrapeNBAData Fixture.signed)))
    as (prior & P & S); [vm_compute; reflexivity |].
  injection P as <-.
  apply (f_equal (option_map
                    (fun l => map (field "goalDifference") (skipn 2 l))))
    in S.
  vm_compute in S. discriminate S.
Qed.

(** C4, amended.  After a successful NBA scrape the stored player list is
    the returned NBA players followed by exactly the prior players whose
    sport is not "NBA", in their order, each as [JSON.stringify] writes it:
    the prior record itself unless it holds a [-0] (stored as [0]) or a
    NaN or infinite Number (stored as [null]); none of them is an NBA
    record.  White space is not kept: the file is indented anew. *)
Theorem scrape_replaces_only_NBA (w : world) (ps : list json) (w' : world) :
  scrapeNBAData w = (Ok ps, w') ->
  exists prior,
    stored_players (disk w) = Some prior
    /\ stored_players (disk w')
       = Some (ps ++ map written (filter other_sport prior))%list
    /\ Forall (fun p => other_sport p = true)
              (map written (filter other_sport prior))
    /\ (forallb plain (filter other_sport prior) = true ->
        stored_players (disk w')
        = Some (ps ++ filter other_sport prior)%list).
Proof.
  intros H. destruct (scrape_stored _ _ _ H) as (prior & P & _ & S).
  exists prior. split; [exact P |]. split; [exact S |]. split.
  - apply Forall_other_sport_written, Forall_filter_other_sport.
  - intros Pl. rewrite S, (map_written_plain _ Pl). reflexivity.
Qed.

Lemma scrape_replaces_only_NBA_witness :
  stored_players (disk (snd (scrapeNBAData Scenario.office)))
  = Some (Scenario.office_players ++ [Scenario.quarterback])%list.
Proof.
  destruct (scrape_replaces_only_NBA Scenario.office Scenario.office_players
              (snd (scrapeNBAData Scenario.office)))
    as (prior & P & _ & _ & S).
  - vm_compute. reflexivity.
  - injection P as <-. apply S. reflexivity.
Defined.

(** ** C6: a scrape that fails *)




(** ** C10: the single-player lookup *)

Lemma array_find_some (id : string) (items : list json) (p : json) :
  array_find (id_matches id) items = Ok (Some p) ->
  has_id (parseInt id) p = true.
Proof.
  induction items as [| q rest IH]; cbn; [discriminate |].
  destruct (id_matches id q) as [[|] | e] eqn:E; [| exact IH | discriminate].
  intros H. injection H as ->.
  unfold id_matches in E. unfold has_id, field.
  destruct p; cbn in E |- *; try discriminate E; congruence.
Qed.

Lemma array_find_none (id : string) (items : list json) :
  array_find (id_matches id) items = Ok None ->
  Forall (fun p => p <> JNull) items
  /\ forall p, In p items -> has_id (parseInt id) p = false.
Proof.
  induction items as [| q rest IH]; cbn.
  - intros _. split; [constructor | intros p []].
  - destruct (id_matches id q) as [[|] | e] eqn:E; try discriminate.
    intros H. destruct (IH H) as [NN F].
    assert (Q : q <> JNull /\ has_id (parseInt id) q = false).
    { unfold id_matches in E. unfold has_id, field.
      destruct q; cbn in E |- *; try discriminate E;
        (split; [discriminate | congruence]). }
    split; [constructor; [apply Q | exact NN] |].
    intros p [<- | I]; [apply Q | exact (F p I)].
Qed.

Lemma get_player_cases (w : world) (id : string) :
  (exists e, (forall items, ~ listed (disk w) items)
             /\ fst (get_player id w)
                = respond 500 (Failure "Error reading player data" e))
  \/ exists items,
       listed (disk w) items
       /\ fst (get_player id w)
          = match array_find (id_matches id) items with
            | Ok (Some p) => respond 200 (Value p)
            | Ok None => not_found
            | Throw e => respond 500 (Failure "Error reading player data" e)
            end.
Proof.
  unfold get_player, guarded, bind, fs_readFileSync, lift, ret, listed.
  destruct (disk w) as [| | [raw | v]]; cbn;
    try (left; eexists; split; [intros items (props & E & _); discriminate E
                               | reflexivity]).
  destruct v as [| b | n | s | l | props]; cbn;
    try (left; eexists;
         split; [intros items (props & E & _); discriminate E
                | reflexivity]).
  destruct (lookup "players" props) as [[| b | n | s | items | o] |] eqn:L;
    cbn;
    try (left; eexists;
         split; [intros items (props' & E & L'); inversion E; subst props';
                 rewrite L in L'; discriminate L'
                | reflexivity]).
  right. exists items. split; [exists props; auto |].
  destruct (array_find (id_matches id) items) as [[p |] | e] eqn:F;
    cbn; try reflexivity.
  rewrite (has_id_truthy _ _ (array_find_some _ _ _ F)). reflexivity.
Qed.

Lemma listed_unique (d : file_state) (items items' : list json) :
  listed d items -> listed d items' -> items' = items.
Proof.
  intros (props & E & L) (props' & E' & L'). rewrite E in E'.
  inversion E'; subst props'. rewrite L in L'. inversion L'. reflexivity.
Qed.

(** C10, as stated, fails on a file that holds a player list with a
    [null] in it, which the list route serves: the lookup of an id that no
    stored player has is answered 500, not 404. *)
Lemma lookup_fails_on_listed_file : ~ lookup_as_specified Fixture.holed.
Proof.
  intros H.
  destruct (H [Scenario.quarterback; JNull] "1") as [_ [_ N]].
  - eexists. split; reflexivity.
  - assert (E : fst (get_player "1" Fixture.holed) = not_found).
    { apply N. intros p [<- | [<- | []]]; vm_compute; reflexivity. }
    vm_compute in E. discriminate E.
Qed.

(** C10, amended.  The lookup never changes the host.  On a file that
    parses to an object whose [players] is an array without [null], it
    answers with the first stored player whose id equals [parseInt] of the
    parameter, and 404 "Player not found" if there is none; it answers 404
    in no other case.  On a list with a [null] it answers with the first
    such player before the [null], and 500 if there is none.  On every
    other file (missing, unreadable, not JSON, not an object, [players]
    not an array) it answers 500. *)
Theorem get_player_spec (w : world) (id : string) :
  snd (get_player id w) = w
  /\ (forall items,
        readable (disk w) items ->
        fst (get_player id w)
        = match find (has_id (parseInt id)) items with
          | Some p => respond 200 (Value p)
          | None => not_found
          end)
  /\ (fst (get_player id w) = not_found
      <-> exists items,
            readable (disk w) items
            /\ forall p, In p items -> has_id (parseInt id) p = false)
  /\ (forall before after,
        listed (disk w) (before ++ JNull :: after) ->
        Forall (fun p => p <> JNull) before ->
        fst (get_player id w)
        = match find (has_id (parseInt id)) before with
          | Some p => respond 200 (Value p)
          | None =>
              respond 500 (Failure "Error reading player data" TypeError)
          end)
  /\ ((forall items, ~ listed (disk w) items) ->
      exists e,
        fst (get_player id w)
        = respond 500 (Failure "Error reading player data" e)).
Proof.
  split; [apply get_player_host |].
  split; [intros items R; rewrite (get_player_found w id items R);
          reflexivity |].
  split; [| split].
  - split.
    + intros E.
      destruct (get_player_cases w id) as [(e & _ & C) | (items & L & C)];
        rewrite C in E; [discriminate E |].
      destruct (array_find (id_matches id) items) as [[p |] | e] eqn:F;
        try discriminate E.
      destruct (array_find_none _ _ F) as [NN N].
      exists items. split; [split; [exact L | exact NN] | exact N].
    + intros (items & R & N). rewrite (get_player_found w id items R).
      destruct (find (has_id (parseInt id)) items) as [p |] eqn:F;
        [| reflexivity].
      apply find_some in F. destruct F as [I F].
      rewrite (N p I) in F. discriminate F.
  - intros before after L NN.
    destruct (get_player_cases w id) as [(e & N & _) | (items & L' & C)];
      [destruct (N _ L) |].
    rewrite (listed_unique _ _ _ L L') in C. rewrite C.
    rewrite (array_find_hole id _ _ NN).
    destruct (find (has_id (parseInt id)) before); reflexivity.
  - intros N.
    destruct (get_player_cases w id) as [(e & _ & C) | (items & L & _)];
      [exists e; exact C | destruct (N _ L)].
Qed.

Lemma get_player_spec_witness :
  fst (get_player "7" Scenario.office)
  = respond 200 (Value Scenario.quarterback)
  /\ fst (get_player "8" Scenario.office) = not_found
  /\ fst (get_player "1" Fixture.holed)
     = respond 500 (Failure "Error reading player data" TypeError).
Proof.
  assert (R : readable (disk Scenario.office)
                [Scenario.stale_center; Scenario.quarterback]).
  { split.
    - eexists. split; reflexivity.
    - repeat constructor; discriminate. }
  split; [| split].
  - exact (proj1 (proj2 (get_player_spec Scenario.office "7")) _ R).
  - exact (proj1 (proj2 (get_player_spec Scenario.office "8")) _ R).
  - apply (proj1 (proj2 (proj2 (proj2 (get_player_spec Fixture.holed "1"))))
             [Scenario.quarterback] []).
    + eexists. split; reflexivity.
    + repeat constructor; discriminate.
Defined.
